(** * Ax model-bridge utilities and the UnitX transform

    A shallow embedding of [ax/modelbridge/transforms/unit_x.py] and of the
    marshalling helpers of [ax/modelbridge/modelbridge_utils.py], with the
    properties the specification states about them.

    Conventions of the embedding:
    - Python numbers ([bool], [int], [float]) are read as real numbers, so
      the statements about them are statements of exact arithmetic and say
      nothing about rounding; the module [Binary64] below has the
      arithmetic of [unit_x.py] a second time, on IEEE 754 binary64 numbers
      as CPython computes it, and shows where rounding makes the code
      differ from the exact reading;
    - a Python [dict] is an association list in insertion order with the
      update rule of [dict.__setitem__];
    - a raised exception is the [Raise] branch of [result]. *)

From Corelib Require Import PrimFloat.
From Corelib Require FloatOps SpecFloat.
From Stdlib Require Import Reals Lra Lia String List.
From stdpp Require Import base list strings.

Open Scope string_scope.
Open Scope list_scope.
Open Scope R_scope.

(** ** Python run-time conventions *)

Module Py.

Inductive exn : Set :=
| KeyError
| ValueError
| TypeError
| ZeroDivisionError
| IndexError
| AttributeError.

Inductive result (A : Type) : Type :=
| Ok (a : A)
| Raise (e : exn).

Arguments Ok {A} a.
Arguments Raise {A} e.

Definition bind {A B} (m : result A) (k : A → result B) : result B :=
  match m with
  | Ok a => k a
  | Raise e => Raise e
  end.

#[global] Instance result_ret : MRet result := @Ok.
#[global] Instance result_bind : MBind result := λ A B k m, bind m k.

(** [for x in l: acc = f(acc, x)], stopping at the first exception. *)
Fixpoint foldM {A B} (f : B → A → result B) (b : B) (l : list A) : result B :=
  match l with
  | [] => Ok b
  | a :: l' => b' ← f b a; foldM f b' l'
  end.

(** [[f(x) for x in l]], stopping at the first exception. *)
Fixpoint forM {A B} (f : A → result B) (l : list A) : result (list B) :=
  match l with
  | [] => Ok []
  | a :: l' => b ← f a; bs ← forM f l'; Ok (b :: bs)
  end.

(** *** Dictionaries *)

Definition dict (V : Type) : Type := list (string * V).

Section Dict.
Context {V : Type}.

(** [d.get(k)] *)
Fixpoint dict_get (k : string) (d : dict V) : option V :=
  match d with
  | [] => None
  | (k', v) :: d' => if String.eqb k k' then Some v else dict_get k d'
  end.

(** [k in d] *)
Definition dict_contains (k : string) (d : dict V) : bool :=
  match dict_get k d with Some _ => true | None => false end.

(** [d[k]] *)
Definition dict_getitem (k : string) (d : dict V) : result V :=
  match dict_get k d with Some v => Ok v | None => Raise KeyError end.

(** [d[k] = v]: an existing key keeps its position, a new one goes last. *)
Fixpoint dict_set (k : string) (v : V) (d : dict V) : dict V :=
  match d with
  | [] => [(k, v)]
  | (k', v') :: d' =>
      if String.eqb k k' then (k, v) :: d' else (k', v') :: dict_set k v d'
  end.

Definition dict_keys (d : dict V) : list string := fst <$> d.

(** The keys of a dictionary are pairwise distinct. *)
Definition dict_wf (d : dict V) : Prop := NoDup (dict_keys d).
End Dict.

(** [l.index(x)] on a list of strings: the first position of [x], or
    [ValueError] when [x] does not occur. *)
Fixpoint index (x : string) (l : list string) : result nat :=
  match l with
  | [] => Raise ValueError
  | y :: l' => if String.eqb x y then Ok 0%nat else i ← index x l'; Ok (S i)
  end.

(** [x in l] on a list of strings. *)
Definition mem (x : string) (l : list string) : bool :=
  existsb (String.eqb x) l.

(** *** Parameter values: [Union[None, bool, float, int, str]] *)

Inductive TParamValue : Type :=
| PNone
| PStr (s : string)
| PNum (r : R).

(** Arithmetic on a value that is not a number raises [TypeError]. *)
Definition as_number (v : TParamValue) : result R :=
  match v with
  | PNum r => Ok r
  | _ => Raise TypeError
  end.

(** [v is not None] *)
Definition is_not_none (v : TParamValue) : bool :=
  match v with PNone => false | _ => true end.

End Py.

Import Py.

(** ** Data model *)

Module Core.

Inductive ParameterType : Set := BOOL | INT | FLOAT | STRING.

(** Modelled from the spec: the parameter classes of [ax.core.parameter]
    (section 3, Parameter: name, type, bounds when it is a range, log-scale
    flag, optional target value).  The constructor tells which class the
    object is an instance of. *)
Inductive ParameterClass : Type :=
| RangeParameter (lower upper : R) (log_scale : bool)
| ChoiceParameter (values : list TParamValue)
| FixedParameter (value : TParamValue).

(** The class [Parameter] of the source. *)
Record Param : Type := mkParameter {
  name : string;
  parameter_type : ParameterType;
  class : ParameterClass;
  is_fidelity : bool;
  target_value : TParamValue
}.

(** Modelled from the spec: [RangeParameter.update_range] stores the new
    bounds (section 4.3: "its declared bounds become ..."). *)
Definition update_range (p : Param) (lower upper : R) : Param :=
  match class p with
  | RangeParameter _ _ ls =>
      mkParameter (name p) (parameter_type p) (RangeParameter lower upper ls)
        (is_fidelity p) (target_value p)
  | _ => p
  end.

(** [p._target_value = v] *)
Definition set_target_value (p : Param) (v : TParamValue) : Param :=
  mkParameter (name p) (parameter_type p) (class p) (is_fidelity p) v.

(** Modelled from the spec: a linear constraint is a mapping from parameter
    name to coefficient plus a scalar bound (section 3). *)
Record ParameterConstraint : Type := mkParameterConstraint {
  constraint_dict : dict R;
  pc_bound : R
}.

Record SearchSpace : Type := mkSearchSpace {
  ss_parameters : dict Param;
  parameter_constraints : list ParameterConstraint
}.

(** [search_space.set_parameter_constraints(cs)] *)
Definition set_parameter_constraints
    (ss : SearchSpace) (cs : list ParameterConstraint) : SearchSpace :=
  mkSearchSpace (ss_parameters ss) cs.

Record ObservationFeatures : Type := mkObservationFeatures {
  parameters : dict TParamValue;
  trial_index : option Z
}.

(** [obsf.parameters[k] = v] *)
Definition set_parameter
    (obsf : ObservationFeatures) (k : string) (v : TParamValue)
  : ObservationFeatures :=
  mkObservationFeatures (dict_set k v (parameters obsf)) (trial_index obsf).

(** Modelled from the spec: a constraint is read as
    [sum(coef * value) <= bound] (section 3).  The sum runs over the entries
    of the constraint; a parameter the point lacks is a [KeyError], a value
    that is not a number a [TypeError]. *)
Definition weighted_sum (c : ParameterConstraint) (x : dict TParamValue)
  : result R :=
  foldM (λ acc '(p_name, w),
           v ← dict_getitem p_name x;
           r ← as_number v;
           Ok (acc + w * r))
        0 (constraint_dict c).

Definition satisfied (c : ParameterConstraint) (x : dict TParamValue) : Prop :=
  ∃ s, weighted_sum c x = Ok s ∧ s <= pc_bound c.

Definition violated (c : ParameterConstraint) (x : dict TParamValue) : Prop :=
  ∃ s, weighted_sum c x = Ok s ∧ s > pc_bound c.

End Core.

Import Core.

(** ** [ax/modelbridge/transforms/unit_x.py] *)

(** [normalize_value]: [(value - lower) / (upper - lower)].  The subtraction
    [value - lower] is evaluated first, then the division.  This is the
    exact reading, on real numbers; [Binary64.normalize_value] is the same
    function with the rounding of the floats the code computes on. *)
Definition normalize_value (value : TParamValue) (bounds : R * R) : result R :=
  let '(lower, upper) := bounds in
  v ← as_number value;
  if Req_dec_T (upper - lower) 0 then Raise ZeroDivisionError
  else Ok ((v - lower) / (upper - lower)).

Module UnitX.

Record t : Type := mk { bounds : dict (R * R) }.

(** [UnitX.__init__]: the parameters to transform are the float range
    parameters that are not on a log scale. *)
Definition init (search_space : SearchSpace) : t :=
  mk (fold_left
        (λ acc '(p_name, p),
           match class p, parameter_type p with
           | RangeParameter lower upper false, FLOAT =>
               dict_set p_name (lower, upper) acc
           | _, _ => acc
           end)
        (ss_parameters search_space) []).

(** The body of the inner loop of [transform_observation_features]. *)
Definition transform_step (obsf : ObservationFeatures) (b : string * (R * R))
  : result ObservationFeatures :=
  let '(p_name, (l, u)) := b in
  match dict_get p_name (parameters obsf) with
  | Some param =>
      v ← normalize_value param (l, u);
      Ok (set_parameter obsf p_name (PNum v))
  | None => Ok obsf
  end.

Definition transform_observation_features
    (self : t) (observation_features : list ObservationFeatures)
  : result (list ObservationFeatures) :=
  forM (λ obsf, foldM transform_step obsf (bounds self)) observation_features.

(** The body of the inner loop of [untransform_observation_features], in
    the exact reading; [Binary64.UnitX.untransform_step] has the
    rounding. *)
Definition untransform_step (obsf : ObservationFeatures) (b : string * (R * R))
  : result ObservationFeatures :=
  let '(p_name, (l, u)) := b in
  param ← dict_getitem p_name (parameters obsf);
  v ← as_number param;
  Ok (set_parameter obsf p_name (PNum (v * (u - l) + l))).

Definition untransform_observation_features
    (self : t) (observation_features : list ObservationFeatures)
  : result (list ObservationFeatures) :=
  forM (λ obsf, foldM untransform_step obsf (bounds self)) observation_features.

(** The body of the first loop of [transform_search_space].  The match on
    the class is [isinstance(p, RangeParameter)]. *)
Definition transform_parameter (self : t) (p_name : string) (p : Param)
  : result Param :=
  p1 ← match class p with
       | RangeParameter lower upper _ =>
           if dict_contains p_name (bounds self) then
             bl ← dict_getitem p_name (bounds self);
             lo ← normalize_value (PNum lower) bl;
             bu ← dict_getitem p_name (bounds self);
             up ← normalize_value (PNum upper) bu;
             Ok (update_range p lo up)
           else Ok p
       | _ => Ok p
       end;
  if is_not_none (target_value p1) then
    b ← dict_getitem p_name (bounds self);
    tv ← normalize_value (target_value p1) b;
    Ok (set_target_value p1 (PNum tv))
  else Ok p1.

(** The body of the second loop of [transform_search_space], in the exact
    reading; [Binary64.UnitX.transform_constraint] has the rounding. *)
Definition transform_constraint (self : t) (c : ParameterConstraint)
  : ParameterConstraint :=
  let '(cd, bound) :=
    fold_left
      (λ '(cd, bound) '(p_name, w),
         match dict_get p_name (bounds self) with
         | Some (l, u) => (dict_set p_name (w * (u - l)) cd, bound - w * l)
         | None => (dict_set p_name w cd, bound)
         end)
      (constraint_dict c) ([], pc_bound c) in
  mkParameterConstraint cd bound.

Definition transform_search_space (self : t) (search_space : SearchSpace)
  : result SearchSpace :=
  ps ← forM (λ '(p_name, p),
               p' ← transform_parameter self p_name p; Ok (p_name, p'))
            (ss_parameters search_space);
  let search_space :=
    mkSearchSpace ps (parameter_constraints search_space) in
  let new_constraints :=
    map (transform_constraint self) (parameter_constraints search_space) in
  Ok (set_parameter_constraints search_space new_constraints).

#[global] Arguments transform_step : simpl never.
#[global] Arguments untransform_step : simpl never.
#[global] Arguments transform_parameter : simpl never.
#[global] Arguments transform_constraint : simpl never.

End UnitX.

(** ** [ax/modelbridge/modelbridge_utils.py] *)

Module Objectives.

(** Modelled from the spec: the objective and outcome classes of [ax.core]
    (section 3).  An objective is a single metric with a minimize flag, a
    scalarized combination of metrics with weights, or a multi-objective
    list of (metric, weight-or-none) pairs. *)
Record Metric : Type := mkMetric { metric_name : string }.

Inductive Objective : Type :=
| SingleObjective (metric : Metric) (minimize : bool)
| ScalarizedObjective (metric_weights : list (Metric * R)) (minimize : bool)
| MultiObjective (metric_weights : list (Metric * option R)) (minimize : bool).

Definition minimize (objective : Objective) : bool :=
  match objective with
  | SingleObjective _ m | ScalarizedObjective _ m | MultiObjective _ m => m
  end.

Inductive ComparisonOp : Set := GEQ | LEQ.

Record OutcomeConstraint : Type := mkOutcomeConstraint {
  oc_metric : Metric;
  op : ComparisonOp;
  oc_bound : R;
  oc_relative : bool
}.

Record ObjectiveThreshold : Type := mkObjectiveThreshold {
  ot_metric : Metric;
  ot_bound : R;
  ot_op : ComparisonOp;
  ot_relative : bool
}.

Record OptimizationConfig : Type := mkOptimizationConfig {
  (** [isinstance(config, MultiObjectiveOptimizationConfig)] *)
  is_multi_objective : bool;
  objective : Objective;
  outcome_constraints : list OutcomeConstraint;
  objective_thresholds : list ObjectiveThreshold
}.

(** [config.clone_with_args(objective_thresholds=ts)] *)
Definition clone_with_args
    (config : OptimizationConfig) (ts : list ObjectiveThreshold)
  : OptimizationConfig :=
  mkOptimizationConfig (is_multi_objective config) (objective config)
    (outcome_constraints config) ts.

(** [config.clone()] *)
Definition clone (config : OptimizationConfig) : OptimizationConfig := config.

Record ObservationData : Type := mkObservationData {
  metric_names : list string;
  means : list R;
  covariance : list (list R)
}.

(** Modelled from the spec: the constructor of [ObservationData]
    ([ax.core.observation], not under [src/]).  The three arrays are
    parallel (section 3): one mean per metric name and a covariance matrix
    across the metrics, square of that size (section 4.4, step 7); the
    constructor raises [ValueError] when the means or the covariance have
    another shape. *)
Definition ObservationData_init
    (metric_names : list string) (means : list R) (covariance : list (list R))
  : result ObservationData :=
  let k := length metric_names in
  if negb (Nat.eqb (length means) k) then Raise ValueError
  else if negb (Nat.eqb (length covariance) k
                && forallb (λ row, Nat.eqb (length row) k) covariance)
  then Raise ValueError
  else Ok (mkObservationData metric_names means covariance).

Record Observation : Type := mkObservation {
  features : ObservationFeatures;
  data : ObservationData
}.

End Objectives.

Import Objectives.

Module ModelbridgeUtils.

(** [enumerate(l)] *)
Definition enumerate {A} (l : list A) : list (nat * A) :=
  zip (seq 0 (length l)) l.

(** [extract_objective_thresholds]: the dictionary comprehension, then the
    list comprehension over [outcomes] with its filter. *)
Definition extract_objective_thresholds
    (objective_thresholds : list ObjectiveThreshold) (outcomes : list string)
  : result (list R) :=
  let objective_threshold_dict :=
    fold_left (λ d ot, dict_set (metric_name (ot_metric ot)) (ot_bound ot) d)
              objective_thresholds [] in
  forM (λ name, dict_getitem name objective_threshold_dict)
       (filter (λ name, dict_contains name objective_threshold_dict = true)
               outcomes).

(** Python's [w or s] on an optional number: [None] and [0.0] are falsy. *)
Definition or_else (w : option R) (s : R) : R :=
  match w with
  | Some w => if Req_dec_T w 0 then s else w
  | None => s
  end.

(** [extract_objective_weights] *)
Definition extract_objective_weights
    (objective : Objective) (outcomes : list string) : result (list R) :=
  let s := if minimize objective then -1 else 1 in
  let objective_weights := replicate (length outcomes) 0 in
  match objective with
  | ScalarizedObjective metric_weights _ =>
      foldM (λ ws '(obj_metric, obj_weight),
               i ← index (metric_name obj_metric) outcomes;
               Ok (<[i := obj_weight * s]> ws))
            objective_weights metric_weights
  | MultiObjective metric_weights _ =>
      foldM (λ ws '(obj_metric, obj_weight),
               i ← index (metric_name obj_metric) outcomes;
               Ok (<[i := or_else obj_weight s]> ws))
            objective_weights metric_weights
  | SingleObjective metric _ =>
      i ← index (metric_name metric) outcomes;
      Ok (<[i := s]> objective_weights)
  end.

(** The body of the loop of [extract_outcome_constraints]. *)
Definition outcome_constraint_step (outcomes : list string)
    (Ab : list (list R) * list (list R)) (ic : nat * OutcomeConstraint)
  : result (list (list R) * list (list R)) :=
  let '(A, b) := Ab in
  let '(i, c) := ic in
  let s := match op c with LEQ => 1 | GEQ => -1 end in
  j ← index (metric_name (oc_metric c)) outcomes;
  Ok (alter (λ row, <[j := s]> row) i A,
      alter (λ row, <[0%nat := s * oc_bound c]> row) i b).

(** [extract_outcome_constraints]: [A] is a matrix with one row per
    constraint and one column per outcome, [b] a column vector. *)
Definition extract_outcome_constraints
    (outcome_constraints : list OutcomeConstraint) (outcomes : list string)
  : result (option (list (list R) * list (list R))) :=
  match outcome_constraints with
  | _ :: _ =>
      let A := replicate (length outcome_constraints)
                         (replicate (length outcomes) 0) in
      let b := replicate (length outcome_constraints) (replicate 1 0) in
      Ab ← foldM (outcome_constraint_step outcomes) (A, b)
                 (enumerate outcome_constraints);
      Ok (Some Ab)
  | [] => Ok None
  end.

(** The body of the loop of [pending_observations_as_array].  An array of
    parameter values is the list of its rows and [np.array([])] is [];
    the conversion numpy applies to rows of mixed value types is left
    out. *)
Definition pending_step (outcome_names param_names : list string)
    (pending_array : list (list (list TParamValue)))
    (item : string * list ObservationFeatures)
  : result (list (list (list TParamValue))) :=
  let '(metric_name, po_list) := item in
  if negb (mem metric_name outcome_names) then Ok pending_array
  else
    rows ← forM (λ po, forM (λ p, dict_getitem p (parameters po)) param_names)
                po_list;
    i ← index metric_name outcome_names;
    Ok (<[i := rows]> pending_array).

(** [pending_observations_as_array] *)
Definition pending_observations_as_array
    (pending_observations : dict (list ObservationFeatures))
    (outcome_names param_names : list string)
  : result (option (list (list (list TParamValue)))) :=
  match pending_observations with
  | [] => Ok None
  | _ :: _ =>
      let pending_array := replicate (length outcome_names) [] in
      arr ← foldM (pending_step outcome_names param_names) pending_array
                  pending_observations;
      Ok (Some arr)
  end.

(** [array_to_observation_data]: [f] is an (n x m) array, [cov] an
    (n x m x m) array.  The arguments of the constructor are evaluated
    first, so a missing [cov[i]] is an [IndexError] before the constructor
    checks the shapes. *)
Definition array_to_observation_data
    (f : list (list R)) (cov : list (list (list R))) (outcomes : list string)
  : result (list ObservationData) :=
  forM (λ '(i, f_i),
          match cov !! i with
          | Some cov_i => ObservationData_init outcomes f_i cov_i
          | None => Raise IndexError
          end)
       (enumerate f).

(** [checked_cast_optional(MultiObjectiveOptimizationConfig, val)] *)
Definition checked_cast_optional (val : option OptimizationConfig)
  : result (option OptimizationConfig) :=
  match val with
  | None => Ok None
  | Some c => if is_multi_objective c then Ok (Some c) else Raise ValueError
  end.

(** [not_none(val)] *)
Definition not_none {A} (val : option A) : result A :=
  match val with Some a => Ok a | None => Raise ValueError end.

(** A list argument used as a condition: [None] and [[]] are falsy. *)
Definition truthy {A} (l : option (list A)) : option (list A) :=
  match l with
  | Some (_ :: _) => l
  | _ => None
  end.

Section Frontier.

(** The model handle of the model bridge. *)
Variable Model : Type.

(** Arrays and tensors are both lists of reals here: [_array_to_tensor]
    changes the representation, not the numbers. *)
Definition Tensor1 : Type := list R.
Definition Tensor2 : Type := list (list R).
Definition Tensor3 : Type := list (list (list R)).

(** Modelled from the spec: a transform of the chain (section 6), as far as
    [pareto_frontier] calls it. *)
Record Transform : Type := mkTransform {
  untransform_observation_data :
    list ObservationData → list ObservationFeatures →
    result (list ObservationData)
}.

(** Modelled from the spec: the model bridge (section 6): an ordered outcome
    name list, a transform chain, a training data accessor and the forward
    transforms of features, data and optimization configuration. *)
Record ModelBridge : Type := mkModelBridge {
  outcomes : list string;
  model : Model;
  _optimization_config : option OptimizationConfig;
  get_training_data : list Observation;
  transforms : list (string * Transform);
  mb_transform_observation_features :
    list ObservationFeatures → result Tensor2;
  mb_transform_observation_data :
    list ObservationData → result (Tensor2 * Tensor3);
  _transform_observation_data :
    list ObservationData → result (Tensor2 * Tensor3);
  mb_transform_optimization_config :
    OptimizationConfig → ObservationFeatures → result OptimizationConfig
}.

(** Modelled from the spec: the external frontier evaluator (section 6), a
    callable taking the model handle and the transformed features, data,
    thresholds, weights and constraints, and returning the frontier means
    and covariances. *)
Definition FrontierEvaluator : Type :=
  Model → option Tensor2 → option Tensor2 → option Tensor3 →
  Tensor1 → Tensor1 → option (Tensor2 * Tensor2) →
  result (Tensor2 * Tensor3).

(** Modelled from the spec: [get_default_frontier_evaluator()], the
    evaluator [pareto_frontier] asks for, which is not under [src/].
    Section 4.4: the frontier is predicted from the features or observed
    from the recorded data, and the absence of both raises.  So the
    evaluator predicts when it is given [X], selects among the given
    outcomes when it is given both [Y] and [Yvar], and raises [ValueError]
    otherwise.  What it computes once it has its inputs is the [routine]
    it stands on. *)
Definition get_default_frontier_evaluator (routine : FrontierEvaluator)
  : FrontierEvaluator :=
  λ model X Y Yvar objective_thresholds objective_weights outcome_constraints,
    match X, Y, Yvar with
    | Some _, _, _ | None, Some _, Some _ =>
        routine model X Y Yvar objective_thresholds objective_weights
          outcome_constraints
    | None, _, _ => Raise ValueError
    end.

(** The evaluator [pareto_frontier] calls; the source obtains it from
    [get_default_frontier_evaluator()]. *)
Variable frontier_evaluator :
  Model → option Tensor2 → option Tensor2 → option Tensor3 →
  Tensor1 → Tensor1 → option (Tensor2 * Tensor2) →
  result (Tensor2 * Tensor3).

(** Modelled from the spec: the cast of a configuration that is not
    multi-objective (section 4.4, step 3). *)
Variable from_opt_conf : OptimizationConfig → option OptimizationConfig.

(** Modelled from the spec: the weighted aggregate of section 4.5 and the
    hypervolume integral, both external. *)
Variable get_weighted_mc_objective_and_objective_thresholds :
  Tensor1 → Tensor1 → (Tensor2 → Tensor2) * Tensor1.
Variable Hypervolume_compute : Tensor1 → Tensor2 → result R.

(** [pareto_frontier] *)
Definition pareto_frontier
    (modelbridge : ModelBridge)
    (objective_thresholds : option (list ObjectiveThreshold))
    (observation_features : option (list ObservationFeatures))
    (observation_data : option (list ObservationData))
    (optimization_config : option OptimizationConfig)
  : result (list ObservationData) :=
  X ← match truthy observation_features with
      | Some fs => x ← mb_transform_observation_features modelbridge fs;
                   Ok (Some x)
      | None => Ok None
      end;
  YYvar ← match truthy observation_data with
          | Some od => y ← mb_transform_observation_data modelbridge od;
                       Ok (Some y.1, Some y.2)
          | None => Ok (None, None)
          end;
  mooc ← match optimization_config with
         | Some c => Ok (Some c)
         | None => checked_cast_optional (_optimization_config modelbridge)
         end;
  mooc ← match mooc with
         | Some c => Ok c
         | None => Raise ValueError
         end;
  mooc ← (if is_multi_objective mooc then Ok mooc
          else not_none (from_opt_conf mooc));
  let mooc := match truthy objective_thresholds with
              | Some ts => clone_with_args mooc ts
              | None => mooc
              end in
  optimization_config ←
    mb_transform_optimization_config modelbridge mooc
      (mkObservationFeatures [] None);
  objective_weights ←
    extract_objective_weights (objective optimization_config)
      (outcomes modelbridge);
  outcome_constraints ←
    extract_outcome_constraints
      (Objectives.outcome_constraints optimization_config)
      (outcomes modelbridge);
  objective_thresholds_arr ←
    extract_objective_thresholds
      (Objectives.objective_thresholds optimization_config)
      (outcomes modelbridge);
  fcov ← frontier_evaluator (model modelbridge) X YYvar.1 YYvar.2
           objective_thresholds_arr objective_weights outcome_constraints;
  frontier_observation_data ←
    array_to_observation_data fcov.1 fcov.2 (outcomes modelbridge);
  foldM (λ d t, untransform_observation_data t d [])
        frontier_observation_data
        (rev (map snd (transforms modelbridge))).

(** [predicted_pareto_frontier] *)
Definition predicted_pareto_frontier
    (modelbridge : ModelBridge)
    (objective_thresholds : option (list ObjectiveThreshold))
    (observation_features : option (list ObservationFeatures))
    (optimization_config : option OptimizationConfig)
  : result (list ObservationData) :=
  let observation_features :=
    match observation_features with
    | Some fs => fs
    | None => map features (get_training_data modelbridge)
    end in
  match observation_features with
  | [] => Raise ValueError
  | _ :: _ =>
      pareto_frontier modelbridge objective_thresholds
        (Some observation_features) None optimization_config
  end.

(** [observed_pareto_frontier] *)
Definition observed_pareto_frontier
    (modelbridge : ModelBridge)
    (objective_thresholds : option (list ObjectiveThreshold))
    (optimization_config : option OptimizationConfig)
  : result (list ObservationData) :=
  let observation_data := map data (get_training_data modelbridge) in
  pareto_frontier modelbridge objective_thresholds None
    (Some observation_data) optimization_config.

(** [hypervolume] *)
Definition hypervolume
    (modelbridge : ModelBridge)
    (objective_thresholds : option (list ObjectiveThreshold))
    (observation_features : option (list ObservationFeatures))
    (observation_data : option (list ObservationData))
    (optimization_config : option OptimizationConfig)
  : result R :=
  observation_data ←
    pareto_frontier modelbridge objective_thresholds observation_features
      observation_data optimization_config;
  match observation_data with
  | [] => Ok 0
  | _ :: _ =>
      means ← _transform_observation_data modelbridge observation_data;
      let optimization_config :=
        match optimization_config with
        | None => clone <$> _optimization_config modelbridge
        | Some c => Some (clone c)
        end in
      optimization_config ←
        match objective_thresholds with
        | Some ts =>
            match optimization_config with
            | Some c => Ok (Some (clone_with_args c ts))
            | None => Raise AttributeError
            end
        | None => Ok optimization_config
        end;
      optimization_config ←
        match optimization_config with
        | Some c => Ok c
        | None => Raise AttributeError
        end;
      obj_w ← extract_objective_weights (objective optimization_config)
                (outcomes modelbridge);
      obj_t ← extract_objective_thresholds
                (Objectives.objective_thresholds optimization_config)
                (outcomes modelbridge);
      let '(obj, obj_t) :=
        get_weighted_mc_objective_and_objective_thresholds obj_w obj_t in
      Hypervolume_compute obj_t (obj means.1)
  end.

(** [predicted_hypervolume] *)
Definition predicted_hypervolume
    (modelbridge : ModelBridge)
    (objective_thresholds : option (list ObjectiveThreshold))
    (observation_features : option (list ObservationFeatures))
    (optimization_config : option OptimizationConfig)
  : result R :=
  let observation_features :=
    match observation_features with
    | Some fs => fs
    | None => map features (get_training_data modelbridge)
    end in
  match observation_features with
  | [] => Raise ValueError
  | _ :: _ =>
      hypervolume modelbridge objective_thresholds
        (Some observation_features) None optimization_config
  end.

(** [observed_hypervolume] *)
Definition observed_hypervolume
    (modelbridge : ModelBridge)
    (objective_thresholds : option (list ObjectiveThreshold))
    (optimization_config : option OptimizationConfig)
  : result R :=
  let observation_data := map data (get_training_data modelbridge) in
  hypervolume modelbridge objective_thresholds None
    (Some observation_data) optimization_config.

End Frontier.

Arguments mkModelBridge {Model}.
Arguments outcomes {Model}.
Arguments model {Model}.
Arguments _optimization_config {Model}.
Arguments get_training_data {Model}.
Arguments transforms {Model}.
Arguments mb_transform_observation_features {Model}.
Arguments mb_transform_observation_data {Model}.
Arguments _transform_observation_data {Model}.
Arguments mb_transform_optimization_config {Model}.
Arguments get_default_frontier_evaluator {Model}.
Arguments pareto_frontier {Model}.
Arguments predicted_pareto_frontier {Model}.
Arguments observed_pareto_frontier {Model}.
Arguments hypervolume {Model}.
Arguments predicted_hypervolume {Model}.
Arguments observed_hypervolume {Model}.

#[global] Arguments pending_step : simpl never.
#[global] Arguments outcome_constraint_step : simpl never.

End ModelbridgeUtils.

Import ModelbridgeUtils.
(** ** Vocabulary of the statements *)

Module UnitXSpec.
Import UnitX.

(** Bounds are well ordered: [lower < upper] (section 3). *)
Definition well_ordered (bs : dict (R * R)) : Prop :=
  ∀ k l u, (k, (l, u)) ∈ bs → l < u.

(** Every parameter the transform normalizes is present with a number. *)
Definition complete (bs : dict (R * R)) (o : ObservationFeatures) : Prop :=
  ∀ k b, (k, b) ∈ bs → ∃ r, dict_get k (parameters o) = Some (PNum r).

(** The values the transform would normalize are numbers. *)
Definition numeric (bs : dict (R * R)) (o : ObservationFeatures) : Prop :=
  ∀ k b v, (k, b) ∈ bs → dict_get k (parameters o) = Some v → ∃ r, v = PNum r.

(** The weight of coordinate [k] after the transform, in the words of
    section 4.3: [w * (u - l)] for a normalized coordinate, [w] otherwise. *)
Definition scaled_weight (self : UnitX.t) (k : string) (w : R) : R :=
  match dict_get k (bounds self) with
  | Some (l, u) => w * (u - l)
  | None => w
  end.

(** The amount the bound is decremented by: the sum of [w * l] over the
    normalized coordinates of the constraint. *)
Definition bound_shift (self : UnitX.t) (cd : dict R) : R :=
  fold_right
    (λ '(k, w) acc,
       match dict_get k (bounds self) with
       | Some (l, _) => w * l + acc
       | None => acc
       end)
    0 cd.

End UnitXSpec.

(** ** Sample inputs *)

Module Samples.

(** The search space of the end-to-end scenario of section 8: a float
    parameter bounded by [2, 10], an integer parameter bounded by [0, 5] and
    the constraint [1 * x + 1 * n <= 12]. *)
Definition ss_demo : SearchSpace :=
  mkSearchSpace
    [("x", mkParameter "x" FLOAT (RangeParameter 2 10 false) false PNone);
     ("n", mkParameter "n" INT (RangeParameter 0 5 false) false PNone)]
    [mkParameterConstraint [("x", 1); ("n", 1)] 12].

(** What the scenario expects of the transform: bounds (0, 1) for the float
    parameter and the constraint [8 * x + 1 * n <= 10]. *)
Definition ss_demo_unit : SearchSpace :=
  mkSearchSpace
    [("x", mkParameter "x" FLOAT (RangeParameter 0 1 false) false PNone);
     ("n", mkParameter "n" INT (RangeParameter 0 5 false) false PNone)]
    [mkParameterConstraint [("x", 8); ("n", 1)] 10].

(** A point of that search space. *)
Definition obsf_demo : ObservationFeatures :=
  mkObservationFeatures [("x", PNum 4); ("n", PNum 3)] None.

(** A point that lacks the float parameter. *)
Definition obsf_partial : ObservationFeatures :=
  mkObservationFeatures [("n", PNum 3)] None.

(** The same search space with the integer parameter declared as a fidelity
    parameter with target value 5. *)
Definition ss_fidelity : SearchSpace :=
  mkSearchSpace
    [("x", mkParameter "x" FLOAT (RangeParameter 2 10 false) false PNone);
     ("n", mkParameter "n" INT (RangeParameter 0 5 false) true (PNum 5))]
    [].

(** A multi-objective over "a" (weight 2) and "b" (no weight), to
    minimize. *)
Definition objective_demo : Objective :=
  MultiObjective [(mkMetric "a", Some 2); (mkMetric "b", None)] true.


Definition outcomes_demo : list string := ["a"; "b"; "c"].

(** The outcome constraints [a <= 3] and [c >= 1]. *)
Definition outcome_constraints_demo : list OutcomeConstraint :=
  [mkOutcomeConstraint (mkMetric "a") LEQ 3 false;
   mkOutcomeConstraint (mkMetric "c") GEQ 1 false].

(** Pending features for the metric "y", and for a metric "z" that the
    model does not know, whose feature lacks the parameter "q". *)
Definition pending_demo : dict (list ObservationFeatures) :=
  [("y", [mkObservationFeatures [("p", PNum 1); ("q", PNum 4)] None;
          mkObservationFeatures [("q", PNum 5); ("p", PNum 2)] (Some 7%Z)]);
   ("z", [mkObservationFeatures [("p", PNum 0)] None])].

(** The default frontier evaluator over a routine that finds no point on
    the frontier. *)
Definition evaluator_demo : FrontierEvaluator unit :=
  get_default_frontier_evaluator (λ _ _ _ _ _ _ _, Ok ([], [])).

(** A model bridge without training data, with a multi-objective
    configuration attached and an empty transform chain. *)
Definition modelbridge_untrained : ModelBridge unit :=
  mkModelBridge outcomes_demo tt
    (Some (mkOptimizationConfig true objective_demo [] []))
    [] []
    (λ _, Ok []) (λ _, Ok ([], [])) (λ _, Ok ([], []))
    (λ config _, Ok config).

(** One observation of the three outcomes at the point of the scenario. *)
Definition observation_demo : Observation :=
  mkObservation obsf_demo
    (mkObservationData outcomes_demo [1; 2; 3]
       [[1; 0; 0]; [0; 1; 0]; [0; 0; 1]]).

(** The same model bridge with that observation as its training data;
    its transforms of features and data read the numbers off as they
    are. *)
Definition modelbridge_trained : ModelBridge unit :=
  mkModelBridge outcomes_demo tt
    (Some (mkOptimizationConfig true objective_demo [] []))
    [observation_demo] []
    (λ fs, forM (λ o, forM (λ kv, as_number kv.2) (parameters o)) fs)
    (λ ods, Ok (map means ods, map covariance ods))
    (λ ods, Ok (map means ods, map covariance ods))
    (λ config _, Ok config).

(** The aggregate and the integral, left as they come: they are not
    reached on an empty frontier. *)
Definition aggregate_id : Tensor1 → Tensor1 → (Tensor2 → Tensor2) * Tensor1 :=
  λ _ obj_t, (λ means, means, obj_t).

Definition integral_unavailable : Tensor1 → Tensor2 → result R :=
  λ _ _, Raise ValueError.

End Samples.

Import Samples.

(** ** Vocabulary of the statements on [modelbridge_utils] *)

Module UtilsSpec.

(** The bound of the last threshold declared for metric [name], if any. *)
Fixpoint threshold_of (objective_thresholds : list ObjectiveThreshold)
    (name : string) : option R :=
  match objective_thresholds with
  | [] => None
  | ot :: rest =>
      match threshold_of rest name with
      | Some v => Some v
      | None =>
          if String.eqb name (metric_name (ot_metric ot))
          then Some (ot_bound ot) else None
      end
  end.

(** The threshold values of the metrics of the outcome list, in the order
    of the outcome list; an outcome without a threshold contributes
    nothing. *)
Definition thresholds_in_outcome_order
    (objective_thresholds : list ObjectiveThreshold) (outcomes : list string)
  : list R :=
  omap (threshold_of objective_thresholds) outcomes.

(** [-1] for an objective to minimize, [+1] otherwise. *)
Definition sign (minimize : bool) : R := if minimize then -1 else 1.

(** The names of the metrics of an objective. *)
Definition objective_metric_names (objective : Objective) : list string :=
  match objective with
  | SingleObjective m _ => [metric_name m]
  | ScalarizedObjective mws _ => map (λ mw, metric_name mw.1) mws
  | MultiObjective mws _ => map (λ mw, metric_name mw.1) mws
  end.

(** [A[i] . y] *)
Definition dot (row y : list R) : R :=
  fold_right Rplus 0 (zip_with Rmult row y).

(** What an outcome constraint says of the outcome value [y_j]. *)
Definition outcome_constraint_holds (c : OutcomeConstraint) (y_j : R) : Prop :=
  match op c with
  | LEQ => y_j <= oc_bound c
  | GEQ => y_j >= oc_bound c
  end.

(** [rows] is the (n_pending x n_params) array of the values that the
    features [po_list] give to the parameters [param_names]. *)
Definition pending_matrix (param_names : list string)
    (po_list : list ObservationFeatures) (rows : list (list TParamValue))
  : Prop :=
  Forall2
    (λ po row,
       Forall2 (λ p v, dict_get p (parameters po) = Some v) param_names row)
    po_list rows.

End UtilsSpec.

Import UtilsSpec.

(** ** [ax/modelbridge/modelbridge_utils.py]: conversions to and from arrays *)

Module ModelbridgeArrays.

(** The body of the outer loop of [extract_parameter_constraints]: the
    bound goes to [b[i, 0]], then every coefficient to its column of
    [A[i]]. *)
Definition parameter_constraint_step (param_names : list string)
    (Ab : list (list R) * list (list R)) (ic : nat * ParameterConstraint)
  : result (list (list R) * list (list R)) :=
  let '(A, b) := Ab in
  let '(i, c) := ic in
  let b := alter (λ row, <[0%nat := pc_bound c]> row) i b in
  A ← foldM (λ A '(name, val),
               j ← index name param_names;
               Ok (alter (λ row, <[j := val]> row) i A))
            A (constraint_dict c);
  Ok (A, b).

(** [extract_parameter_constraints] *)
Definition extract_parameter_constraints
    (parameter_constraints : list ParameterConstraint)
    (param_names : list string)
  : result (option (list (list R) * list (list R))) :=
  match parameter_constraints with
  | _ :: _ =>
      let A := replicate (length parameter_constraints)
                         (replicate (length param_names) 0) in
      let b := replicate (length parameter_constraints) (replicate 1 0) in
      Ab ← foldM (parameter_constraint_step param_names) (A, b)
                 (enumerate parameter_constraints);
      Ok (Some Ab)
  | [] => Ok None
  end.

(** [observation_data_to_array] *)
Definition observation_data_to_array (observation_data : list ObservationData)
  : list (list R) * list (list (list R)) :=
  (map means observation_data, map covariance observation_data).

(** [observation_features_to_array] *)
Definition observation_features_to_array
    (parameters_ : list string) (obsf : list ObservationFeatures)
  : result (list (list TParamValue)) :=
  forM (λ of_, forM (λ p, dict_getitem p (parameters of_)) parameters_) obsf.

(** [dict(zip(keys, values))] *)
Definition dict_of_zip {V} (keys : list string) (values : list V) : dict V :=
  fold_left (λ d '(k, v), dict_set k v d) (zip keys values) [].

Section Candidates.

(** The metadata a model attaches to a candidate. *)
Variable TCandidateMetadata : Type.

(** [parse_observation_features].  The features record above carries the
    parameters and the trial index; the [metadata] attribute of each
    features object is returned beside it. *)
Definition parse_observation_features
    (X : list (list R)) (param_names : list string)
    (candidate_metadata : option (list TCandidateMetadata))
  : result (list (ObservationFeatures * option TCandidateMetadata)) :=
  match truthy candidate_metadata with
  | Some cm =>
      if negb (Nat.eqb (length cm) (length X)) then Raise ValueError
      else
        forM (λ '(i, x),
                match cm !! i with
                | Some m =>
                    Ok (mkObservationFeatures
                          (dict_of_zip param_names (PNum <$> x)) None,
                        Some m)
                | None => Raise IndexError
                end)
             (enumerate X)
  | None =>
      forM (λ '(i, x),
              Ok (mkObservationFeatures
                    (dict_of_zip param_names (PNum <$> x)) None,
                  None))
           (enumerate X)
  end.

End Candidates.

Arguments parse_observation_features {TCandidateMetadata}.

(** Modelled from the spec: the part of the transform protocol that acts on
    observation features (section 6). *)
Record FeaturesTransform : Type := mkFeaturesTransform {
  ft_transform_observation_features :
    list ObservationFeatures → result (list ObservationFeatures);
  ft_untransform_observation_features :
    list ObservationFeatures → result (list ObservationFeatures)
}.

(** [UnitX] as a member of a transform chain. *)
Definition UnitX_transform (self : UnitX.t) : FeaturesTransform :=
  mkFeaturesTransform (UnitX.transform_observation_features self)
                      (UnitX.untransform_observation_features self).

Section Callback.

(** Python's [float(s)] on a string: the number [s] spells, if any. *)
Variable float_of_str : string → option R.

(** [float(v)].  The numbers are the floats the source requires of these
    values; a Python [int] beyond the range of [float], on which [float()]
    raises [OverflowError], is outside the model. *)
Definition float_of (v : TParamValue) : result R :=
  match v with
  | PNum r => Ok r
  | PNone => Raise TypeError
  | PStr s =>
      match float_of_str s with
      | Some r => Ok r
      | None => Raise ValueError
      end
  end.

(** [transform_callback(param_names, transforms)(x)]: the inner function
    [_roundtrip_transform]. *)
Definition transform_callback
    (param_names : list string) (transforms : list (string * FeaturesTransform))
    (x : list R) : result (list R) :=
  parameters_ ←
    foldM (λ d '(i, p),
             match x !! i with
             | Some x_i => Ok (dict_set p (PNum x_i) d)
             | None => Raise IndexError
             end)
          [] (enumerate param_names);
  let observation_features := [mkObservationFeatures parameters_ None] in
  observation_features ←
    foldM (λ obsfs t, ft_untransform_observation_features t obsfs)
          observation_features (rev (map snd transforms));
  observation_features ←
    foldM (λ obsfs t, ft_transform_observation_features t obsfs)
          observation_features (map snd transforms);
  forM (λ p,
          match observation_features !! 0%nat with
          | Some obsf =>
              v ← dict_getitem p (parameters obsf);
              float_of v
          | None => Raise IndexError
          end)
       param_names.

End Callback.

(** The exceptions of [get_bounds_and_task]: those above and
    [NotImplementedError]. *)
Inductive bounds_exn : Set :=
| Builtin (e : exn)
| NotImplementedError.

Inductive bounds_result (A : Type) : Type :=
| Returns (a : A)
| Raises (e : bounds_exn).

Arguments Returns {A} a.
Arguments Raises {A} e.

(** The body of the loop of [get_bounds_and_task].  The keys of
    [target_fidelities] are the positions in [param_names], each visited
    once, so every entry is a new one and goes last. *)
Definition bounds_step (search_space : SearchSpace)
    (state : list (R * R) * list nat * list (nat * R)) (ip : nat * string)
  : bounds_result (list (R * R) * list nat * list (nat * R)) :=
  let '(bounds, task_features, target_fidelities) := state in
  let '(i, p_name) := ip in
  match dict_get p_name (ss_parameters search_space) with
  | None => Raises (Builtin KeyError)
  | Some p =>
      match class p with
      | RangeParameter lower upper log_scale =>
          if log_scale then Raises (Builtin ValueError)
          else
            let bounds := bounds ++ [(lower, upper)] in
            let task_features :=
              match parameter_type p with
              | INT => task_features ++ [i]
              | _ => task_features
              end in
            if is_fidelity p then
              match target_value p with
              | PNone => Raises (Builtin ValueError)
              | PStr _ => Raises NotImplementedError
              | PNum r =>
                  Returns (bounds, task_features, target_fidelities ++ [(i, r)])
              end
            else Returns (bounds, task_features, target_fidelities)
      | _ => Raises (Builtin ValueError)
      end
  end.

Fixpoint bounds_loop (search_space : SearchSpace)
    (state : list (R * R) * list nat * list (nat * R))
    (items : list (nat * string))
  : bounds_result (list (R * R) * list nat * list (nat * R)) :=
  match items with
  | [] => Returns state
  | ip :: items' =>
      match bounds_step search_space state ip with
      | Returns state' => bounds_loop search_space state' items'
      | Raises e => Raises e
      end
  end.

(** [get_bounds_and_task] *)
Definition get_bounds_and_task
    (search_space : SearchSpace) (param_names : list string)
  : bounds_result (list (R * R) * list nat * list (nat * R)) :=
  bounds_loop search_space ([], [], []) (enumerate param_names).

(** [d[k] = v] on a dictionary with integer keys. *)
Fixpoint int_dict_set {V} (k : nat) (v : V) (d : list (nat * V))
  : list (nat * V) :=
  match d with
  | [] => [(k, v)]
  | (k', v') :: d' =>
      if Nat.eqb k k' then (k, v) :: d' else (k', v') :: int_dict_set k v d'
  end.

Section FixedFeatures.

(** Python's [float(s)] on a string, as above. *)
Variable float_of_str : string → option R.

(** [get_fixed_features] *)
Definition get_fixed_features
    (fixed_features : ObservationFeatures) (param_names : list string)
  : result (option (list (nat * R))) :=
  fixed_features_dict ←
    foldM (λ d '(p_name, val),
             val_ ← float_of float_of_str val;
             i ← index p_name param_names;
             Ok (int_dict_set i val_ d))
          [] (parameters fixed_features);
  Ok (match fixed_features_dict with
      | _ :: _ => Some fixed_features_dict
      | [] => None
      end).

End FixedFeatures.

#[global] Arguments parameter_constraint_step : simpl never.
#[global] Arguments bounds_step : simpl never.

End ModelbridgeArrays.

Import ModelbridgeArrays.

(** ** [ax/modelbridge/transforms/unit_x.py] in binary64 *)

(** The numbers [unit_x.py] computes with are CPython floats: IEEE 754
    binary64, every operation rounded to nearest, ties to even, which is
    what the kernel's floats are.  This module has the data model and the
    functions of [unit_x.py] a second time, with the same names and the
    same structure, on those numbers.  [+], [-] and [*] on floats never
    raise (they overflow to an infinity); [/] raises [ZeroDivisionError]
    when the divisor compares equal to zero.  A Python [int] among the
    values is read as the float it converts to. *)

Module Binary64.

(** [a / b] *)
Definition truediv (a b : float) : result float :=
  if PrimFloat.eqb b 0%float then Raise ZeroDivisionError
  else Ok (PrimFloat.div a b).

Inductive TParamValue : Type :=
| PNone
| PStr (s : string)
| PNum (x : float).

Definition as_number (v : TParamValue) : result float :=
  match v with
  | PNum x => Ok x
  | _ => Raise TypeError
  end.

Definition is_not_none (v : TParamValue) : bool :=
  match v with PNone => false | _ => true end.

Inductive ParameterClass : Type :=
| RangeParameter (lower upper : float) (log_scale : bool)
| ChoiceParameter (values : list TParamValue)
| FixedParameter (value : TParamValue).

Record Param : Type := mkParameter {
  name : string;
  parameter_type : ParameterType;
  class : ParameterClass;
  is_fidelity : bool;
  target_value : TParamValue
}.

Definition update_range (p : Param) (lower upper : float) : Param :=
  match class p with
  | RangeParameter _ _ ls =>
      mkParameter (name p) (parameter_type p) (RangeParameter lower upper ls)
        (is_fidelity p) (target_value p)
  | _ => p
  end.

Definition set_target_value (p : Param) (v : TParamValue) : Param :=
  mkParameter (name p) (parameter_type p) (class p) (is_fidelity p) v.

Record ParameterConstraint : Type := mkParameterConstraint {
  constraint_dict : dict float;
  pc_bound : float
}.

Record SearchSpace : Type := mkSearchSpace {
  ss_parameters : dict Param;
  parameter_constraints : list ParameterConstraint
}.

Definition set_parameter_constraints
    (ss : SearchSpace) (cs : list ParameterConstraint) : SearchSpace :=
  mkSearchSpace (ss_parameters ss) cs.

Record ObservationFeatures : Type := mkObservationFeatures {
  parameters : dict TParamValue;
  trial_index : option Z
}.

Definition set_parameter
    (obsf : ObservationFeatures) (k : string) (v : TParamValue)
  : ObservationFeatures :=
  mkObservationFeatures (dict_set k v (parameters obsf)) (trial_index obsf).

(** Modelled from the spec: [sum(coef * value) <= bound] (section 3), the
    sum and the comparison computed on floats, from the left. *)
Definition weighted_sum (c : ParameterConstraint) (x : dict TParamValue)
  : result float :=
  foldM (λ acc '(p_name, w),
           v ← dict_getitem p_name x;
           r ← as_number v;
           Ok (PrimFloat.add acc (PrimFloat.mul w r)))
        0%float (constraint_dict c).

Definition satisfied (c : ParameterConstraint) (x : dict TParamValue)
  : result bool :=
  s ← weighted_sum c x;
  Ok (PrimFloat.leb s (pc_bound c)).

(** [normalize_value] *)
Definition normalize_value (value : TParamValue) (bounds : float * float)
  : result float :=
  let '(lower, upper) := bounds in
  v ← as_number value;
  truediv (PrimFloat.sub v lower) (PrimFloat.sub upper lower).

Module UnitX.

Record t : Type := mk { bounds : dict (float * float) }.

(** [UnitX.__init__] *)
Definition init (search_space : SearchSpace) : t :=
  mk (fold_left
        (λ acc '(p_name, p),
           match class p, parameter_type p with
           | RangeParameter lower upper false, FLOAT =>
               dict_set p_name (lower, upper) acc
           | _, _ => acc
           end)
        (ss_parameters search_space) []).

Definition transform_step
    (obsf : ObservationFeatures) (b : string * (float * float))
  : result ObservationFeatures :=
  let '(p_name, (l, u)) := b in
  match dict_get p_name (parameters obsf) with
  | Some param =>
      v ← normalize_value param (l, u);
      Ok (set_parameter obsf p_name (PNum v))
  | None => Ok obsf
  end.

(** [UnitX.transform_observation_features] *)
Definition transform_observation_features
    (self : t) (observation_features : list ObservationFeatures)
  : result (list ObservationFeatures) :=
  forM (λ obsf, foldM transform_step obsf (bounds self)) observation_features.

Definition untransform_step
    (obsf : ObservationFeatures) (b : string * (float * float))
  : result ObservationFeatures :=
  let '(p_name, (l, u)) := b in
  param ← dict_getitem p_name (parameters obsf);
  v ← as_number param;
  Ok (set_parameter obsf p_name
        (PNum (PrimFloat.add (PrimFloat.mul v (PrimFloat.sub u l)) l))).

(** [UnitX.untransform_observation_features] *)
Definition untransform_observation_features
    (self : t) (observation_features : list ObservationFeatures)
  : result (list ObservationFeatures) :=
  forM (λ obsf, foldM untransform_step obsf (bounds self)) observation_features.

Definition transform_parameter (self : t) (p_name : string) (p : Param)
  : result Param :=
  p1 ← match class p with
       | RangeParameter lower upper _ =>
           if dict_contains p_name (bounds self) then
             bl ← dict_getitem p_name (bounds self);
             lo ← normalize_value (PNum lower) bl;
             bu ← dict_getitem p_name (bounds self);
             up ← normalize_value (PNum upper) bu;
             Ok (update_range p lo up)
           else Ok p
       | _ => Ok p
       end;
  if is_not_none (target_value p1) then
    b ← dict_getitem p_name (bounds self);
    tv ← normalize_value (target_value p1) b;
    Ok (set_target_value p1 (PNum tv))
  else Ok p1.

Definition transform_constraint (self : t) (c : ParameterConstraint)
  : ParameterConstraint :=
  let '(cd, bound) :=
    fold_left
      (λ '(cd, bound) '(p_name, w),
         match dict_get p_name (bounds self) with
         | Some (l, u) =>
             (dict_set p_name (PrimFloat.mul w (PrimFloat.sub u l)) cd,
              PrimFloat.sub bound (PrimFloat.mul w l))
         | None => (dict_set p_name w cd, bound)
         end)
      (constraint_dict c) ([], pc_bound c) in
  mkParameterConstraint cd bound.

(** [UnitX.transform_search_space] *)
Definition transform_search_space (self : t) (search_space : SearchSpace)
  : result SearchSpace :=
  ps ← forM (λ '(p_name, p),
               p' ← transform_parameter self p_name p; Ok (p_name, p'))
            (ss_parameters search_space);
  let search_space :=
    mkSearchSpace ps (parameter_constraints search_space) in
  let new_constraints :=
    map (transform_constraint self) (parameter_constraints search_space) in
  Ok (set_parameter_constraints search_space new_constraints).

End UnitX.

(** The round-trip function of [transform_callback] with one [UnitX] as
    the chain: the features of [x], the inverse transform, the forward
    transform, and the values read back in the order of the names. *)
Definition roundtrip_transform
    (param_names : list string) (self : UnitX.t) (x : list float)
  : result (list float) :=
  parameters_ ←
    foldM (λ d '(i, p),
             match x !! i with
             | Some x_i => Ok (dict_set p (PNum x_i) d)
             | None => Raise IndexError
             end)
          [] (enumerate param_names);
  let observation_features := [mkObservationFeatures parameters_ None] in
  observation_features ←
    UnitX.untransform_observation_features self observation_features;
  observation_features ←
    UnitX.transform_observation_features self observation_features;
  forM (λ p,
          match observation_features !! 0%nat with
          | Some obsf =>
              v ← dict_getitem p (parameters obsf);
              match v with
              | PNum r => Ok r
              | PNone => Raise TypeError
              | PStr _ => Raise ValueError
              end
          | None => Raise IndexError
          end)
       param_names.

(** *** The exact reading of a float *)

(** The real number a finite float stands for: [m * 2^e] with its sign.
    Zeros map to 0; infinities and NaN stand for no number and are not
    what the statements below apply this to. *)
Definition to_R (x : float) : R :=
  match FloatOps.Prim2SF x with
  | SpecFloat.S754_finite s m e =>
      let v := if (0 <=? e)%Z then IZR (Z.pos m * 2 ^ e)
               else IZR (Z.pos m) / IZR (2 ^ (- e)) in
      if s then - v else v
  | _ => 0
  end.

(** A value, a point and a constraint of this module as the ones of the
    exact reading. *)
Definition value_to_R (v : TParamValue) : Py.TParamValue :=
  match v with
  | PNone => Py.PNone
  | PStr s => Py.PStr s
  | PNum x => Py.PNum (to_R x)
  end.

Definition point_to_R (x : dict TParamValue) : dict Py.TParamValue :=
  map (λ kv, (kv.1, value_to_R kv.2)) x.

Definition constraint_to_R (c : ParameterConstraint)
  : Core.ParameterConstraint :=
  Core.mkParameterConstraint
    (map (λ kw, (kw.1, to_R kw.2)) (constraint_dict c)) (to_R (pc_bound c)).

(** *** Sample inputs *)

(** A search space with one float parameter "x" bounded by [0.1, 0.3] and
    the constraint [1 * x <= 0.2]. *)
Definition ss_tenths : SearchSpace :=
  mkSearchSpace
    [("x", mkParameter "x" FLOAT
             (RangeParameter 0x1.999999999999ap-4 0x1.3333333333333p-2 false)
             false PNone)]
    [mkParameterConstraint [("x", 1%float)] 0x1.999999999999ap-3].

(** The point [x = 0.2], on the boundary of that constraint. *)
Definition obsf_boundary : ObservationFeatures :=
  mkObservationFeatures [("x", PNum 0x1.999999999999ap-3)] None.

(** A search space with one float parameter "x" bounded by [0.1, 0.7]. *)
Definition ss_sevenths : SearchSpace :=
  mkSearchSpace
    [("x", mkParameter "x" FLOAT
             (RangeParameter 0x1.999999999999ap-4 0x1.6666666666666p-1 false)
             false PNone)]
    [].

End Binary64.
(** ** Vocabulary of the further statements *)

Module MoreSpec.

(** The bounds [UnitX.__init__] records for a parameter: those of a float
    range parameter that is not on a log scale, nothing otherwise. *)
Definition eligible_bounds (p : Param) : option (R * R) :=
  match class p, parameter_type p with
  | RangeParameter lower upper false, FLOAT => Some (lower, upper)
  | _, _ => None
  end.


(** A (k x k) matrix. *)
Definition square (k : nat) (m : list (list R)) : Prop :=
  length m = k ∧ Forall (λ row, length row = k) m.

(** The arrays [array_to_observation_data] accepts for a list of outcomes:
    [cov] has an entry for every row of [f], every row of [f] has one mean
    per outcome, and the covariance that goes with it is square of that
    size. *)
Definition conforming
    (outcomes : list string) (f : list (list R)) (cov : list (list (list R)))
  : Prop :=
  (length f ≤ length cov)%nat
  ∧ ∀ i f_i cov_i, f !! i = Some f_i → cov !! i = Some cov_i →
      length f_i = length outcomes ∧ square (length outcomes) cov_i.

(** A transform whose forward direction undoes its inverse: whenever the
    inverse returns, the forward direction applied to its result returns
    what the inverse was given. *)
Definition lawful (t : FeaturesTransform) : Prop :=
  ∀ fs fs', ft_untransform_observation_features t fs = Ok fs' →
            ft_transform_observation_features t fs' = Ok fs.

(** Two transforms that follow the protocol and compute nothing that
    rounds.  [Negate p] flips the sign of the parameter [p], in both
    directions; it raises [KeyError] on a feature that lacks [p] and
    [TypeError] on a value that is not a number. *)
Definition negate_step (p : string) (o : ObservationFeatures)
  : result ObservationFeatures :=
  v ← dict_getitem p (parameters o);
  r ← as_number v;
  Ok (set_parameter o p (PNum (- r))).

Definition Negate (p : string) : FeaturesTransform :=
  mkFeaturesTransform (forM (negate_step p)) (forM (negate_step p)).

(** [Swap p q] exchanges the values of the parameters [p] and [q], in both
    directions; it raises [KeyError] on a feature that lacks one of
    them. *)
Definition swap_step (p q : string) (o : ObservationFeatures)
  : result ObservationFeatures :=
  a ← dict_getitem p (parameters o);
  b ← dict_getitem q (parameters o);
  Ok (set_parameter (set_parameter o p b) q a).

Definition Swap (p q : string) : FeaturesTransform :=
  mkFeaturesTransform (forM (swap_step p q)) (forM (swap_step p q)).

(** The same objective with the opposite minimize flag. *)
Definition flip_minimize (objective : Objective) : Objective :=
  match objective with
  | SingleObjective m mn => SingleObjective m (negb mn)
  | ScalarizedObjective mws mn => ScalarizedObjective mws (negb mn)
  | MultiObjective mws mn => MultiObjective mws (negb mn)
  end.

(** [isinstance(objective, MultiObjective)] *)
Definition is_MultiObjective (objective : Objective) : bool :=
  match objective with MultiObjective _ _ => true | _ => false end.

(** A parameter [get_bounds_and_task] accepts: a range parameter that is
    not on a log scale and, if it is a fidelity parameter, has a number as
    its target value. *)
Definition supported (p : Param) : Prop :=
  (∃ l u, class p = RangeParameter l u false)
  ∧ (is_fidelity p = true → ∃ r, target_value p = PNum r).

(** The bounds of a range parameter. *)
Definition range_bounds (p : Param) : R * R :=
  match class p with
  | RangeParameter l u _ => (l, u)
  | _ => (0, 0)
  end.

(** The positions, counted from [k], of the integer parameters. *)
Fixpoint task_indices (k : nat) (ps : list Param) : list nat :=
  match ps with
  | [] => []
  | p :: ps' =>
      match parameter_type p with
      | INT => k :: task_indices (S k) ps'
      | _ => task_indices (S k) ps'
      end
  end.

(** The positions, counted from [k], of the fidelity parameters, each with
    its target value. *)
Fixpoint fidelity_targets (k : nat) (ps : list Param) : list (nat * R) :=
  match ps with
  | [] => []
  | p :: ps' =>
      match is_fidelity p, target_value p with
      | true, PNum r => (k, r) :: fidelity_targets (S k) ps'
      | _, _ => fidelity_targets (S k) ps'
      end
  end.

End MoreSpec.

Import MoreSpec.

(** * Properties *)

(** ** Dictionaries *)

Section DictFacts.
Context {V : Type}.
Implicit Types (d : dict V) (k : string) (v : V).

Lemma dict_get_set_eq d k v : dict_get k (dict_set k v d) = Some v.
Proof.
  induction d as [|[k' v'] d IH]; simpl.
  - by rewrite String.eqb_refl.
  - destruct (String.eqb k k') eqn:E; simpl; by rewrite ?String.eqb_refl, ?E.
Qed.

Lemma dict_get_set_ne d k k' v :
  k ≠ k' → dict_get k' (dict_set k v d) = dict_get k' d.
Proof.
  intros Hne. assert (String.eqb k' k = false) as Hk by by apply String.eqb_neq.
  induction d as [|[k0 v0] d IH]; simpl.
  - by rewrite Hk.
  - destruct (String.eqb k k0) eqn:E; simpl.
    + apply String.eqb_eq in E as <-. by rewrite Hk.
    + by rewrite IH.
Qed.

Lemma dict_set_same d k v : dict_get k d = Some v → dict_set k v d = d.
Proof.
  induction d as [|[k' v'] d IH]; simpl; [done|].
  destruct (String.eqb k k') eqn:E.
  - apply String.eqb_eq in E as <-. by intros [= ->].
  - intros H. by rewrite IH.
Qed.

Lemma dict_set_set d k v1 v2 :
  dict_set k v2 (dict_set k v1 d) = dict_set k v2 d.
Proof.
  induction d as [|[k' v'] d IH]; simpl.
  - by rewrite String.eqb_refl.
  - destruct (String.eqb k k') eqn:E; simpl; by rewrite ?String.eqb_refl, ?E, ?IH.
Qed.

Lemma dict_set_comm d k k' v v' :
  k ≠ k' → is_Some (dict_get k d) →
  dict_set k v (dict_set k' v' d) = dict_set k' v' (dict_set k v d).
Proof.
  intros Hne. assert (String.eqb k k' = false) as Hk by by apply String.eqb_neq.
  assert (String.eqb k' k = false) as Hk' by by apply String.eqb_neq.
  induction d as [|[k0 v0] d IH]; simpl; [by intros [? [=]]|].
  destruct (String.eqb k k0) eqn:E.
  - apply String.eqb_eq in E as <-. intros _.
    rewrite Hk'. simpl. by rewrite String.eqb_refl, Hk'.
  - intros Hd. destruct (String.eqb k' k0) eqn:E'; simpl; rewrite ?E, ?E', ?Hk; [done|].
    by rewrite IH.
Qed.

Lemma dict_get_None_keys d k : dict_get k d = None ↔ k ∉ dict_keys d.
Proof.
  induction d as [|[k' v'] d IH]; simpl.
  - split; [intros _; apply not_elem_of_nil|done].
  - rewrite not_elem_of_cons. destruct (String.eqb k k') eqn:E.
    + apply String.eqb_eq in E. split; [done|]. by intros [? _].
    + apply String.eqb_neq in E. rewrite IH. tauto.
Qed.

Lemma dict_keys_set_present d k v :
  is_Some (dict_get k d) → dict_keys (dict_set k v d) = dict_keys d.
Proof.
  induction d as [|[k' v'] d IH]; simpl; [by intros [? [=]]|].
  destruct (String.eqb k k') eqn:E; simpl.
  - by apply String.eqb_eq in E as <-.
  - intros H. by rewrite IH.
Qed.

Lemma dict_keys_set_absent d k v :
  dict_get k d = None → dict_keys (dict_set k v d) = dict_keys d ++ [k].
Proof.
  induction d as [|[k' v'] d IH]; simpl; [done|].
  destruct (String.eqb k k') eqn:E; simpl; [done|].
  intros H. by rewrite IH.
Qed.

Lemma dict_set_wf d k v : dict_wf d → dict_wf (dict_set k v d).
Proof.
  unfold dict_wf. intros Hd. destruct (dict_get k d) eqn:E.
  - by rewrite dict_keys_set_present.
  - rewrite dict_keys_set_absent by done.
    apply NoDup_app. split_and!; [done| |apply NoDup_singleton].
    intros x Hx ->%list_elem_of_singleton. by apply dict_get_None_keys in E.
Qed.

Lemma dict_getitem_Some d k v : dict_get k d = Some v → dict_getitem k d = Ok v.
Proof. unfold dict_getitem. by intros ->. Qed.

Lemma dict_wf_cons d k v :
  dict_wf ((k, v) :: d) ↔ (k ∉ dict_keys d) ∧ dict_wf d.
Proof. apply NoDup_cons. Qed.

Lemma elem_dict_keys d k v : (k, v) ∈ d → k ∈ dict_keys d.
Proof. intros. apply list_elem_of_fmap. by exists (k, v). Qed.

End DictFacts.
(** ** Evaluation on concrete inputs *)

(** Unfold everything but the arithmetic of the reals, then settle the
    comparisons that are left. *)
Ltac py_compute :=
  cbv -[IZR Rplus Rminus Rmult Rdiv Rinv Ropp Req_dec_T Rle Rlt Rge Rgt].

Ltac py_decide :=
  repeat match goal with
  | |- context [Req_dec_T ?a ?b] =>
      let He := fresh "He" in
      let Hn := fresh "Hn" in
      destruct (Req_dec_T a b) as [He|Hn];
      [ try (exfalso; lra) | try (exfalso; apply Hn; lra) ]
  end.

(** Decidable facts on closed lists of names. *)
Ltac by_decide := apply (bool_decide_unpack _); by vm_compute.

Ltac elem_cases H :=
  repeat (apply elem_of_cons in H as [->|H]);
  [..|by apply elem_of_nil in H].

Ltac elem_cases_eq H Heq :=
  repeat (apply elem_of_cons in H as [Heq|H]);
  [..|by apply elem_of_nil in H].

Ltac py_eval := py_compute; py_decide; repeat f_equal; try lra.

(** ** The exception monad *)

Lemma bind_Ok {A B} (m : result A) (k : A → result B) b :
  (m ≫= k) = Ok b ↔ ∃ a, m = Ok a ∧ k a = Ok b.
Proof.
  destruct m; simpl; split; eauto.
  - by intros (? & [= ->] & ?).
  - done.
  - by intros (? & [=] & ?).
Qed.

Lemma forM_Ok_Forall2 {A B} (f : A → result B) l l' :
  forM f l = Ok l' ↔ Forall2 (λ a b, f a = Ok b) l l'.
Proof.
  revert l'. induction l as [|a l IH]; intros l'; simpl.
  - split; [intros [= <-]; constructor|by inversion 1].
  - split.
    + intros (b & Hb & (bs & Hbs & [= <-])%bind_Ok)%bind_Ok.
      constructor; [done|by apply IH].
    + inversion 1 as [|? b ? bs Hb Hbs]; subst.
      apply IH in Hbs. by rewrite Hb, Hbs.
Qed.

Lemma foldM_ext {A B} (f g : B → A → result B) b l :
  (∀ b a, f b a = g b a) → foldM f b l = foldM g b l.
Proof.
  intros Hfg. revert b. induction l as [|a l IH]; intros b; simpl; [done|].
  rewrite Hfg. destruct (g b a); simpl; auto.
Qed.

(** ** UnitX *)
Module UnitXFacts.
Import UnitX UnitXSpec.

Implicit Types (o : ObservationFeatures) (bs : dict (R * R)) (k : string).

Lemma set_parameter_same o k v :
  dict_get k (parameters o) = Some v → set_parameter o k v = o.
Proof. destruct o as [ps ti]. unfold set_parameter; simpl. by intros ->%dict_set_same. Qed.

Lemma set_parameter_set o k v1 v2 :
  set_parameter (set_parameter o k v1) k v2 = set_parameter o k v2.
Proof. unfold set_parameter; simpl. by rewrite dict_set_set. Qed.

Lemma set_parameter_comm o k k' v v' :
  k ≠ k' → is_Some (dict_get k (parameters o)) →
  set_parameter (set_parameter o k' v') k v
  = set_parameter (set_parameter o k v) k' v'.
Proof. intros. unfold set_parameter; simpl. by rewrite dict_set_comm. Qed.

(** Each step of the inner loops reads and writes one key only. *)
Lemma transform_step_Some o k l u r :
  dict_get k (parameters o) = Some (PNum r) → u - l ≠ 0 →
  transform_step o (k, (l, u)) = Ok (set_parameter o k (PNum ((r - l) / (u - l)))).
Proof.
  intros Hk Hul. unfold transform_step. rewrite Hk. simpl.
  by destruct (Req_dec_T (u - l) 0).
Qed.

Lemma transform_step_None o k b :
  dict_get k (parameters o) = None → transform_step o (k, b) = Ok o.
Proof. intros Hk. destruct b. unfold transform_step. by rewrite Hk. Qed.

Lemma untransform_step_Some o k l u r :
  dict_get k (parameters o) = Some (PNum r) →
  untransform_step o (k, (l, u)) = Ok (set_parameter o k (PNum (r * (u - l) + l))).
Proof. intros Hk. unfold untransform_step, dict_getitem. by rewrite Hk. Qed.

Lemma untransform_step_None o k b :
  dict_get k (parameters o) = None → untransform_step o (k, b) = Raise KeyError.
Proof. intros Hk. destruct b. unfold untransform_step, dict_getitem. by rewrite Hk. Qed.

Lemma transform_step_get o o' k b k' :
  transform_step o (k, b) = Ok o' → k ≠ k' →
  dict_get k' (parameters o') = dict_get k' (parameters o).
Proof.
  destruct b as [l u]. unfold transform_step.
  destruct (dict_get k (parameters o)) as [param|]; [|by intros [= <-]].
  intros (v & _ & [= <-])%bind_Ok Hne. simpl. by apply dict_get_set_ne.
Qed.

Lemma untransform_step_get o o' k b k' :
  untransform_step o (k, b) = Ok o' → k ≠ k' →
  dict_get k' (parameters o') = dict_get k' (parameters o).
Proof.
  destruct b as [l u]. unfold untransform_step.
  intros (p & _ & (v & _ & [= <-])%bind_Ok)%bind_Ok Hne. simpl.
  by apply dict_get_set_ne.
Qed.

Lemma transform_frame bs o o' k :
  foldM transform_step o bs = Ok o' → dict_get k bs = None →
  dict_get k (parameters o') = dict_get k (parameters o).
Proof.
  revert o. induction bs as [|[k1 b] bs IH]; intros o; cbn [foldM dict_get].
  - by intros [= <-].
  - intros (o1 & H1 & Hrest)%bind_Ok. destruct (String.eqb k k1) eqn:E; [done|].
    apply String.eqb_neq in E. intros Hk.
    rewrite (IH _ Hrest Hk). eapply transform_step_get; eauto.
Qed.

Lemma untransform_step_comm o k v k1 b :
  k ≠ k1 → is_Some (dict_get k (parameters o)) →
  untransform_step (set_parameter o k v) (k1, b)
  = (o' ← untransform_step o (k1, b); Ok (set_parameter o' k v)).
Proof.
  intros Hne Hk. destruct b as [l u]. unfold untransform_step, dict_getitem. simpl.
  rewrite dict_get_set_ne by done.
  destruct (dict_get k1 (parameters o)) as [p|]; simpl; [|done].
  destruct (as_number p); simpl; [|done].
  by rewrite (set_parameter_comm o k k1).
Qed.

Lemma foldM_untransform_comm bs o k v :
  k ∉ dict_keys bs → is_Some (dict_get k (parameters o)) →
  foldM untransform_step (set_parameter o k v) bs
  = (o' ← foldM untransform_step o bs; Ok (set_parameter o' k v)).
Proof.
  revert o. induction bs as [|[k1 b] bs IH]; intros o; [done|].
  intros [Hne Hk]%not_elem_of_cons Ho. cbn [foldM].
  rewrite untransform_step_comm by done.
  destruct (untransform_step o (k1, b)) as [o1|e] eqn:E1; simpl; [|done].
  apply IH; [done|]. by rewrite (untransform_step_get _ _ _ _ _ E1).
Qed.

Lemma well_ordered_cons k l u bs :
  well_ordered ((k, (l, u)) :: bs) → u - l ≠ 0 ∧ well_ordered bs.
Proof.
  intros H. split.
  - specialize (H k l u ltac:(by left)). lra.
  - intros k' l' u' Hin. apply (H k' l' u'). by right.
Qed.

Lemma numeric_set bs o k b r :
  numeric ((k, b) :: bs) o → numeric bs (set_parameter o k (PNum r)).
Proof.
  intros Hnum k' b' v' Hin'. simpl. destruct (decide (k = k')) as [<-|Hne'].
  - rewrite dict_get_set_eq. intros [= <-]. eauto.
  - rewrite dict_get_set_ne by done. apply (Hnum k' b'). by right.
Qed.

Lemma roundtrip_feature bs o :
  dict_wf bs → well_ordered bs → complete bs o →
  ∃ o', foldM transform_step o bs = Ok o'
        ∧ foldM untransform_step o' bs = Ok o
        ∧ ∀ k l u r, (k, (l, u)) ∈ bs →
            dict_get k (parameters o) = Some (PNum r) →
            dict_get k (parameters o') = Some (PNum ((r - l) / (u - l))).
Proof.
  revert o. induction bs as [|[k1 [l u]] bs IH]; intros o Hwf Hlu Hc.
  { exists o. split_and!; [done..|]. by intros ???? ?%elem_of_nil. }
  apply dict_wf_cons in Hwf as [Hk1 Hwf].
  apply well_ordered_cons in Hlu as [Hul Hlu].
  destruct (Hc k1 (l, u)) as [r Hr]; [by left|].
  set (o1 := set_parameter o k1 (PNum ((r - l) / (u - l)))).
  assert (∀ k, k ≠ k1 → dict_get k (parameters o1) = dict_get k (parameters o))
    as Hframe by (intros; simpl; by rewrite dict_get_set_ne).
  destruct (IH o1) as (o' & Ht & Hu & Hval); [done..| |].
  { intros k b Hin. destruct (Hc k b) as [r' Hr']; [by right|].
    exists r'. rewrite Hframe; [done|]. intros ->.
    apply Hk1. by eapply elem_dict_keys. }
  assert (dict_get k1 (parameters o') = Some (PNum ((r - l) / (u - l)))) as Hk1'.
  { erewrite transform_frame; [|done|by apply dict_get_None_keys].
    simpl. apply dict_get_set_eq. }
  exists o'. cbn [foldM]. split_and!.
  - by rewrite (transform_step_Some _ _ _ _ r).
  - rewrite (untransform_step_Some _ _ _ _ _ Hk1'). simpl.
    replace ((r - l) / (u - l) * (u - l) + l) with r by (field; done).
    rewrite foldM_untransform_comm, Hu; [|done|by rewrite Hk1']. simpl.
    unfold o1. rewrite set_parameter_set. by rewrite set_parameter_same.
  - intros k l' u' r' [[= -> -> ->]|Hin]%elem_of_cons Hget.
    + rewrite Hr in Hget. by injection Hget as <-.
    + apply (Hval k l' u' r' Hin). rewrite Hframe; [done|]. intros ->.
      apply Hk1. by eapply elem_dict_keys.
Qed.

Lemma init_wf search_space : dict_wf (bounds (init search_space)).
Proof.
  unfold init; simpl.
  assert (∀ l (acc : dict (R * R)), dict_wf acc →
    dict_wf (fold_left
      (λ acc '(p_name, p),
         match class p, parameter_type p with
         | RangeParameter lower upper false, FLOAT =>
             dict_set p_name (lower, upper) acc
         | _, _ => acc
         end) l acc)) as H.
  { induction l as [|[k p] l IH]; intros acc Hacc; simpl; [done|].
    apply IH. destruct (class p) as [lo up [|]| |], (parameter_type p);
      auto using dict_set_wf. }
  apply H. apply NoDup_nil_2.
Qed.

Lemma transform_feature_total bs o :
  well_ordered bs → numeric bs o → ∃ o', foldM transform_step o bs = Ok o'.
Proof.
  revert o. induction bs as [|[k1 [l u]] bs IH]; intros o Hlu Hnum; [by exists o|].
  apply well_ordered_cons in Hlu as [Hul Hlu]. cbn [foldM].
  destruct (dict_get k1 (parameters o)) as [v|] eqn:E.
  - destruct (Hnum k1 (l, u) v) as [r ->]; [by left|done|].
    rewrite (transform_step_Some _ _ _ _ r) by done. simpl.
    apply IH; [done|]. by eapply numeric_set.
  - rewrite transform_step_None by done. simpl. apply IH; [done|].
    intros k b v Hin. apply (Hnum k b). by right.
Qed.

Lemma untransform_feature_missing bs o :
  numeric bs o →
  (∃ k b, (k, b) ∈ bs ∧ dict_get k (parameters o) = None) →
  foldM untransform_step o bs = Raise KeyError.
Proof.
  revert o. induction bs as [|[k1 [l u]] bs IH]; intros o Hnum (k & b & Hin & Hk).
  { by apply elem_of_nil in Hin. }
  cbn [foldM]. destruct (dict_get k1 (parameters o)) as [v|] eqn:E.
  - destruct (Hnum k1 (l, u) v) as [r ->]; [by left|done|].
    assert (k1 ≠ k) as Hne by (intros ->; congruence).
    apply elem_of_cons in Hin as [[= ? _]|Hin]; [done|].
    rewrite (untransform_step_Some _ _ _ _ r) by done. simpl.
    apply IH; [by eapply numeric_set|].
    exists k, b. split; [done|]. simpl. by rewrite dict_get_set_ne.
  - by rewrite untransform_step_None.
Qed.

Lemma untransform_feature_result bs o :
  numeric bs o →
  foldM untransform_step o bs = Raise KeyError
  ∨ ∃ o', foldM untransform_step o bs = Ok o'.
Proof.
  revert o. induction bs as [|[k1 [l u]] bs IH]; intros o Hnum; [right; by exists o|].
  cbn [foldM]. destruct (dict_get k1 (parameters o)) as [v|] eqn:E.
  - destruct (Hnum k1 (l, u) v) as [r ->]; [by left|done|].
    rewrite (untransform_step_Some _ _ _ _ r) by done. simpl.
    apply IH. by eapply numeric_set.
  - left. by rewrite untransform_step_None.
Qed.

Lemma forM_first_error {A B} (f : A → result B) l e :
  (∀ x, x ∈ l → f x = Raise e ∨ ∃ b, f x = Ok b) →
  (∃ x, x ∈ l ∧ f x = Raise e) →
  forM f l = Raise e.
Proof.
  induction l as [|a l IH]; intros Hall (x & Hin & Hx).
  { by apply elem_of_nil in Hin. }
  simpl. destruct (Hall a) as [->|[b Hb]]; [by left|done|]. rewrite Hb. simpl.
  rewrite IH; [done| |].
  - intros y Hy. apply Hall. by right.
  - apply elem_of_cons in Hin as [->|Hin]; [congruence|eauto].
Qed.


(** *** Round trip of observation features *)

(** C2.  For a transform built by [UnitX.__init__] whose bounds are well
    ordered, and observation features that carry a number for every
    parameter the transform normalizes: the forward transform succeeds and
    sends a value [v] of a parameter bounded by [(l, u)] to
    [(v - l) / (u - l)], and the inverse transform applied to its result
    returns the original features, every value [v] exactly, over the reals.
    A parameter the transform does not normalize keeps its value whenever
    the forward transform returns. *)
Theorem unitx_round_trip :
  (∀ search_space observation_features,
     let self := init search_space in
     well_ordered (bounds self) →
     Forall (complete (bounds self)) observation_features →
     ∃ transformed,
       transform_observation_features self observation_features = Ok transformed
       ∧ untransform_observation_features self transformed
         = Ok observation_features
       ∧ Forall2
           (λ o o', ∀ k l u v,
              (k, (l, u)) ∈ bounds self →
              dict_get k (parameters o) = Some (PNum v) →
              dict_get k (parameters o') = Some (PNum ((v - l) / (u - l)))
              ∧ (v - l) / (u - l) * (u - l) + l = v)
           observation_features transformed)
  ∧ (∀ self observation_features transformed,
       transform_observation_features self observation_features = Ok transformed →
       Forall2
         (λ o o', ∀ k, dict_get k (bounds self) = None →
                       dict_get k (parameters o') = dict_get k (parameters o))
         observation_features transformed).
Proof.
  split.
  - intros ss obsfs self Hlu Hc.
    assert (dict_wf (bounds self)) as Hwf by apply init_wf. clearbody self.
    unfold transform_observation_features, untransform_observation_features.
    induction Hc as [|o obsfs Ho _ (tr & Ht & Hu & Hv)].
    { exists []. by split_and!. }
    destruct (roundtrip_feature (bounds self) o) as (o' & Ho1 & Ho2 & Ho3);
      [done..|].
    exists (o' :: tr). cbn [forM]. rewrite Ho1, Ht. simpl. rewrite Ho2, Hu.
    split_and!; [done..|]. constructor; [|done].
    intros k l u v Hin Hget. split; [by eapply Ho3|].
    apply Hlu in Hin. field. lra.
  - intros self obsfs tr. unfold transform_observation_features.
    intros H%forM_Ok_Forall2. eapply Forall2_impl; [done|]. simpl.
    intros o o' Ho k Hk. by eapply transform_frame.
Qed.

Lemma unitx_round_trip_witness :
  ∃ transformed,
    transform_observation_features (init ss_demo) [obsf_demo] = Ok transformed
    ∧ untransform_observation_features (init ss_demo) transformed
      = Ok [obsf_demo].
Proof.
  destruct (proj1 unitx_round_trip ss_demo [obsf_demo]) as (tr & Ht & Hu & _).
  - intros k l u. cbv [ss_demo init bounds fold_left ss_parameters class
      parameter_type dict_set]. intros [[= _ -> ->]|[]%elem_of_nil]%elem_of_cons. lra.
  - constructor; [|constructor]. intros k b.
    cbv [ss_demo init bounds fold_left ss_parameters class parameter_type dict_set].
    intros [[= -> _]|[]%elem_of_nil]%elem_of_cons. by exists 4.
  - by exists tr.
Defined.

(** *** Features that lack a normalized parameter *)

(** C10.  When the bounds are well ordered and the values of the parameters
    to normalize are numbers, [transform_observation_features] returns for
    every list of features, whichever parameters they lack; but if some
    feature lacks a parameter the transform normalizes,
    [untransform_observation_features] raises [KeyError]. *)
Theorem unitx_untransform_missing_parameter
    (self : UnitX.t) (observation_features : list ObservationFeatures) :
  well_ordered (bounds self) →
  Forall (numeric (bounds self)) observation_features →
  (∃ o k b, o ∈ observation_features ∧ (k, b) ∈ bounds self
            ∧ dict_get k (parameters o) = None) →
  (∃ transformed,
     transform_observation_features self observation_features = Ok transformed)
  ∧ untransform_observation_features self observation_features = Raise KeyError.
Proof.
  intros Hlu Hnum (o & k & b & Ho & Hk & Hmiss). split.
  - unfold transform_observation_features. clear o Ho Hmiss.
    induction Hnum as [|o obsfs Ho _ [tr Htr]]; [by exists []|].
    destruct (transform_feature_total (bounds self) o) as [o' Ho']; [done..|].
    exists (o' :: tr). cbn [forM]. by rewrite Ho', Htr.
  - unfold untransform_observation_features. apply forM_first_error.
    + intros x Hx. apply untransform_feature_result.
      by eapply Forall_forall in Hnum.
    + exists o. split; [done|]. apply untransform_feature_missing; [|by eauto].
      by eapply Forall_forall in Hnum.
Qed.

Lemma unitx_untransform_missing_parameter_witness :
  (∃ transformed,
     transform_observation_features (init ss_demo) [obsf_partial] = Ok transformed)
  ∧ untransform_observation_features (init ss_demo) [obsf_partial]
    = Raise KeyError.
Proof.
  apply unitx_untransform_missing_parameter.
  - intros k l u. cbv [ss_demo init bounds fold_left ss_parameters class
      parameter_type dict_set]. intros [[= _ -> ->]|[]%elem_of_nil]%elem_of_cons. lra.
  - constructor; [|constructor]. intros k b v.
    cbv [ss_demo init bounds fold_left ss_parameters class parameter_type dict_set].
    intros [[= -> _]|[]%elem_of_nil]%elem_of_cons. simpl. done.
  - exists obsf_partial, "x", (2, 10). split_and!; [by left|by left|done].
Defined.

(** *** Linear constraints *)

Lemma dict_set_absent {V} (d : dict V) k v :
  dict_get k d = None → dict_set k v d = d ++ [(k, v)].
Proof.
  induction d as [|[k' v'] d IH]; simpl; [done|].
  destruct (String.eqb k k'); [done|]. intros H. by rewrite IH.
Qed.

Lemma transform_constraint_fold self (items cd0 : dict R) b0 :
  NoDup (dict_keys cd0 ++ dict_keys items) →
  fold_left
    (λ '(cd, bound) '(p_name, w),
       match dict_get p_name (bounds self) with
       | Some (l, u) => (dict_set p_name (w * (u - l)) cd, bound - w * l)
       | None => (dict_set p_name w cd, bound)
       end)
    items (cd0, b0)
  = (cd0 ++ map (λ '(k, w), (k, scaled_weight self k w)) items,
     b0 - bound_shift self items).
Proof.
  revert cd0 b0. induction items as [|[k w] items IH]; intros cd0 b0 Hnd; simpl.
  { rewrite app_nil_r. f_equal. lra. }
  assert (dict_get k cd0 = None) as Hk.
  { apply dict_get_None_keys. apply NoDup_app in Hnd as (_ & Hd & _).
    intros Hin. apply (Hd k Hin). left. }
  assert (∀ v, NoDup (dict_keys (dict_set k v cd0) ++ dict_keys items)) as Hnd'.
  { intros v. rewrite dict_keys_set_absent by done.
    by rewrite <- app_assoc. }
  destruct (dict_get k (bounds self)) as [[l u]|] eqn:Hb; rewrite IH by done;
    rewrite dict_set_absent by done; rewrite <- app_assoc; simpl;
    (f_equal; try lra; unfold scaled_weight; by rewrite Hb).
Qed.

Lemma transform_constraint_spec self c :
  dict_wf (constraint_dict c) →
  transform_constraint self c
  = mkParameterConstraint
      (map (λ '(k, w), (k, scaled_weight self k w)) (constraint_dict c))
      (pc_bound c - bound_shift self (constraint_dict c)).
Proof.
  intros Hwf. unfold transform_constraint.
  by rewrite transform_constraint_fold.
Qed.

Lemma transform_step_inv o o1 k l u :
  transform_step o (k, (l, u)) = Ok o1 →
  (dict_get k (parameters o) = None ∧ o1 = o)
  ∨ ∃ r, dict_get k (parameters o) = Some (PNum r) ∧ u - l ≠ 0
         ∧ o1 = set_parameter o k (PNum ((r - l) / (u - l))).
Proof.
  unfold transform_step. destruct (dict_get k (parameters o)) as [v|].
  - intros (nv & Hn & [= <-])%bind_Ok. right. revert Hn. unfold normalize_value.
    intros (r & Hr & Hdiv)%bind_Ok. destruct v; try done. injection Hr as ->.
    destruct (Req_dec_T (u - l) 0); [done|]. injection Hdiv as <-. eauto.
  - intros [= <-]. by left.
Qed.

(** The value of every key after the forward transform of one feature. *)
Lemma transform_feature_get bs o o' k :
  dict_wf bs → foldM transform_step o bs = Ok o' →
  match dict_get k bs with
  | Some (l, u) =>
      match dict_get k (parameters o) with
      | Some v => ∃ r, v = PNum r ∧ u - l ≠ 0
                       ∧ dict_get k (parameters o') = Some (PNum ((r - l) / (u - l)))
      | None => dict_get k (parameters o') = None
      end
  | None => dict_get k (parameters o') = dict_get k (parameters o)
  end.
Proof.
  intros Hwf Ht. destruct (dict_get k bs) as [[l u]|] eqn:Hk;
    [|by eapply transform_frame].
  revert o Ht Hk. induction bs as [|[k1 [l1 u1]] bs IH]; intros o Ht Hk; [done|].
  apply dict_wf_cons in Hwf as [Hk1 Hwf]. cbn [foldM] in Ht.
  apply bind_Ok in Ht as (o1 & H1 & Hrest). cbn [dict_get] in Hk.
  destruct (String.eqb k k1) eqn:E.
  - apply String.eqb_eq in E as ->. injection Hk as -> ->.
    apply dict_get_None_keys in Hk1.
    rewrite (transform_frame _ _ _ _ Hrest Hk1).
    apply transform_step_inv in H1 as [[Hn ->]|(r & -> & Hul & ->)];
      [by rewrite Hn|].
    exists r. split_and!; [done..|]. simpl. apply dict_get_set_eq.
  - apply String.eqb_neq in E. specialize (IH Hwf o1 Hrest Hk).
    by rewrite (transform_step_get _ _ _ _ _ H1 (not_eq_sym E)) in IH.
Qed.

Lemma weighted_sum_transform self o o' items acc acc' :
  dict_wf (bounds self) → foldM transform_step o (bounds self) = Ok o' →
  foldM (λ a '(p_name, w),
           v ← dict_getitem p_name (parameters o');
           r ← as_number v;
           Ok (a + w * r))
        acc' (map (λ '(k, w), (k, scaled_weight self k w)) items)
  = (s ← foldM (λ a '(p_name, w),
                  v ← dict_getitem p_name (parameters o);
                  r ← as_number v;
                  Ok (a + w * r))
               acc items;
     Ok (s + (acc' - acc) - bound_shift self items)).
Proof.
  intros Hwf Ht. revert acc acc'.
  induction items as [|[k w] items IH]; intros acc acc'; simpl.
  { f_equal. lra. }
  pose proof (transform_feature_get _ _ _ k Hwf Ht) as Hk.
  unfold dict_getitem.
  destruct (dict_get k (bounds self)) as [[l u]|] eqn:Hb.
  - destruct (dict_get k (parameters o)) as [v|].
    + destruct Hk as (r & -> & Hul & ->). simpl. rewrite (IH (acc + w * r)).
      destruct (foldM _ (acc + w * r) items); simpl; [|done].
      unfold scaled_weight. rewrite Hb. f_equal. field. done.
    + by rewrite Hk.
  - rewrite Hk. destruct (dict_get k (parameters o)) as [v|]; simpl; [|done].
    destruct (as_number v) as [r|]; simpl; [|done]. rewrite (IH (acc + w * r)).
    destruct (foldM _ (acc + w * r) items); simpl; [|done].
    unfold scaled_weight. rewrite Hb. f_equal. lra.
Qed.

(** C1, in exact arithmetic.  The constraint [transform_search_space]
    builds from a constraint [sum(w_i * x_i) <= b] has weight [w_i * (u_i - l_i)] on every normalized
    coordinate, the weight [w_i] on every other one, and the bound [b]
    decremented by [w_i * l_i] for the normalized coordinates; the point
    normalized by [transform_observation_features] satisfies it exactly when
    the original point satisfies the original constraint, and violates it
    exactly when the original point violates the original one.  On the
    scenario of section 8, [1 * x + 1 * n <= 12] with [x] in [2, 10] becomes
    [8 * x + 1 * n <= 10]. *)
Theorem unitx_constraint_preserved :
  (∀ search_space0 search_space search_space' o o',
     let self := init search_space0 in
     transform_search_space self search_space = Ok search_space' →
     transform_observation_features self [o] = Ok [o'] →
     Forall (λ c, dict_wf (constraint_dict c))
            (parameter_constraints search_space) →
     Forall2
       (λ c c',
          constraint_dict c'
          = map (λ '(k, w), (k, scaled_weight self k w)) (constraint_dict c)
          ∧ pc_bound c' = pc_bound c - bound_shift self (constraint_dict c)
          ∧ (satisfied c' (parameters o') ↔ satisfied c (parameters o))
          ∧ (violated c' (parameters o') ↔ violated c (parameters o)))
       (parameter_constraints search_space)
       (parameter_constraints search_space'))
  ∧ transform_search_space (init ss_demo) ss_demo = Ok ss_demo_unit.
Proof.
  split; [|by py_eval].
  intros ss0 ss ss' o o' self Hss Ho Hwf.
  assert (dict_wf (bounds self)) as Hb by apply init_wf. clearbody self.
  unfold transform_search_space in Hss.
  apply bind_Ok in Hss as (ps & _ & [= <-]). cbn [parameter_constraints].
  unfold transform_observation_features in Ho. cbn [forM] in Ho.
  apply bind_Ok in Ho as (o1 & Ho1 & [= ->]).
  induction Hwf as [|c cs Hc _ IH]; constructor; [|done].
  rewrite transform_constraint_spec by done. cbn [constraint_dict pc_bound].
  split; [done|]. split; [done|].
  pose proof (weighted_sum_transform self o o' (constraint_dict c) 0 0 Hb Ho1) as Hs.
  unfold satisfied, violated, weighted_sum. cbn [constraint_dict pc_bound].
  rewrite Hs. clear Hs.
  destruct (foldM _ 0 (constraint_dict c)) as [s|e]; simpl.
  - split; split.
    + intros (s' & [= <-] & Hle). exists s. split; [done|lra].
    + intros (s' & [= <-] & Hle). eexists. split; [done|lra].
    + intros (s' & [= <-] & Hle). exists s. split; [done|lra].
    + intros (s' & [= <-] & Hle). eexists. split; [done|lra].
  - split; split; by intros (? & [=] & _).
Qed.

Lemma unitx_constraint_preserved_witness :
  ∃ c', transform_constraint (init ss_demo)
          (mkParameterConstraint [("x", 1); ("n", 1)] 12) = c'
        ∧ (satisfied c' [("x", PNum ((4 - 2) / (10 - 2))); ("n", PNum 3)]
           ↔ satisfied (mkParameterConstraint [("x", 1); ("n", 1)] 12)
               (parameters obsf_demo)).
Proof.
  eexists. split; [reflexivity|].
  assert (transform_search_space (init ss_demo) ss_demo
          = Ok (mkSearchSpace
                  [("x", mkParameter "x" FLOAT
                           (RangeParameter ((2 - 2) / (10 - 2))
                              ((10 - 2) / (10 - 2)) false) false PNone);
                   ("n", mkParameter "n" INT (RangeParameter 0 5 false)
                           false PNone)]
                  [transform_constraint (init ss_demo)
                     (mkParameterConstraint [("x", 1); ("n", 1)] 12)])) as Hss.
  { unfold transform_search_space. py_compute. py_decide. reflexivity. }
  assert (transform_observation_features (init ss_demo) [obsf_demo]
          = Ok [mkObservationFeatures
                  [("x", PNum ((4 - 2) / (10 - 2))); ("n", PNum 3)] None]) as Ho.
  { py_compute. py_decide. reflexivity. }
  pose proof (proj1 unitx_constraint_preserved ss_demo ss_demo _ _ _ Hss Ho) as H.
  cbn [parameter_constraints ss_demo] in H.
  assert (Forall (λ c, dict_wf (constraint_dict c))
            [mkParameterConstraint [("x", 1); ("n", 1)] 12]) as Hwf.
  { constructor; [|constructor]. cbn. unfold dict_wf. cbn.
    apply NoDup_cons. split; [|apply NoDup_singleton].
    by intros [=]%list_elem_of_singleton. }
  specialize (H Hwf). inversion H as [|???? (_ & _ & Hsat & _) _]; subst.
  exact Hsat.
Defined.

(** C1 as the specification words it fails on the numbers the code
    computes with.  In binary64, for [x] bounded by [0.1, 0.3], the
    constraint [1 * x <= 0.2] and the point [x = 0.2] on its boundary, the
    code returns the weight 0.19999999999999998, the bound 0.1 and the
    point 0.5000000000000001.  The original point satisfies the original
    constraint and the returned point violates the returned constraint,
    both when the weighted sum is computed in binary64 and when the
    returned numbers are read exactly. *)
Lemma unitx_constraint_binary64 :
  Binary64.UnitX.transform_search_space
    (Binary64.UnitX.init Binary64.ss_tenths) Binary64.ss_tenths
  = Ok (Binary64.mkSearchSpace
          [("x", Binary64.mkParameter "x" FLOAT
                   (Binary64.RangeParameter 0 1 false) false Binary64.PNone)]
          [Binary64.mkParameterConstraint [("x", 0x1.9999999999999p-3%float)]
             0x1.999999999999ap-4])
  ∧ Binary64.UnitX.transform_observation_features
      (Binary64.UnitX.init Binary64.ss_tenths) [Binary64.obsf_boundary]
    = Ok [Binary64.mkObservationFeatures
            [("x", Binary64.PNum 0x1.0000000000001p-1)] None]
  ∧ Binary64.satisfied
      (Binary64.mkParameterConstraint [("x", 1%float)] 0x1.999999999999ap-3)
      [("x", Binary64.PNum 0x1.999999999999ap-3)] = Ok true
  ∧ Binary64.satisfied
      (Binary64.mkParameterConstraint [("x", 0x1.9999999999999p-3%float)]
         0x1.999999999999ap-4)
      [("x", Binary64.PNum 0x1.0000000000001p-1)] = Ok false
  ∧ satisfied
      (Binary64.constraint_to_R
         (Binary64.mkParameterConstraint [("x", 1%float)]
            0x1.999999999999ap-3))
      (Binary64.point_to_R [("x", Binary64.PNum 0x1.999999999999ap-3)])
  ∧ violated
      (Binary64.constraint_to_R
         (Binary64.mkParameterConstraint [("x", 0x1.9999999999999p-3%float)]
            0x1.999999999999ap-4))
      (Binary64.point_to_R [("x", Binary64.PNum 0x1.0000000000001p-1)]).
Proof.
  split_and!.
  - by vm_compute.
  - by vm_compute.
  - by vm_compute.
  - by vm_compute.
  - unfold satisfied. eexists. split; [by py_compute|]. py_compute. lra.
  - unfold violated. eexists. split; [by py_compute|]. py_compute. lra.
Qed.

(** *** Parameters the transform does not normalize *)

(** C5.  What the first loop of [transform_search_space] does to a parameter
    that [UnitX.__init__] did not select: without a target value the
    parameter is returned as it is, but with a declared target value the
    lookup [self.bounds[p_name]] raises [KeyError].  So on a search space
    whose integer parameter has target value 5 the transform raises instead
    of leaving that parameter untouched. *)
Theorem unitx_target_value_outside_bounds :
  (∀ self p_name p,
     dict_get p_name (bounds self) = None →
     transform_parameter self p_name p
     = if is_not_none (target_value p) then Raise KeyError else Ok p)
  ∧ transform_search_space (init ss_fidelity) ss_fidelity = Raise KeyError.
Proof.
  split; [|by py_eval].
  intros self p_name p Hk. unfold transform_parameter, dict_contains, dict_getitem.
  rewrite Hk. destruct (class p); simpl; by destruct (is_not_none (target_value p)).
Qed.

End UnitXFacts.

(** ** [modelbridge_utils] *)

Module UtilsFacts.

(** *** [list.index] *)

Lemma index_Ok x l i :
  index x l = Ok i → l !! i = Some x ∧ ∀ j, (j < i)%nat → l !! j ≠ Some x.
Proof.
  revert i. induction l as [|y l IH]; intros i; simpl; [done|].
  destruct (String.eqb x y) eqn:E.
  - apply String.eqb_eq in E as ->. intros [= <-]. split; [done|]. lia.
  - apply String.eqb_neq in E. intros (i' & Hi' & [= <-])%bind_Ok.
    destruct (IH _ Hi') as [Hl Hmin]. split; [done|].
    intros [|j] Hj; simpl; [congruence|]. apply Hmin. lia.
Qed.

Lemma index_elem x l : x ∈ l → ∃ i, index x l = Ok i.
Proof.
  induction l as [|y l IH]; [by intros ?%elem_of_nil|]. simpl.
  destruct (String.eqb x y) eqn:E; [by eexists|].
  apply String.eqb_neq in E. intros [->|Hin]%elem_of_cons; [done|].
  destruct (IH Hin) as [i ->]. by eexists.
Qed.

Lemma index_lt x l i : index x l = Ok i → (i < length l)%nat.
Proof. intros [H _]%index_Ok. by eapply lookup_lt_Some. Qed.

Lemma mem_elem x l : mem x l = true ↔ x ∈ l.
Proof.
  unfold mem. induction l as [|y l IH]; simpl.
  - split; [done|by intros ?%elem_of_nil].
  - rewrite elem_of_cons, orb_true_iff, IH, String.eqb_eq. tauto.
Qed.

(** *** Objective thresholds *)

Lemma threshold_dict_get ots name (d0 : dict R) :
  dict_get name
    (fold_left (λ d ot, dict_set (metric_name (ot_metric ot)) (ot_bound ot) d)
               ots d0)
  = match threshold_of ots name with
    | Some v => Some v
    | None => dict_get name d0
    end.
Proof.
  revert d0. induction ots as [|ot ots IH]; intros d0; simpl; [done|].
  rewrite IH. destruct (threshold_of ots name); [done|].
  destruct (String.eqb name (metric_name (ot_metric ot))) eqn:E.
  - apply String.eqb_eq in E as ->. apply dict_get_set_eq.
  - apply String.eqb_neq in E. by apply dict_get_set_ne.
Qed.

Lemma forM_getitem_filter {V} (d : dict V) (l : list string) :
  forM (λ name, dict_getitem name d)
       (filter (λ name, dict_contains name d = true) l)
  = Ok (omap (λ name, dict_get name d) l).
Proof.
  induction l as [|x l IH]; [done|]. rewrite filter_cons.
  case_decide as Hc; unfold dict_contains in Hc; cbn [forM omap list_omap];
    destruct (dict_get x d) as [v|] eqn:E; try done.
  rewrite (dict_getitem_Some _ _ _ E). simpl. by rewrite IH.
Qed.

Lemma threshold_of_app ots1 ots2 name :
  threshold_of (ots1 ++ ots2) name
  = match threshold_of ots2 name with
    | Some v => Some v
    | None => threshold_of ots1 name
    end.
Proof.
  induction ots1 as [|ot ots1 IH]; simpl; [by destruct (threshold_of ots2 name)|].
  rewrite IH. by destruct (threshold_of ots2 name).
Qed.

(** C6.  [extract_objective_thresholds] never raises; it returns the
    thresholds of the metrics of the outcome list in the order of the
    outcome list, with nothing in the place of an outcome that has no
    threshold, so a threshold whose metric is not an outcome does not
    change the result.  For thresholds on "a" and "c" and the outcomes
    ["a"; "b"; "c"] the result is [[value(a); value(c)]], of length 2. *)
Theorem extract_objective_thresholds_spec :
  (∀ objective_thresholds outcomes,
     extract_objective_thresholds objective_thresholds outcomes
     = Ok (thresholds_in_outcome_order objective_thresholds outcomes))
  ∧ (∀ before ot after outcomes,
       metric_name (ot_metric ot) ∉ outcomes →
       extract_objective_thresholds (before ++ ot :: after) outcomes
       = extract_objective_thresholds (before ++ after) outcomes)
  ∧ (∀ va vc op_a op_c rel_a rel_c,
       extract_objective_thresholds
         [mkObjectiveThreshold (mkMetric "a") va op_a rel_a;
          mkObjectiveThreshold (mkMetric "c") vc op_c rel_c]
         ["a"; "b"; "c"]
       = Ok [va; vc]).
Proof.
  assert (∀ ots outcomes,
    extract_objective_thresholds ots outcomes
    = Ok (thresholds_in_outcome_order ots outcomes)) as Hspec.
  { intros ots outcomes.
    unfold extract_objective_thresholds, thresholds_in_outcome_order.
    rewrite forM_getitem_filter. f_equal.
    apply list_omap_ext, Forall_Forall2_diag, Forall_forall. intros x _.
    rewrite threshold_dict_get. by destruct (threshold_of ots x). }
  split_and!; [done| |done].
  intros before ot after outcomes Hnot. rewrite !Hspec. f_equal.
  unfold thresholds_in_outcome_order.
  apply list_omap_ext, Forall_Forall2_diag, Forall_forall. intros x Hx.
  rewrite !threshold_of_app. simpl.
  destruct (threshold_of after x); [done|].
  destruct (String.eqb x (metric_name (ot_metric ot))) eqn:E; [|done].
  apply String.eqb_eq in E as ->. done.
Qed.

Lemma extract_objective_thresholds_spec_witness :
  extract_objective_thresholds
    [mkObjectiveThreshold (mkMetric "a") 1 LEQ false;
     mkObjectiveThreshold (mkMetric "z") 5 GEQ false;
     mkObjectiveThreshold (mkMetric "c") 2 GEQ true]
    outcomes_demo
  = extract_objective_thresholds
      [mkObjectiveThreshold (mkMetric "a") 1 LEQ false;
       mkObjectiveThreshold (mkMetric "c") 2 GEQ true]
      outcomes_demo.
Proof.
  apply (proj1 (proj2 extract_objective_thresholds_spec)
           [mkObjectiveThreshold (mkMetric "a") 1 LEQ false]
           (mkObjectiveThreshold (mkMetric "z") 5 GEQ false)
           [mkObjectiveThreshold (mkMetric "c") 2 GEQ true]).
  cbn. by_decide.
Defined.

(** *** Objective weights *)

(** The loops of [extract_objective_weights] all store one value per entry
    at the index of the entry's metric. *)
Lemma assign_fold {A} (nm : A → string) (val : A → R) outcomes items ws0 :
  (∀ a, a ∈ items → nm a ∈ outcomes) →
  length ws0 = length outcomes →
  ∃ ws,
    foldM (λ ws a, i ← index (nm a) outcomes; Ok (<[i := val a]> ws)) ws0 items
    = Ok ws
    ∧ length ws = length outcomes
    ∧ (∀ j name, outcomes !! j = Some name → name ∉ map nm items →
                 ws !! j = ws0 !! j)
    ∧ (NoDup (map nm items) →
       ∀ a i, a ∈ items → index (nm a) outcomes = Ok i → ws !! i = Some (val a)).
Proof.
  revert ws0. induction items as [|a items IH]; intros ws0 Hin Hlen.
  { exists ws0. split_and!; [done..|]. by intros _ ?? ?%elem_of_nil. }
  destruct (index_elem (nm a) outcomes) as [i Hi]; [apply Hin; by left|].
  destruct (IH (<[i := val a]> ws0)) as (ws & Hws & Hl & Hsame & Hset).
  { intros a' Ha'. apply Hin. by right. }
  { by rewrite length_insert. }
  exists ws. cbn [foldM]. rewrite Hi. simpl. split_and!; [done..| |].
  - intros j name Hj Hname. cbn [map] in Hname.
    apply not_elem_of_cons in Hname as [Hne Hrest].
    rewrite (Hsame j name) by done. apply list_lookup_insert_ne.
    intros ->. apply index_Ok in Hi as [Hi _]. congruence.
  - cbn [map]. intros [Ha Hnd]%NoDup_cons a' i' [->|Ha']%elem_of_cons Hi'.
    + assert (i' = i) as -> by congruence.
      rewrite (Hsame i (nm a)); [|by apply index_Ok in Hi as [? _]|done].
      apply list_lookup_insert_eq. rewrite Hlen. by eapply index_lt.
    + by apply Hset.
Qed.

(** What [extract_objective_weights] computes.  When the metrics of the
    objective are outcomes and pairwise distinct, it returns a vector as
    long as the outcome list, with 0 at every outcome that is not a metric
    of the objective; at the index of a metric it holds [-1] or [+1] by the
    minimize flag for a single objective, the declared weight times that
    sign for a scalarized objective, and for a multi-objective the metric's
    own weight when one is given and is not 0, and the sign otherwise. *)
Lemma extract_objective_weights_spec objective outcomes :
  (∀ name, name ∈ objective_metric_names objective → name ∈ outcomes) →
  NoDup (objective_metric_names objective) →
  ∃ ws,
    extract_objective_weights objective outcomes = Ok ws
    ∧ length ws = length outcomes
    ∧ (∀ j name, outcomes !! j = Some name →
                 name ∉ objective_metric_names objective → ws !! j = Some 0)
    ∧ match objective with
      | SingleObjective m mn =>
          ∀ i, index (metric_name m) outcomes = Ok i → ws !! i = Some (sign mn)
      | ScalarizedObjective mws mn =>
          ∀ m w i, (m, w) ∈ mws → index (metric_name m) outcomes = Ok i →
                   ws !! i = Some (w * sign mn)
      | MultiObjective mws mn =>
          ∀ m w i, (m, w) ∈ mws → index (metric_name m) outcomes = Ok i →
            (∀ r, w = Some r → r ≠ 0 → ws !! i = Some r)
            ∧ (w = None ∨ w = Some 0 → ws !! i = Some (sign mn))
      end.
Proof.
  intros Hin Hnd. unfold extract_objective_weights.
  assert (∀ j name, outcomes !! j = Some name →
            replicate (length outcomes) 0 !! j = Some 0) as Hzero.
  { intros j name Hj. apply lookup_replicate_2. by eapply lookup_lt_Some. }
  destruct objective as [m mn|mws mn|mws mn]; cbn [minimize].
  - destruct (index_elem (metric_name m) outcomes) as [i Hi];
      [apply Hin; by left|].
    rewrite Hi. simpl. eexists. split; [done|].
    rewrite length_insert, length_replicate. split_and!; [done| |].
    + intros j name Hj Hname%not_elem_of_cons. destruct Hname as [Hne _].
      rewrite list_lookup_insert_ne; [by eauto|].
      intros ->. apply index_Ok in Hi as [Hi _]. congruence.
    + intros i' Hi'. assert (i' = i) as -> by congruence.
      apply list_lookup_insert_eq. rewrite length_replicate. by eapply index_lt.
  - destruct (assign_fold (λ mw : Metric * R, metric_name mw.1)
                (λ mw, mw.2 * sign mn) outcomes mws
                (replicate (length outcomes) 0))
      as (ws & Hws & Hl & Hsame & Hset).
    { intros a Ha. apply Hin. simpl. apply list_elem_of_fmap. by exists a. }
    { apply length_replicate. }
    exists ws. split_and!; [|done| |].
    + rewrite <- Hws. apply foldM_ext. by intros ? [].
    + intros j name Hj Hname. rewrite (Hsame j name) by done. by eauto.
    + intros m w i Hmw Hi. by apply (Hset Hnd (m, w)).
  - destruct (assign_fold (λ mw : Metric * option R, metric_name mw.1)
                (λ mw, or_else mw.2 (sign mn)) outcomes mws
                (replicate (length outcomes) 0))
      as (ws & Hws & Hl & Hsame & Hset).
    { intros a Ha. apply Hin. simpl. apply list_elem_of_fmap. by exists a. }
    { apply length_replicate. }
    exists ws. split_and!; [|done| |].
    + rewrite <- Hws. apply foldM_ext. by intros ? [].
    + intros j name Hj Hname. rewrite (Hsame j name) by done. by eauto.
    + intros m w i Hmw Hi. rewrite (Hset Hnd (m, w) i) by done. simpl.
      split.
      * intros r -> Hr. simpl. by destruct (Req_dec_T r 0).
      * intros [->| ->]; simpl; [done|]. by destruct (Req_dec_T 0 0).
Qed.

Lemma extract_objective_weights_spec_witness :
  ∃ ws, extract_objective_weights objective_demo outcomes_demo = Ok ws
        ∧ length ws = 3%nat
        ∧ ws !! 2%nat = Some 0.
Proof.
  destruct (extract_objective_weights_spec objective_demo outcomes_demo)
    as (ws & Hws & Hl & Hzero & _).
  - intros name Hn. cbn in Hn. elem_cases Hn; by_decide.
  - cbn. by_decide.
  - exists ws. split_and!; [done..|].
    apply (Hzero 2%nat "c"); [done|]. cbn. by_decide.
Defined.


(** *** Outcome constraints *)

Lemma dot_zeros n y : dot (replicate n 0) y = 0.
Proof.
  unfold dot. revert y. induction n as [|n IH]; intros [|a y]; simpl; try done.
  rewrite IH. lra.
Qed.

Lemma dot_unit j s n y y_j :
  (j < n)%nat → y !! j = Some y_j → dot (<[j := s]> (replicate n 0)) y = s * y_j.
Proof.
  unfold dot. revert j y. induction n as [|n IH]; intros j y Hj Hy; [lia|].
  destruct y as [|a y]; [done|]. destruct j as [|j]; simpl in *.
  - injection Hy as ->. fold (dot (replicate n 0) y). rewrite dot_zeros. lra.
  - rewrite (IH j y) by (done || lia). lra.
Qed.

Lemma outcome_constraint_step_Ok outcomes A b i c j :
  index (metric_name (oc_metric c)) outcomes = Ok j →
  outcome_constraint_step outcomes (A, b) (i, c)
  = Ok (alter (λ row, <[j := match op c with LEQ => 1 | GEQ => -1 end]> row) i A,
        alter (λ row, <[0%nat := match op c with LEQ => 1 | GEQ => -1 end
                                 * oc_bound c]> row) i b).
Proof. intros Hj. unfold outcome_constraint_step. by rewrite Hj. Qed.

Lemma outcome_constraint_fold outcomes cs k A b :
  (∀ c, c ∈ cs → metric_name (oc_metric c) ∈ outcomes) →
  ∃ A' b',
    foldM (outcome_constraint_step outcomes) (A, b)
          (zip (seq k (length cs)) cs)
    = Ok (A', b')
    ∧ length A' = length A ∧ length b' = length b
    ∧ (∀ i, (i < k)%nat → A' !! i = A !! i ∧ b' !! i = b !! i)
    ∧ (∀ idx c, cs !! idx = Some c →
         ∃ j, index (metric_name (oc_metric c)) outcomes = Ok j
              ∧ A' !! (k + idx)%nat
                = (λ row, <[j := match op c with LEQ => 1 | GEQ => -1 end]> row)
                    <$> A !! (k + idx)%nat
              ∧ b' !! (k + idx)%nat
                = (λ row, <[0%nat := match op c with LEQ => 1 | GEQ => -1 end
                                    * oc_bound c]> row)
                    <$> b !! (k + idx)%nat).
Proof.
  revert k A b. induction cs as [|c cs IH]; intros k A b Hin.
  { exists A, b. split_and!; [done..|]. by intros ??. }
  destruct (index_elem (metric_name (oc_metric c)) outcomes) as [j Hj];
    [apply Hin; by left|].
  cbn [length seq zip zip_with foldM].
  rewrite (outcome_constraint_step_Ok _ _ _ _ _ _ Hj). cbn [mbind result_bind bind].
  set (s := match op c with LEQ => 1 | GEQ => -1 end).
  edestruct (IH (S k) (alter (λ row, <[j := s]> row) k A)
                (alter (λ row, <[0%nat := s * oc_bound c]> row) k b))
    as (A' & b' & Hf & HlA & Hlb & Hlow & Hrow).
  { intros c' Hc'. apply Hin. by right. }
  exists A', b'. rewrite length_alter in HlA, Hlb.
  split_and!; [done..| |].
  - intros i Hi. destruct (Hlow i) as [-> ->]; [lia|].
    rewrite !list_lookup_alter_ne by lia. done.
  - intros [|idx] c' Hc'; simpl in Hc'.
    + injection Hc' as <-. exists j. split; [done|].
      replace (k + 0)%nat with k by lia.
      destruct (Hlow k) as [-> ->]; [lia|].
      by rewrite !list_lookup_alter_eq.
    + destruct (Hrow idx c' Hc') as (j' & Hj' & HA & Hb).
      exists j'. split; [done|].
      replace (k + S idx)%nat with (S k + idx)%nat by lia.
      rewrite HA, Hb. rewrite !list_lookup_alter_ne by lia. done.
Qed.

(** C7.  For a non-empty list of outcome constraints on metrics of the
    outcome list, [extract_outcome_constraints] returns a matrix [A] and a
    column vector [b] with one row per constraint.  The row of a constraint
    on the metric at column [j] with bound [k] is zero except at [j], where
    it holds 1 for a <=-constraint and -1 for a >=-constraint, and [b]
    holds [k] and [-k] respectively; so [A[i] . y <= b[i]] states the
    constraint: [y_j <= k], and [-y_j <= -k] for [y_j >= k]. *)
Theorem extract_outcome_constraints_spec outcome_constraints outcomes :
  outcome_constraints ≠ [] →
  (∀ c, c ∈ outcome_constraints → metric_name (oc_metric c) ∈ outcomes) →
  ∃ A b,
    extract_outcome_constraints outcome_constraints outcomes = Ok (Some (A, b))
    ∧ length A = length outcome_constraints
    ∧ length b = length outcome_constraints
    ∧ ∀ i c, outcome_constraints !! i = Some c →
        ∃ j, index (metric_name (oc_metric c)) outcomes = Ok j
          ∧ match op c with
            | LEQ => A !! i = Some (<[j := 1]> (replicate (length outcomes) 0))
                     ∧ b !! i = Some [oc_bound c]
            | GEQ => A !! i = Some (<[j := -1]> (replicate (length outcomes) 0))
                     ∧ b !! i = Some [- oc_bound c]
            end
          ∧ ∀ row b_i y y_j,
              A !! i = Some row → b !! i = Some [b_i] → y !! j = Some y_j →
              (dot row y <= b_i ↔ outcome_constraint_holds c y_j).
Proof.
  intros Hne Hin. unfold extract_outcome_constraints.
  destruct outcome_constraints as [|c0 cs0] eqn:Hcs; [done|]. rewrite <- Hcs in *.
  clear Hne.
  edestruct (outcome_constraint_fold outcomes outcome_constraints 0
               (replicate (length outcome_constraints)
                          (replicate (length outcomes) 0))
               (replicate (length outcome_constraints) (replicate 1 0)))
    as (A & b & Hf & HlA & Hlb & _ & Hrow); [done|].
  exists A, b. unfold enumerate. rewrite Hf. simpl.
  rewrite length_replicate in HlA, Hlb. split_and!; [done..|].
  intros i c Hc. destruct (Hrow i c Hc) as (j & Hj & HA & Hb).
  simpl in HA, Hb.
  rewrite lookup_replicate_2 in HA, Hb by by eapply lookup_lt_Some. simpl in HA, Hb.
  exists j. split; [done|].
  split.
  - rewrite HA, Hb. destruct (op c); split; f_equal; f_equal; lra.
  - intros row b_i y y_j Hrow' Hb' Hy. rewrite HA in Hrow'. rewrite Hb in Hb'.
    injection Hrow' as <-. injection Hb' as <-.
    rewrite (dot_unit _ _ _ _ y_j) by (done || by eapply index_lt).
    unfold outcome_constraint_holds. destruct (op c); split; lra.
Qed.

Lemma extract_outcome_constraints_spec_witness :
  ∃ A b,
    extract_outcome_constraints outcome_constraints_demo outcomes_demo
    = Ok (Some (A, b))
    ∧ length A = 2%nat ∧ length b = 2%nat.
Proof.
  destruct (extract_outcome_constraints_spec outcome_constraints_demo
              outcomes_demo) as (A & b & H & HA & Hb & _).
  - done.
  - intros c Hc. unfold outcome_constraints_demo in Hc.
    elem_cases Hc; cbn; by_decide.
  - by exists A, b.
Defined.

(** The encoding of [a <= 3] and [c >= 1] over the outcomes a, b, c. *)
Example extract_outcome_constraints_demo :
  ∃ A b,
    extract_outcome_constraints outcome_constraints_demo outcomes_demo
    = Ok (Some (A, b))
    ∧ A = [[1; 0; 0]; [0; 0; -1]] ∧ b = [[3]; [-1]].
Proof.
  eexists _, _. split; [reflexivity|]. py_compute.
  split; repeat f_equal; lra.
Qed.

(** *** Pending observations *)

Lemma forM_total {A B} (f : A → result B) l :
  (∀ a, a ∈ l → ∃ b, f a = Ok b) → ∃ l', forM f l = Ok l'.
Proof.
  induction l as [|a l IH]; intros Hall; [by exists []|].
  destruct (Hall a) as [b Hb]; [by left|].
  destruct IH as [l' Hl']; [intros; apply Hall; by right|].
  exists (b :: l'). simpl. by rewrite Hb, Hl'.
Qed.

Lemma pending_rows param_names po_list :
  (∀ po p, po ∈ po_list → p ∈ param_names →
           is_Some (dict_get p (parameters po))) →
  ∃ rows,
    forM (λ po, forM (λ p, dict_getitem p (parameters po)) param_names) po_list
    = Ok rows
    ∧ pending_matrix param_names po_list rows.
Proof.
  intros Hall.
  destruct (forM_total
              (λ po, forM (λ p, dict_getitem p (parameters po)) param_names)
              po_list) as [rows Hrows].
  { intros po Hpo. apply forM_total. intros p Hp.
    destruct (Hall po p Hpo Hp) as [v Hv]. exists v.
    by apply dict_getitem_Some. }
  exists rows. split; [done|]. apply forM_Ok_Forall2 in Hrows.
  eapply Forall2_impl; [done|]. simpl. intros po row Hrow%forM_Ok_Forall2.
  eapply Forall2_impl; [done|]. simpl. intros p v. unfold dict_getitem.
  destruct (dict_get p (parameters po)); by intros [= ->].
Qed.

Lemma pending_matrix_shape param_names po_list rows :
  pending_matrix param_names po_list rows →
  length rows = length po_list
  ∧ Forall (λ row, length row = length param_names) rows.
Proof.
  unfold pending_matrix. induction 1 as [|po row pl rs Hrow _ [IH1 IH2]].
  - by split.
  - split; [simpl; by rewrite IH1|]. constructor; [|done].
    symmetry. by eapply Forall2_length.
Qed.

Lemma pending_step_skip outcome_names param_names arr m po_list :
  mem m outcome_names = false →
  pending_step outcome_names param_names arr (m, po_list) = Ok arr.
Proof. intros H. unfold pending_step. by rewrite H. Qed.

Lemma pending_step_set outcome_names param_names arr m po_list rows i :
  mem m outcome_names = true →
  forM (λ po, forM (λ p, dict_getitem p (parameters po)) param_names) po_list
  = Ok rows →
  index m outcome_names = Ok i →
  pending_step outcome_names param_names arr (m, po_list)
  = Ok (<[i := rows]> arr).
Proof. intros H Hr Hi. unfold pending_step. by rewrite H, Hr, Hi. Qed.

Lemma pending_fold outcome_names param_names items arr0 :
  dict_wf items →
  (∀ m po_list po p, (m, po_list) ∈ items → m ∈ outcome_names →
     po ∈ po_list → p ∈ param_names → is_Some (dict_get p (parameters po))) →
  ∃ arr,
    foldM (pending_step outcome_names param_names) arr0 items = Ok arr
    ∧ length arr = length arr0
    ∧ (∀ m po_list i, (m, po_list) ∈ items → index m outcome_names = Ok i →
         (i < length arr0)%nat →
         ∃ rows, arr !! i = Some rows ∧ pending_matrix param_names po_list rows)
    ∧ (∀ j name, outcome_names !! j = Some name → name ∉ dict_keys items →
                 arr !! j = arr0 !! j).
Proof.
  revert arr0. induction items as [|[m po_list] items IH]; intros arr0 Hwf Hall.
  { exists arr0. split_and!; [done..| |done]. by intros ??? ?%elem_of_nil. }
  apply dict_wf_cons in Hwf as [Hm Hwf]. cbn [foldM].
  destruct (mem m outcome_names) eqn:Hmem'.
  - pose proof (proj1 (mem_elem _ _) Hmem') as Hmem.
    destruct (pending_rows param_names po_list) as [rows [Hrows Hmat]].
    { intros po p Hpo Hp. eapply (Hall m po_list); [by left|done..]. }
    destruct (index_elem m outcome_names Hmem) as [i Hi].
    rewrite (pending_step_set _ _ _ _ _ rows i) by done.
    cbn [mbind result_bind bind].
    destruct (IH (<[i := rows]> arr0)) as (arr & Harr & Hl & Hset & Hsame);
      [done|intros; eapply Hall; [by right|done..]|].
    rewrite length_insert in Hl, Hset.
    exists arr. split_and!; [done..| |].
    + intros m' pl' i' [[= -> ->]|Hin]%elem_of_cons Hi' Hlt; [|by eauto].
      assert (i' = i) as -> by congruence. exists rows. split; [|done].
      rewrite (Hsame i m); [|by apply index_Ok in Hi as [? _]|done].
      by apply list_lookup_insert_eq.
    + intros j name Hj Hname. cbn in Hname.
      apply not_elem_of_cons in Hname as [Hne Hname].
      rewrite (Hsame j name) by done. apply list_lookup_insert_ne.
      intros ->. apply index_Ok in Hi as [Hi _]. congruence.
  - assert (m ∉ outcome_names) as Hnot.
    { intros Hin%mem_elem. congruence. }
    rewrite pending_step_skip by done. cbn [mbind result_bind bind].
    destruct (IH arr0) as (arr & Harr & Hl & Hset & Hsame);
      [done|intros; eapply Hall; [by right|done..]|].
    exists arr. split_and!; [done..| |].
    + intros m' pl' i' [[= -> ->]|Hin]%elem_of_cons Hi' Hlt; [|by eauto].
      destruct Hnot. apply index_Ok in Hi' as [Hi' _].
      by eapply list_elem_of_lookup_2.
    + intros j name Hj Hname. cbn in Hname.
      apply not_elem_of_cons in Hname as [_ Hname]. by apply (Hsame j name).
Qed.

(** C9.  [pending_observations_as_array] returns [None] for an empty
    mapping.  For a non-empty mapping whose features under the metrics of
    [outcome_names] carry every parameter of [param_names], it returns a
    list as long as [outcome_names]; the entry at the index of a pending
    metric is the (n_pending x n_params) array of that metric's feature
    values in [param_names] order, the entry of an outcome without pending
    features is the empty array, and the pending metrics that are not in
    [outcome_names] are skipped.  With pending features for "y" only and
    the outcomes ["x"; "y"], index 0 holds the empty array and index 1 the
    array of the features of "y". *)
Theorem pending_observations_as_array_spec :
  (∀ outcome_names param_names,
     pending_observations_as_array [] outcome_names param_names = Ok None)
  ∧ (∀ pending_observations outcome_names param_names,
       pending_observations ≠ [] →
       dict_wf pending_observations →
       (∀ m po_list po p,
          (m, po_list) ∈ pending_observations → m ∈ outcome_names →
          po ∈ po_list → p ∈ param_names →
          is_Some (dict_get p (parameters po))) →
       ∃ arr,
         pending_observations_as_array pending_observations outcome_names
           param_names = Ok (Some arr)
         ∧ length arr = length outcome_names
         ∧ (∀ m po_list i,
              (m, po_list) ∈ pending_observations →
              index m outcome_names = Ok i →
              ∃ rows, arr !! i = Some rows
                      ∧ length rows = length po_list
                      ∧ Forall (λ row, length row = length param_names) rows
                      ∧ pending_matrix param_names po_list rows)
         ∧ (∀ j name, outcome_names !! j = Some name →
                      name ∉ dict_keys pending_observations →
                      arr !! j = Some []))
  ∧ (∀ po_list rows,
       pending_matrix ["p"; "q"] po_list rows →
       pending_observations_as_array [("y", po_list)] ["x"; "y"] ["p"; "q"]
       = Ok (Some [[]; rows])).
Proof.
  split_and!; [done| |].
  - intros pending outcome_names param_names Hne Hwf Hall.
    unfold pending_observations_as_array.
    destruct pending as [|item items] eqn:Hp; [done|]. rewrite <- Hp in *.
    destruct (pending_fold outcome_names param_names pending
                (replicate (length outcome_names) []) Hwf Hall)
      as (arr & Harr & Hl & Hset & Hsame).
    rewrite length_replicate in Hl, Hset.
    exists arr. rewrite Harr. split_and!; [done..| |].
    + intros m po_list i Hin Hi.
      destruct (Hset m po_list i Hin Hi) as (rows & Hrows & Hmat);
        [by eapply index_lt|].
      destruct (pending_matrix_shape _ _ _ Hmat) as [Hlen Hrow].
      by exists rows.
    + intros j name Hj Hname. rewrite (Hsame j name) by done.
      apply lookup_replicate_2. by eapply lookup_lt_Some.
  - intros po_list rows Hmat. unfold pending_observations_as_array.
    cbn [foldM].
    rewrite (pending_step_set _ _ _ _ _ rows 1%nat); [done..| |done].
    apply forM_Ok_Forall2. eapply Forall2_impl; [done|]. cbn beta.
    intros po row Hrow. apply forM_Ok_Forall2.
    eapply Forall2_impl; [done|]. cbn beta. intros p v. apply dict_getitem_Some.
Qed.

Lemma pending_observations_as_array_spec_witness :
  ∃ arr,
    pending_observations_as_array pending_demo ["x"; "y"] ["p"; "q"]
    = Ok (Some arr)
    ∧ arr !! 0%nat = Some []
    ∧ arr !! 1%nat = Some [[PNum 1; PNum 4]; [PNum 2; PNum 5]].
Proof.
  destruct (proj1 (proj2 pending_observations_as_array_spec)
              pending_demo ["x"; "y"] ["p"; "q"])
    as (arr & Harr & _ & _ & Hempty).
  - done.
  - unfold dict_wf. cbn. by_decide.
  - intros m po_list po p Hin Hm Hpo Hp. unfold pending_demo in Hin.
    elem_cases_eq Hin Heq.
    + injection Heq as -> ->. elem_cases Hpo; elem_cases Hp; by eexists.
    + injection Heq as -> ->. exfalso. revert Hm. by_decide.
  - exists arr. split; [done|]. split.
    + apply (Hempty 0%nat "x"); [done|]. cbn. by_decide.
    + revert Harr. intros [= <-]. reflexivity.
Defined.
(** *** Frontier and hypervolume entry points *)

Section FrontierFacts.

Context {Model : Type}.
Variable frontier_evaluator :
  Model → option Tensor2 → option Tensor2 → option Tensor3 →
  Tensor1 → Tensor1 → option (Tensor2 * Tensor2) →
  result (Tensor2 * Tensor3).
Variable routine : FrontierEvaluator Model.
Variable from_opt_conf : OptimizationConfig → option OptimizationConfig.
Variable aggregate : Tensor1 → Tensor1 → (Tensor2 → Tensor2) * Tensor1.
Variable Hypervolume_compute : Tensor1 → Tensor2 → result R.

Implicit Types (modelbridge : ModelBridge Model).

(** [pareto_frontier] reads an empty list of features or of data as an
    absent one. *)
Lemma pareto_frontier_empty_lists
    (evaluator : FrontierEvaluator Model) modelbridge thresholds config :
  pareto_frontier evaluator from_opt_conf modelbridge thresholds
    None (Some []) config
  = pareto_frontier evaluator from_opt_conf modelbridge thresholds
      None None config.
Proof. reflexivity. Qed.

(** With neither features nor data, every path through [pareto_frontier]
    ends in an exception: each step before the evaluator raises or
    returns, and the default evaluator raises when it is reached. *)
Lemma pareto_frontier_without_inputs modelbridge thresholds config :
  ∃ e, pareto_frontier (get_default_frontier_evaluator routine) from_opt_conf
         modelbridge thresholds None None config = Raise e.
Proof.
  unfold pareto_frontier. cbn [truthy mbind result_bind bind].
  repeat lazymatch goal with
  | |- ∃ e, (get_default_frontier_evaluator _ _ _ _ _ _ _ _ ≫= _) = Raise e =>
      by exists ValueError
  | |- ∃ e, (?m ≫= _) = Raise e =>
      let r := fresh "r" in
      destruct m as [r|]; cbn [mbind result_bind bind]; [|by eexists]
  end.
Qed.

(** C4.  The entry points validate their data source.  On a model bridge
    without training data the predicted entry points, called without
    observation features, raise [ValueError] before anything else; the
    observed entry points hand [pareto_frontier] an empty list of data,
    which it reads as absent, so that the call ends in an exception
    whatever the model bridge, the thresholds and the configuration are:
    in one raised by a step before the evaluator, or in the [ValueError]
    of the default evaluator, which finds neither features nor data. *)
Theorem entry_points_without_training_data
    modelbridge objective_thresholds optimization_config :
  get_training_data modelbridge = [] →
  predicted_pareto_frontier (get_default_frontier_evaluator routine)
    from_opt_conf modelbridge objective_thresholds None optimization_config
  = Raise ValueError
  ∧ predicted_hypervolume (get_default_frontier_evaluator routine)
      from_opt_conf aggregate Hypervolume_compute modelbridge
      objective_thresholds None optimization_config
    = Raise ValueError
  ∧ (∃ e, observed_pareto_frontier (get_default_frontier_evaluator routine)
            from_opt_conf modelbridge objective_thresholds
            optimization_config = Raise e)
  ∧ (∃ e, observed_hypervolume (get_default_frontier_evaluator routine)
            from_opt_conf aggregate Hypervolume_compute modelbridge
            objective_thresholds optimization_config = Raise e).
Proof.
  intros Hdata.
  unfold predicted_pareto_frontier, predicted_hypervolume,
    observed_pareto_frontier, observed_hypervolume.
  rewrite Hdata. cbn [map]. split_and!; [done|done| |].
  - rewrite pareto_frontier_empty_lists.
    apply pareto_frontier_without_inputs.
  - unfold hypervolume. rewrite pareto_frontier_empty_lists.
    destruct (pareto_frontier_without_inputs modelbridge objective_thresholds
                optimization_config) as [e He].
    exists e. by rewrite He.
Qed.

(** C8.  When [pareto_frontier] returns the empty list, [hypervolume]
    returns 0, whatever the optimization configuration, the thresholds,
    the aggregate and the integral are. *)
Theorem hypervolume_empty_frontier
    modelbridge objective_thresholds observation_features observation_data
    optimization_config :
  pareto_frontier frontier_evaluator from_opt_conf modelbridge
    objective_thresholds observation_features observation_data
    optimization_config = Ok [] →
  hypervolume frontier_evaluator from_opt_conf aggregate Hypervolume_compute
    modelbridge objective_thresholds observation_features observation_data
    optimization_config = Ok 0.
Proof. intros H. unfold hypervolume. by rewrite H. Qed.

End FrontierFacts.

Lemma entry_points_without_training_data_witness :
  predicted_pareto_frontier evaluator_demo (λ c, Some c)
    modelbridge_untrained None None None = Raise ValueError
  ∧ (∃ e, observed_hypervolume evaluator_demo (λ c, Some c) aggregate_id
            integral_unavailable modelbridge_untrained None None = Raise e).
Proof.
  destruct (entry_points_without_training_data (λ _ _ _ _ _ _ _, Ok ([], []))
              (λ c, Some c) aggregate_id integral_unavailable
              modelbridge_untrained None None eq_refl) as (H1 & _ & _ & H4).
  by split.
Defined.

Lemma observed_frontier_demo :
  pareto_frontier evaluator_demo (λ c, Some c) modelbridge_trained
    None None (Some [data observation_demo]) None = Ok [].
Proof. by py_eval. Qed.

Lemma hypervolume_empty_frontier_witness :
  hypervolume evaluator_demo (λ c, Some c) aggregate_id
    integral_unavailable modelbridge_trained None None
    (Some [data observation_demo]) None = Ok 0.
Proof.
  apply hypervolume_empty_frontier. apply observed_frontier_demo.
Defined.

End UtilsFacts.

(** * Further properties *)

(** ** UnitX *)

Module UnitXLaws.
Import UnitX UnitXSpec UnitXFacts.

Implicit Types (o : ObservationFeatures) (bs : dict (R * R)) (k : string).

(** *** [normalize_value] *)

(** [normalize_value] on real numbers is the increasing affine map that
    sends the bounds to 0 and 1. *)
Lemma normalize_value_affine lower upper :
  lower < upper →
  normalize_value (PNum lower) (lower, upper) = Ok 0
  ∧ normalize_value (PNum upper) (lower, upper) = Ok 1
  ∧ ∀ v, ∃ r,
      normalize_value (PNum v) (lower, upper) = Ok r
      ∧ (lower <= v <= upper ↔ 0 <= r <= 1)
      ∧ (v < lower ↔ r < 0)
      ∧ (upper < v ↔ 1 < r)
      ∧ ∀ v' r', normalize_value (PNum v') (lower, upper) = Ok r' →
                 (v < v' ↔ r < r').
Proof.
  intros Hlu.
  assert (∀ v, normalize_value (PNum v) (lower, upper)
               = Ok ((v - lower) / (upper - lower))) as Hn.
  { intros v. unfold normalize_value. simpl.
    destruct (Req_dec_T (upper - lower) 0); [lra|done]. }
  assert (∀ v, (v - lower) / (upper - lower) * (upper - lower) = v - lower)
    as Hd by (intros; field; lra).
  split_and!.
  - rewrite Hn. f_equal. field. lra.
  - rewrite Hn. f_equal. field. lra.
  - intros v. eexists. split; [apply Hn|].
    pose proof (Hd v) as Hv. set (r := (v - lower) / (upper - lower)) in *.
    split_and!; try (split; intros; nra).
    intros v' r'. rewrite Hn. intros [= <-].
    pose proof (Hd v') as Hv'. set (r' := (v' - lower) / (upper - lower)) in *.
    split; intros; nra.
Qed.

(** X1.  In exact arithmetic, for bounds [lower < upper],
    [normalize_value] returns for every number, sends the bounds to 0 and
    1, preserves the strict order, and does not clamp: a value lies within
    the bounds exactly when its image lies within [0, 1], below them
    exactly when the image is negative and above them exactly when the
    image exceeds 1.  The floats of the code keep neither the bounds nor
    the strict order: in binary64, with the bounds (-1e308, 1e308) the
    difference of the bounds overflows and the upper bound is sent to NaN,
    and with the bounds (-4.9, 5.1) the values 0.5 and 0.5000000000000001
    have the same image. *)
Theorem normalize_value_order :
  (∀ lower upper,
     lower < upper →
     normalize_value (PNum lower) (lower, upper) = Ok 0
     ∧ normalize_value (PNum upper) (lower, upper) = Ok 1
     ∧ ∀ v, ∃ r,
         normalize_value (PNum v) (lower, upper) = Ok r
         ∧ (lower <= v <= upper ↔ 0 <= r <= 1)
         ∧ (v < lower ↔ r < 0)
         ∧ (upper < v ↔ 1 < r)
         ∧ ∀ v' r', normalize_value (PNum v') (lower, upper) = Ok r' →
                    (v < v' ↔ r < r'))
  ∧ (∃ r, Binary64.normalize_value (Binary64.PNum 0x1.1ccf385ebc8a0p+1023)
            ((-0x1.1ccf385ebc8a0p+1023)%float, 0x1.1ccf385ebc8a0p+1023%float)
          = Ok r
          ∧ PrimFloat.is_nan r = true)
  ∧ PrimFloat.ltb 0x1p-1 0x1.0000000000001p-1 = true
  ∧ Binary64.normalize_value (Binary64.PNum 0x1p-1)
      ((-0x1.399999999999ap+2)%float, 0x1.4666666666666p+2%float)
    = Binary64.normalize_value (Binary64.PNum 0x1.0000000000001p-1)
        ((-0x1.399999999999ap+2)%float, 0x1.4666666666666p+2%float)
  ∧ ∃ r, Binary64.normalize_value (Binary64.PNum 0x1p-1)
           ((-0x1.399999999999ap+2)%float, 0x1.4666666666666p+2%float)
         = Ok r.
Proof.
  split; [exact normalize_value_affine|].
  split; [eexists; split; by vm_compute|].
  split; [by vm_compute|]. split; [by vm_compute|].
  eexists. by vm_compute.
Qed.

Lemma normalize_value_order_witness :
  normalize_value (PNum 2) (2, 10) = Ok 0
  ∧ normalize_value (PNum 10) (2, 10) = Ok 1.
Proof.
  destruct (proj1 normalize_value_order 2 10) as (H0 & H1 & _); [lra|].
  by split.
Defined.

(** *** Observation features *)

Lemma forM_is_Ok {A B} (f : A → result B) l :
  (∃ l', forM f l = Ok l') ↔ Forall (λ a, ∃ b, f a = Ok b) l.
Proof.
  split.
  - intros [l' Hl'%forM_Ok_Forall2]. induction Hl'; constructor; eauto.
  - induction 1 as [|a l [b Hb] _ [l' Hl']]; [by exists []|].
    exists (b :: l'). simpl. by rewrite Hb, Hl'.
Qed.

Lemma transform_step_shape o o' kb :
  transform_step o kb = Ok o' →
  dict_keys (parameters o') = dict_keys (parameters o)
  ∧ trial_index o' = trial_index o.
Proof.
  destruct kb as [k [l u]]. unfold transform_step.
  destruct (dict_get k (parameters o)) as [v|] eqn:E; [|by intros [= <-]].
  intros (r & _ & [= <-])%bind_Ok. simpl. split; [|done].
  apply dict_keys_set_present. by rewrite E.
Qed.

Lemma untransform_step_shape o o' kb :
  untransform_step o kb = Ok o' →
  dict_keys (parameters o') = dict_keys (parameters o)
  ∧ trial_index o' = trial_index o.
Proof.
  destruct kb as [k [l u]]. unfold untransform_step, dict_getitem.
  destruct (dict_get k (parameters o)) as [v|] eqn:E; [|done]. simpl.
  intros (r & _ & [= <-])%bind_Ok. simpl. split; [|done].
  apply dict_keys_set_present. by rewrite E.
Qed.

Lemma foldM_shape (step : ObservationFeatures → string * (R * R) →
                          result ObservationFeatures) bs o o' :
  (∀ o o' kb, step o kb = Ok o' →
     dict_keys (parameters o') = dict_keys (parameters o)
     ∧ trial_index o' = trial_index o) →
  foldM step o bs = Ok o' →
  dict_keys (parameters o') = dict_keys (parameters o)
  ∧ trial_index o' = trial_index o.
Proof.
  intros Hstep. revert o. induction bs as [|kb bs IH]; intros o; cbn [foldM].
  - by intros [= <-].
  - intros (o1 & H1 & Hrest)%bind_Ok.
    destruct (Hstep _ _ _ H1) as [<- <-]. by apply IH.
Qed.

(** X2.  Both directions of the transform keep the shape of what they are
    given: when they return, the list has as many features as before, in
    the same order, and each feature has the same parameter names in the
    same order and the same trial index; only values change. *)
Theorem unitx_features_shape self observation_features result_features :
  transform_observation_features self observation_features = Ok result_features
  ∨ untransform_observation_features self observation_features
    = Ok result_features →
  length result_features = length observation_features
  ∧ Forall2
      (λ o o', dict_keys (parameters o') = dict_keys (parameters o)
               ∧ trial_index o' = trial_index o)
      observation_features result_features.
Proof.
  unfold transform_observation_features, untransform_observation_features.
  intros [H%forM_Ok_Forall2|H%forM_Ok_Forall2];
    (split; [symmetry; by eapply Forall2_length|]);
    (eapply Forall2_impl; [done|]); cbn beta; intros o o' Ho.
  - by apply (foldM_shape transform_step (bounds self) o o'
                transform_step_shape).
  - by apply (foldM_shape untransform_step (bounds self) o o'
                untransform_step_shape).
Qed.

Lemma unitx_features_shape_witness :
  ∃ fs, transform_observation_features (init ss_demo) [obsf_demo] = Ok fs
        ∧ length fs = 1%nat.
Proof.
  assert (transform_observation_features (init ss_demo) [obsf_demo]
          = Ok [mkObservationFeatures
                  [("x", PNum ((4 - 2) / (10 - 2))); ("n", PNum 3)] None]) as H.
  { py_compute. py_decide. reflexivity. }
  eexists. split; [exact H|].
  apply (unitx_features_shape (init ss_demo) [obsf_demo]). by left.
Defined.

Lemma untransform_step_inv o o1 k l u :
  untransform_step o (k, (l, u)) = Ok o1 →
  ∃ r, dict_get k (parameters o) = Some (PNum r)
       ∧ o1 = set_parameter o k (PNum (r * (u - l) + l)).
Proof.
  unfold untransform_step, dict_getitem.
  destruct (dict_get k (parameters o)) as [v|]; [|done]. simpl.
  destruct v as [| |r]; try done. simpl. intros [= <-]. by exists r.
Qed.

Lemma untransform_feature_complete bs o :
  (∃ o', foldM untransform_step o bs = Ok o') ↔ complete bs o.
Proof.
  revert o. induction bs as [|[k1 [l u]] bs IH]; intros o.
  { split; [by intros _ ?? ?%elem_of_nil|by exists o]. }
  cbn [foldM]. split.
  - intros [o' (o1 & H1 & Hrest)%bind_Ok].
    destruct (untransform_step_inv _ _ _ _ _ H1) as (r & Hr & ->).
    assert (complete bs (set_parameter o k1 (PNum (r * (u - l) + l)))) as Hc
      by (apply IH; by exists o').
    intros k b [[= -> ->]|Hin]%elem_of_cons; [by exists r|].
    destruct (Hc k b Hin) as [r' Hr']. simpl in Hr'.
    destruct (decide (k1 = k)) as [<-|Hne]; [by exists r|].
    rewrite dict_get_set_ne in Hr' by done. by exists r'.
  - intros Hc. destruct (Hc k1 (l, u)) as [r Hr]; [by left|].
    rewrite (untransform_step_Some _ _ _ _ r) by done. simpl.
    apply IH. intros k b Hin. simpl.
    destruct (decide (k1 = k)) as [<-|Hne].
    + rewrite dict_get_set_eq. by eexists.
    + rewrite dict_get_set_ne by done. apply (Hc k b). by right.
Qed.

(** X3.  [untransform_observation_features] returns exactly when every
    feature carries a number for every parameter the transform normalizes;
    the bounds themselves do not matter, since the inverse only multiplies
    and adds. *)
Theorem unitx_untransform_returns_iff self observation_features :
  (∃ result_features,
     untransform_observation_features self observation_features
     = Ok result_features)
  ↔ Forall (complete (bounds self)) observation_features.
Proof.
  unfold untransform_observation_features. rewrite forM_is_Ok.
  apply Forall_proper; [|done]. intros o. apply untransform_feature_complete.
Qed.

(** *** The inverse followed by the transform *)

Lemma untransform_frame bs o o' k :
  foldM untransform_step o bs = Ok o' → dict_get k bs = None →
  dict_get k (parameters o') = dict_get k (parameters o).
Proof.
  revert o. induction bs as [|[k1 b] bs IH]; intros o; cbn [foldM dict_get].
  - by intros [= <-].
  - intros (o1 & H1 & Hrest)%bind_Ok. destruct (String.eqb k k1) eqn:E; [done|].
    apply String.eqb_neq in E. intros Hk.
    rewrite (IH _ Hrest Hk). eapply untransform_step_get; eauto.
Qed.

Lemma transform_step_comm o k v k1 b :
  k ≠ k1 → is_Some (dict_get k (parameters o)) →
  transform_step (set_parameter o k v) (k1, b)
  = (o' ← transform_step o (k1, b); Ok (set_parameter o' k v)).
Proof.
  intros Hne Hk. destruct b as [l u]. unfold transform_step.
  cbn [parameters set_parameter]. rewrite dict_get_set_ne by done.
  destruct (dict_get k1 (parameters o)) as [p|]; [|done].
  destruct (normalize_value p (l, u)); cbn [mbind result_bind bind]; [|done].
  by rewrite (set_parameter_comm o k k1).
Qed.

Lemma foldM_transform_comm bs o k v :
  k ∉ dict_keys bs → is_Some (dict_get k (parameters o)) →
  foldM transform_step (set_parameter o k v) bs
  = (o' ← foldM transform_step o bs; Ok (set_parameter o' k v)).
Proof.
  revert o. induction bs as [|[k1 b] bs IH]; intros o; [done|].
  intros [Hne Hk]%not_elem_of_cons Ho. cbn [foldM].
  rewrite transform_step_comm by done.
  destruct (transform_step o (k1, b)) as [o1|e] eqn:E1; simpl; [|done].
  apply IH; [done|]. by rewrite (transform_step_get _ _ _ _ _ E1).
Qed.

Lemma roundtrip_feature_rev bs o o' :
  dict_wf bs → well_ordered bs →
  foldM untransform_step o bs = Ok o' → foldM transform_step o' bs = Ok o.
Proof.
  revert o. induction bs as [|[k1 [l u]] bs IH]; intros o Hwf Hlu; cbn [foldM].
  { by intros [= <-]. }
  apply dict_wf_cons in Hwf as [Hk1 Hwf].
  apply well_ordered_cons in Hlu as [Hul Hlu].
  intros (o1 & H1 & Hrest)%bind_Ok.
  destruct (untransform_step_inv _ _ _ _ _ H1) as (r & Hr & ->).
  assert (dict_get k1 (parameters o') = Some (PNum (r * (u - l) + l))) as Hk1'.
  { erewrite untransform_frame; [|done|by apply dict_get_None_keys].
    simpl. apply dict_get_set_eq. }
  rewrite (transform_step_Some _ _ _ _ _ Hk1') by done. simpl.
  replace ((r * (u - l) + l - l) / (u - l)) with r by (field; done).
  rewrite foldM_transform_comm; [|done|by rewrite Hk1'].
  rewrite (IH _ Hwf Hlu Hrest). simpl.
  rewrite set_parameter_set. by rewrite set_parameter_same.
Qed.

(** Transform after untransform on real numbers. *)
Lemma unitx_reverse_round_trip
    search_space observation_features untransformed :
  let self := init search_space in
  well_ordered (bounds self) →
  untransform_observation_features self observation_features
  = Ok untransformed →
  transform_observation_features self untransformed = Ok observation_features.
Proof.
  intros self Hlu.
  assert (dict_wf (bounds self)) as Hwf by apply init_wf. clearbody self.
  unfold transform_observation_features, untransform_observation_features.
  rewrite !forM_Ok_Forall2. intros H. apply Forall2_flip.
  eapply Forall2_impl; [done|]. cbn beta. intros o o' Ho.
  by apply roundtrip_feature_rev.
Qed.

(** X4.  The other round trip, the one [transform_callback] relies on.
    In exact arithmetic, for a transform built by [UnitX.__init__] with
    well-ordered bounds, whenever the inverse transform returns, the
    forward transform applied to its result returns the features the
    inverse started from.  On the floats of the code this holds up to
    rounding only: in binary64, with the bounds (0.1, 0.7), the inverse
    sends 0.3 to 0.28 and the forward transform sends that to
    0.30000000000000004. *)
Theorem unitx_transform_after_untransform :
  (∀ search_space observation_features untransformed,
     well_ordered (bounds (init search_space)) →
     untransform_observation_features (init search_space) observation_features
     = Ok untransformed →
     transform_observation_features (init search_space) untransformed
     = Ok observation_features)
  ∧ Binary64.UnitX.untransform_observation_features
      (Binary64.UnitX.init Binary64.ss_sevenths)
      [Binary64.mkObservationFeatures
         [("x", Binary64.PNum 0x1.3333333333333p-2)] None]
    = Ok [Binary64.mkObservationFeatures
            [("x", Binary64.PNum 0x1.1eb851eb851ecp-2)] None]
  ∧ Binary64.UnitX.transform_observation_features
      (Binary64.UnitX.init Binary64.ss_sevenths)
      [Binary64.mkObservationFeatures
         [("x", Binary64.PNum 0x1.1eb851eb851ecp-2)] None]
    = Ok [Binary64.mkObservationFeatures
            [("x", Binary64.PNum 0x1.3333333333334p-2)] None].
Proof.
  split; [exact unitx_reverse_round_trip|]. split; by vm_compute.
Qed.

Lemma unitx_transform_after_untransform_witness :
  transform_observation_features (init ss_demo)
    [mkObservationFeatures [("x", PNum (0.5 * (10 - 2) + 2)); ("n", PNum 3)] None]
  = Ok [mkObservationFeatures [("x", PNum 0.5); ("n", PNum 3)] None].
Proof.
  apply (proj1 unitx_transform_after_untransform ss_demo).
  - intros k l u Hin. revert Hin. cbv [ss_demo init bounds fold_left
      ss_parameters class parameter_type dict_set].
    intros [[= _ -> ->]|[]%elem_of_nil]%elem_of_cons. lra.
  - reflexivity.
Defined.

(** *** The search space *)

Lemma init_fold_get (ps : dict Param) (acc : dict (R * R)) k :
  dict_wf ps →
  dict_get k
    (fold_left
       (λ acc '(p_name, p),
          match class p, parameter_type p with
          | RangeParameter lower upper false, FLOAT =>
              dict_set p_name (lower, upper) acc
          | _, _ => acc
          end) ps acc)
  = match dict_get k ps with
    | Some p => match eligible_bounds p with
                | Some b => Some b
                | None => dict_get k acc
                end
    | None => dict_get k acc
    end.
Proof.
  revert acc. induction ps as [|[k1 p1] ps IH]; intros acc Hwf; [done|].
  apply dict_wf_cons in Hwf as [Hk1 Hwf]. cbn [fold_left dict_get].
  rewrite IH by done. destruct (String.eqb k k1) eqn:E.
  - apply String.eqb_eq in E as ->.
    apply dict_get_None_keys in Hk1. rewrite Hk1. unfold eligible_bounds.
    destruct (class p1) as [lo up [|]| |], (parameter_type p1);
      simpl; try done; apply dict_get_set_eq.
  - apply String.eqb_neq in E.
    assert (∀ b, dict_get k (dict_set k1 b acc) = dict_get k acc) as Hne
      by (intros; by apply dict_get_set_ne).
    destruct (dict_get k ps) as [p|]; [destruct (eligible_bounds p); [done|]|];
    destruct (class p1) as [lo up [|]| |], (parameter_type p1); by rewrite ?Hne.
Qed.

Lemma init_bounds_get search_space k :
  dict_wf (ss_parameters search_space) →
  dict_get k (bounds (init search_space))
  = dict_get k (ss_parameters search_space) ≫= eligible_bounds.
Proof.
  intros Hwf. unfold init. cbn [bounds]. rewrite init_fold_get by done.
  destruct (dict_get k (ss_parameters search_space)) as [p|]; [|done]. simpl.
  by destruct (eligible_bounds p).
Qed.

(** X5.  [UnitX.__init__] records bounds for exactly the float range
    parameters that are not on a log scale, each with its own lower and
    upper bound, and for no other name. *)
Theorem unitx_init_bounds search_space k :
  dict_wf (ss_parameters search_space) →
  dict_get k (bounds (init search_space))
  = dict_get k (ss_parameters search_space) ≫= eligible_bounds.
Proof. apply init_bounds_get. Qed.

Lemma unitx_init_bounds_witness :
  dict_get "x" (bounds (init ss_fidelity)) = Some (2, 10)
  ∧ dict_get "n" (bounds (init ss_fidelity)) = None.
Proof.
  split; rewrite unitx_init_bounds; try reflexivity; unfold dict_wf; cbn;
    by_decide.
Defined.

Lemma transform_parameter_outside self p_name p :
  dict_get p_name (bounds self) = None →
  transform_parameter self p_name p
  = if is_not_none (target_value p) then Raise KeyError else Ok p.
Proof.
  intros Hk. unfold transform_parameter, dict_contains, dict_getitem.
  rewrite Hk. destruct (class p); simpl; by destruct (is_not_none (target_value p)).
Qed.

Lemma forM_items_Ok {V W} (f : string → V → result W) (d : dict V) d' :
  forM (λ '(k, v), v' ← f k v; Ok (k, v')) d = Ok d' →
  dict_keys d' = dict_keys d
  ∧ ∀ k v, dict_get k d = Some v →
      ∃ v', f k v = Ok v' ∧ dict_get k d' = Some v'.
Proof.
  revert d'. induction d as [|[k1 v1] d IH]; intros d'; cbn [forM].
  { intros [= <-]. by split. }
  intros ([k1' v1'] & (v' & Hv' & [= <- <-])%bind_Ok
          & (ds & Hds & [= <-])%bind_Ok)%bind_Ok.
  destruct (IH _ Hds) as [Hkeys Hget]. split.
  - unfold dict_keys in *. cbn. by rewrite Hkeys.
  - intros k v. cbn [dict_get]. destruct (String.eqb k k1) eqn:E.
    + apply String.eqb_eq in E as ->. intros [= <-]. by exists v'.
    + apply Hget.
Qed.

(** X6.  When [transform_search_space] returns, the search space has the
    same parameter names in the same order and as many constraints as
    before, and every parameter for which the transform holds no bounds is
    returned unchanged. *)
Theorem unitx_search_space_frame self search_space search_space' :
  transform_search_space self search_space = Ok search_space' →
  dict_keys (ss_parameters search_space')
  = dict_keys (ss_parameters search_space)
  ∧ length (parameter_constraints search_space')
    = length (parameter_constraints search_space)
  ∧ ∀ k p, dict_get k (ss_parameters search_space) = Some p →
      dict_get k (bounds self) = None →
      dict_get k (ss_parameters search_space') = Some p.
Proof.
  unfold transform_search_space. intros (ps & Hps & [= <-])%bind_Ok.
  cbn [set_parameter_constraints ss_parameters parameter_constraints].
  destruct (forM_items_Ok _ _ _ Hps) as [Hkeys Hget].
  split_and!; [done|by rewrite length_map|].
  intros k p Hp Hk. destruct (Hget k p Hp) as (p' & Hp' & ->).
  rewrite transform_parameter_outside in Hp' by done.
  destruct (is_not_none (target_value p)); congruence.
Qed.

Lemma unitx_search_space_frame_witness :
  dict_get "n" (ss_parameters ss_demo_unit)
  = Some (mkParameter "n" INT (RangeParameter 0 5 false) false PNone).
Proof.
  apply (unitx_search_space_frame (init ss_demo) ss_demo ss_demo_unit);
    [by py_eval|reflexivity|reflexivity].
Defined.





End UnitXLaws.

(** ** [modelbridge_utils] *)

Module UtilsLaws.
Import UnitX UnitXSpec UnitXFacts UtilsFacts UnitXLaws.

Lemma foldM_app {A B} (f : B → A → result B) b l1 l2 :
  foldM f b (l1 ++ l2) = (b' ← foldM f b l1; foldM f b' l2).
Proof.
  revert b. induction l1 as [|a l1 IH]; intros b; simpl; [done|].
  destruct (f b a); simpl; [apply IH|done].
Qed.

Lemma forM_ext_in {A B} (f g : A → result B) l :
  (∀ a, a ∈ l → f a = g a) → forM f l = forM g l.
Proof.
  induction l as [|a l IH]; intros H; simpl; [done|].
  rewrite (H a) by by left. rewrite IH; [done|]. intros; apply H. by right.
Qed.

Lemma index_inj_Ok x y l i : index x l = Ok i → index y l = Ok i → x = y.
Proof. intros [Hx _]%index_Ok [Hy _]%index_Ok. congruence. Qed.

(** *** Arrays and observation data *)

Lemma ObservationData_init_spec names ms cv :
  (length ms = length names ∧ square (length names) cv
   ∧ ObservationData_init names ms cv = Ok (mkObservationData names ms cv))
  ∨ ((length ms ≠ length names ∨ ¬ square (length names) cv)
     ∧ ObservationData_init names ms cv = Raise ValueError).
Proof.
  unfold ObservationData_init, square.
  destruct (Nat.eqb_spec (length ms) (length names)) as [Hm|Hm]; cbn [negb];
    [|right; by eauto].
  destruct (Nat.eqb_spec (length cv) (length names)) as [Hc|Hc]; cbn [andb negb];
    [|right; split; [|done]; right; by intros [? _]].
  destruct (forallb (λ row, length row =? length names)%nat cv) eqn:Hrows;
    cbn [negb].
  - left. split_and!; [done..| |done].
    apply Forall_forall. intros row Hrow.
    rewrite forallb_forall in Hrows. apply Nat.eqb_eq, Hrows.
    by apply list_elem_of_In.
  - right. split; [|done]. right. intros [_ Hall].
    assert (forallb (λ row, length row =? length names)%nat cv = true) as Ht.
    { apply forallb_forall. intros row Hrow. apply Nat.eqb_eq.
      rewrite Forall_forall in Hall. by apply Hall, list_elem_of_In. }
    congruence.
Qed.

Lemma array_to_observation_data_loop cov outcomes f :
  ∀ k,
    match forM (λ '(i, f_i),
                  match cov !! i with
                  | Some cov_i => ObservationData_init outcomes f_i cov_i
                  | None => Raise IndexError
                  end)
               (zip (seq k (length f)) f) with
    | Ok ods =>
        (f = [] ∨ (k + length f ≤ length cov)%nat)
        ∧ (∀ i f_i cov_i, f !! i = Some f_i → cov !! (k + i)%nat = Some cov_i →
             length f_i = length outcomes ∧ square (length outcomes) cov_i)
        ∧ map means ods = f
        ∧ map covariance ods = take (length f) (drop k cov)
        ∧ Forall (λ od, metric_names od = outcomes) ods
    | Raise e =>
        (e = IndexError ∧ (length cov < k + length f)%nat)
        ∨ (e = ValueError
           ∧ ∃ i f_i cov_i, f !! i = Some f_i ∧ cov !! (k + i)%nat = Some cov_i
               ∧ (length f_i ≠ length outcomes
                  ∨ ¬ square (length outcomes) cov_i))
    end.
Proof.
  induction f as [|f_i f IH]; intros k.
  { cbn. split_and!; [by left| |done..]. intros i ? ? Hi. by destruct i. }
  cbn [length seq zip zip_with forM].
  destruct (cov !! k) as [c|] eqn:Hc; cbn [mbind result_bind bind].
  2:{ left. split; [done|]. apply lookup_ge_None in Hc. lia. }
  destruct (ObservationData_init_spec outcomes f_i c)
    as [(Hm & Hsq & ->) | [Hbad ->]]; cbn [mbind result_bind bind].
  2:{ right. split; [done|]. exists 0%nat, f_i, c.
      rewrite Nat.add_0_r. by split_and!. }
  specialize (IH (S k)).
  destruct (forM _ (zip (seq (S k) (length f)) f)) as [ods|e];
    cbn [mbind result_bind bind].
  - destruct IH as (Hlen & Hshape & Hms & Hcv & Hn). split_and!.
    + right. apply lookup_lt_Some in Hc. destruct Hlen as [-> | Hlen]; cbn; lia.
    + intros [|i] f' c' Hf' Hc'.
      * rewrite Nat.add_0_r in Hc'. cbn in Hf'. by simplify_eq.
      * apply (Hshape i); [done|].
        by replace (S k + i)%nat with (k + S i)%nat by lia.
    + cbn. by rewrite Hms.
    + cbn [map covariance]. rewrite Hcv. by rewrite (drop_S _ _ _ Hc).
    + by constructor.
  - destruct IH as [[-> Hlen] | (-> & i & f' & c' & Hf' & Hc' & Hbad)].
    + left. split; [done|]. lia.
    + right. split; [done|]. exists (S i), f', c'. split_and!; [done| |done].
      by replace (k + S i)%nat with (S k + i)%nat by lia.
Qed.

(** X8.  [array_to_observation_data] returns exactly when [cov] has an
    entry for every row of [f] and the constructor of the records accepts
    each row with its covariance (one mean per outcome, a square
    covariance of that size).  It then returns one record per row, in
    order, each naming the outcomes, and [observation_data_to_array] reads
    the arrays back: the means are [f] again and the covariances the
    first [n] entries of [cov].  Otherwise it raises [IndexError] or
    [ValueError]: [IndexError] when the shapes are right and [cov] is too
    short, [ValueError] when [cov] is long enough and a shape is wrong. *)
Theorem observation_data_round_trip f cov outcomes :
  ((∃ ods, array_to_observation_data f cov outcomes = Ok ods)
   ↔ conforming outcomes f cov)
  ∧ (∀ ods, array_to_observation_data f cov outcomes = Ok ods →
       length ods = length f
       ∧ Forall (λ od, metric_names od = outcomes) ods
       ∧ observation_data_to_array ods = (f, take (length f) cov))
  ∧ (array_to_observation_data f cov outcomes = Raise IndexError
     ∨ array_to_observation_data f cov outcomes = Raise ValueError
     ∨ ∃ ods, array_to_observation_data f cov outcomes = Ok ods)
  ∧ ((length cov < length f)%nat →
     (∀ i f_i cov_i, f !! i = Some f_i → cov !! i = Some cov_i →
        length f_i = length outcomes ∧ square (length outcomes) cov_i) →
     array_to_observation_data f cov outcomes = Raise IndexError)
  ∧ ((length f ≤ length cov)%nat →
     ¬ conforming outcomes f cov →
     array_to_observation_data f cov outcomes = Raise ValueError).
Proof.
  unfold array_to_observation_data, enumerate, conforming.
  pose proof (array_to_observation_data_loop cov outcomes f 0) as H.
  destruct (forM _ (zip (seq 0 (length f)) f)) as [ods|e].
  - destruct H as (Hlen & Hshape & Hms & Hcv & Hn).
    cbn [Nat.add] in Hlen, Hshape.
    assert (length f ≤ length cov)%nat as Hle.
    { destruct Hlen as [-> | Hlen]; cbn; lia. }
    split_and!.
    + split; [done|by eauto].
    + intros ? [= <-]. split_and!; [|done|].
      * rewrite <- Hms. by rewrite length_map.
      * unfold observation_data_to_array. by rewrite Hms, Hcv.
    + right. right. by eauto.
    + lia.
    + intros _ Hnot. destruct Hnot. by split.
  - assert (¬ ((length f ≤ length cov)%nat
               ∧ ∀ i f_i cov_i, f !! i = Some f_i → cov !! i = Some cov_i →
                   length f_i = length outcomes
                   ∧ square (length outcomes) cov_i)) as Hnot.
    { intros [Hlen Hshape].
      destruct H as [[_ Hshort] | (_ & i & f' & c' & Hf' & Hc' & Hbad)];
        [cbn in Hshort; lia|].
      destruct (Hshape i f' c' Hf' Hc') as [? ?]. by destruct Hbad. }
    split_and!.
    + split; [by intros [? ?]|done].
    + done.
    + destruct H as [[-> _] | [-> _]]; by eauto.
    + intros Hshort Hshape.
      destruct H as [[-> _] | (_ & i & f' & c' & Hf' & Hc' & Hbad)]; [done|].
      destruct (Hshape i f' c' Hf' Hc') as [? ?]. by destruct Hbad.
    + intros Hlen _.
      destruct H as [[_ Hshort] | [-> _]]; [cbn in Hshort; lia|done].
Qed.

Lemma observation_data_round_trip_witness :
  ∃ ods,
    array_to_observation_data [[1; 2]; [3; 4]]
      [[[1; 0]; [0; 1]]; [[2; 0]; [0; 2]]; [[5; 5]; [5; 5]]] ["a"; "b"]
    = Ok ods
    ∧ observation_data_to_array ods
      = ([[1; 2]; [3; 4]], [[[1; 0]; [0; 1]]; [[2; 0]; [0; 2]]])
    ∧ array_to_observation_data [[1; 2]; [3]]
        [[[1; 0]; [0; 1]]; [[2; 0]; [0; 2]]] ["a"; "b"]
      = Raise ValueError.
Proof.
  destruct (observation_data_round_trip [[1; 2]; [3; 4]]
              [[[1; 0]; [0; 1]]; [[2; 0]; [0; 2]]; [[5; 5]; [5; 5]]]
              ["a"; "b"]) as (Hiff & Hrt & _).
  destruct (proj2 Hiff) as [ods Hods].
  { split; [simpl; lia|]. intros [|[|[|i]]] f_i cov_i Hf Hc; cbn in Hf, Hc;
      simplify_eq; repeat split; repeat constructor. }
  exists ods. split; [done|]. split; [by apply Hrt|].
  apply (observation_data_round_trip [[1; 2]; [3]]
           [[[1; 0]; [0; 1]]; [[2; 0]; [0; 2]]] ["a"; "b"]); [simpl; lia|].
  intros [_ Hshape].
  by destruct (Hshape 1%nat [3] [[2; 0]; [0; 2]] eq_refl eq_refl) as [? _].
Defined.

(** *** Candidates and observation features *)

Lemma dict_of_zip_fold {V} (ks : list string) (vs : list V) (acc : dict V) :
  NoDup (dict_keys acc ++ ks) →
  fold_left (λ d '(k, v), dict_set k v d) (zip ks vs) acc = acc ++ zip ks vs.
Proof.
  revert vs acc. induction ks as [|k ks IH]; intros vs acc Hnd.
  { by rewrite app_nil_r. }
  destruct vs as [|v vs]; [by rewrite app_nil_r|]. cbn [zip zip_with fold_left].
  assert (dict_get k acc = None) as Hk.
  { apply dict_get_None_keys. apply NoDup_app in Hnd as (_ & Hd & _).
    intros Hin. apply (Hd k Hin). left. }
  rewrite dict_set_absent by done. rewrite IH.
  - by rewrite <- app_assoc.
  - unfold dict_keys. rewrite fmap_app. cbn. by rewrite <- app_assoc.
Qed.

Lemma dict_of_zip_NoDup {V} (ks : list string) (vs : list V) :
  NoDup ks → dict_of_zip ks vs = zip ks vs.
Proof. intros Hnd. unfold dict_of_zip. by rewrite dict_of_zip_fold. Qed.

Lemma getitem_zip {V} (ks : list string) (vs : list V) :
  NoDup ks → length vs = length ks →
  forM (λ p, dict_getitem p (zip ks vs)) ks = Ok vs.
Proof.
  revert vs. induction ks as [|k ks IH]; intros [|v vs] Hnd Hlen; try done.
  apply NoDup_cons in Hnd as [Hk Hnd]. injection Hlen as Hlen.
  cbn [zip zip_with forM].
  assert (dict_getitem k ((k, v) :: zip_with pair ks vs) = Ok v) as ->.
  { apply dict_getitem_Some. cbn [dict_get]. by rewrite String.eqb_refl. }
  cbn [mbind result_bind bind].
  rewrite (forM_ext_in _ (λ p, dict_getitem p (zip ks vs))).
  - by rewrite IH.
  - intros p Hp. unfold dict_getitem. cbn [dict_get].
    destruct (String.eqb p k) eqn:E; [|done].
    apply String.eqb_eq in E as ->. done.
Qed.

Lemma forM_enumerate_pure {A B} (g : A → B) (l : list A) k :
  forM (λ '(i, x), Ok (g x)) (zip (seq k (length l)) l) = Ok (g <$> l).
Proof.
  revert k. induction l as [|a l IH]; intros k; [done|].
  cbn [length seq zip zip_with forM]. cbn. by rewrite IH.
Qed.

(** X9.  Parsing candidates and converting back is the identity: for
    pairwise distinct parameter names and rows of [X] with one entry per
    name, [parse_observation_features] returns one features object per row,
    without metadata when none is given, and
    [observation_features_to_array] over the same names returns the rows
    of [X]. *)
Theorem parse_observation_features_round_trip
    {M : Type} (X : list (list R)) (param_names : list string) :
  NoDup param_names →
  Forall (λ x, length x = length param_names) X →
  ∃ fs,
    parse_observation_features (TCandidateMetadata := M) X param_names None
    = Ok fs
    ∧ length fs = length X
    ∧ Forall (λ f, f.2 = None ∧ trial_index f.1 = None) fs
    ∧ observation_features_to_array param_names (fs.*1)
      = Ok (map (map PNum) X).
Proof.
  intros Hnd Hlen. unfold parse_observation_features, enumerate.
  cbn [truthy].
  rewrite (forM_enumerate_pure
             (λ x, (mkObservationFeatures
                      (dict_of_zip param_names (PNum <$> x)) None,
                    @None M))).
  eexists. split; [done|]. split_and!.
  - by rewrite length_fmap.
  - apply Forall_fmap, Forall_true. by intros x.
  - unfold observation_features_to_array. apply forM_Ok_Forall2.
    rewrite <- list_fmap_compose.
    apply Forall2_fmap, Forall_Forall2_diag.
    eapply Forall_impl; [done|]. cbn. intros x Hx.
    rewrite dict_of_zip_NoDup by done. apply getitem_zip; [done|].
    by rewrite length_fmap.
Qed.

Lemma parse_observation_features_round_trip_witness :
  ∃ fs : list (ObservationFeatures * option unit),
    parse_observation_features [[1; 2]; [3; 4]] ["p"; "q"] None = Ok fs
    ∧ observation_features_to_array ["p"; "q"] (fs.*1)
      = Ok [[PNum 1; PNum 2]; [PNum 3; PNum 4]].
Proof.
  destruct (parse_observation_features_round_trip (M := unit)
              [[1; 2]; [3; 4]] ["p"; "q"]) as (fs & H1 & _ & _ & H2).
  - by_decide.
  - by repeat constructor.
  - by exists fs.
Defined.

Lemma forM_enumerate_metadata {M} (g : list R → ObservationFeatures)
    (X : list (list R)) (cm : list M) k :
  (k + length X ≤ length cm)%nat →
  forM (λ '(i, x),
          match cm !! i with
          | Some m => Ok (g x, Some m)
          | None => Raise IndexError
          end)
       (zip (seq k (length X)) X)
  = Ok (zip (g <$> X) (Some <$> take (length X) (drop k cm))).
Proof.
  revert k. induction X as [|x X IH]; intros k Hk; [done|].
  cbn [length seq zip zip_with forM].
  destruct (lookup_lt_is_Some_2 cm k) as [m Hm]; [simpl in Hk; lia|].
  rewrite Hm. cbn [mbind result_bind bind].
  rewrite IH by (simpl in Hk; lia). cbn [mbind result_bind bind].
  by rewrite (drop_S _ _ _ Hm).
Qed.

(** X10.  With a non-empty metadata list, [parse_observation_features]
    raises [ValueError] when the list is not as long as [X]; otherwise the
    i-th features object carries the i-th metadata entry, and the features
    themselves are those parsed without metadata. *)
Theorem parse_observation_features_metadata
    {M : Type} (X : list (list R)) (param_names : list string)
    (candidate_metadata : list M) :
  candidate_metadata ≠ [] →
  (length candidate_metadata ≠ length X →
   parse_observation_features X param_names (Some candidate_metadata)
   = Raise ValueError)
  ∧ (length candidate_metadata = length X →
     ∃ fs plain,
       parse_observation_features X param_names (Some candidate_metadata)
       = Ok fs
       ∧ parse_observation_features (TCandidateMetadata := M) X param_names
           None = Ok plain
       ∧ fs.*1 = plain.*1
       ∧ fs.*2 = Some <$> candidate_metadata).
Proof.
  intros Hne. unfold parse_observation_features, enumerate.
  destruct candidate_metadata as [|m cm] eqn:Hcm; [done|]. rewrite <- Hcm in *.
  replace (truthy (Some candidate_metadata)) with (Some candidate_metadata)
    by by rewrite Hcm.
  cbn [truthy]. split.
  - intros Hlen. apply Nat.eqb_neq in Hlen. by rewrite Hlen.
  - intros Hlen. rewrite (proj2 (Nat.eqb_eq _ _) Hlen). cbn [negb].
    rewrite (forM_enumerate_metadata
               (λ x, mkObservationFeatures
                       (dict_of_zip param_names (PNum <$> x)) None))
      by lia.
    rewrite (forM_enumerate_pure
               (λ x, (mkObservationFeatures
                        (dict_of_zip param_names (PNum <$> x)) None,
                      @None M))).
    eexists _, _. split; [done|]. split; [done|].
    rewrite drop_0, <- Hlen, firstn_all. split.
    + rewrite fst_zip by (rewrite !length_fmap; lia).
      by rewrite <- list_fmap_compose.
    + rewrite snd_zip by (rewrite !length_fmap; lia). done.
Qed.

Lemma parse_observation_features_metadata_witness :
  parse_observation_features [[1; 2]; [3; 4]] ["p"; "q"] (Some [tt])
  = Raise ValueError.
Proof.
  apply (proj1 (parse_observation_features_metadata
                  [[1; 2]; [3; 4]] ["p"; "q"] [tt] ltac:(done))).
  simpl. lia.
Defined.

(** *** The round trip of [transform_callback] *)

Lemma callback_parameters (x : list R) (names : list string) k (acc : dict TParamValue) :
  NoDup (dict_keys acc ++ names) →
  (k + length names ≤ length x)%nat →
  foldM (λ d '(i, p),
           match x !! i with
           | Some x_i => Ok (dict_set p (PNum x_i) d)
           | None => Raise IndexError
           end)
        acc (zip (seq k (length names)) names)
  = Ok (acc ++ zip names (PNum <$> take (length names) (drop k x))).
Proof.
  revert k acc. induction names as [|p names IH]; intros k acc Hnd Hk.
  { by rewrite app_nil_r. }
  cbn [length seq zip zip_with foldM].
  destruct (lookup_lt_is_Some_2 x k) as [x_k Hx]; [simpl in Hk; lia|].
  rewrite Hx. cbn [mbind result_bind bind].
  assert (dict_get p acc = None) as Hp.
  { apply dict_get_None_keys. apply NoDup_app in Hnd as (_ & Hd & _).
    intros Hin. apply (Hd p Hin). left. }
  rewrite dict_set_absent by done. rewrite IH.
  - rewrite (drop_S _ _ _ Hx). cbn. by rewrite <- app_assoc.
  - unfold dict_keys. rewrite fmap_app. cbn. by rewrite <- app_assoc.
  - simpl in Hk. lia.
Qed.

Lemma callback_parameters_short (x : list R) (names : list string) k
    (acc : dict TParamValue) :
  (k ≤ length x < k + length names)%nat →
  foldM (λ d '(i, p),
           match x !! i with
           | Some x_i => Ok (dict_set p (PNum x_i) d)
           | None => Raise IndexError
           end)
        acc (zip (seq k (length names)) names)
  = Raise IndexError.
Proof.
  revert k acc. induction names as [|p names IH]; intros k acc Hk;
    [simpl in Hk; lia|].
  cbn [length seq zip zip_with foldM].
  destruct (x !! k) as [x_k|] eqn:Hx; [|done]. cbn [mbind result_bind bind].
  apply IH. apply lookup_lt_Some in Hx. simpl in Hk. lia.
Qed.

Lemma chain_round_trip (ts : list FeaturesTransform) fs fs' :
  Forall lawful ts →
  foldM (λ obsfs t, ft_untransform_observation_features t obsfs) fs (rev ts)
  = Ok fs' →
  foldM (λ obsfs t, ft_transform_observation_features t obsfs) fs' ts = Ok fs.
Proof.
  revert fs fs'. induction ts as [|t ts IH]; intros fs fs' Hlaw.
  { by intros [= <-]. }
  apply Forall_cons in Hlaw as [Ht Hts]. cbn [rev]. rewrite foldM_app.
  intros (fsm & Hm & Hlast)%bind_Ok. cbn [foldM] in Hlast |- *.
  apply bind_Ok in Hlast as (fs1 & H1 & [= <-]).
  rewrite (Ht _ _ H1). cbn [mbind result_bind bind]. by apply IH.
Qed.

Lemma callback_read_back (float_of_str : string → option R)
    (names : list string) (x : list R) :
  NoDup names → length x = length names →
  forM (λ p, v ← dict_getitem p (zip names (PNum <$> x));
             float_of float_of_str v) names
  = Ok x.
Proof.
  revert x. induction names as [|k ks IH]; intros [|v vs] Hnd Hlen; try done.
  apply NoDup_cons in Hnd as [Hk Hnd]. injection Hlen as Hlen.
  cbn [fmap list_fmap zip zip_with forM].
  assert (dict_getitem k ((k, PNum v) :: zip_with pair ks (PNum <$> vs))
          = Ok (PNum v)) as ->.
  { apply dict_getitem_Some. cbn [dict_get]. by rewrite String.eqb_refl. }
  cbn [mbind result_bind bind float_of].
  rewrite (forM_ext_in _ (λ p, v ← dict_getitem p (zip ks (PNum <$> vs));
                               float_of float_of_str v)).
  - by rewrite IH.
  - intros p Hp. unfold dict_getitem. cbn [dict_get].
    destruct (String.eqb p k) eqn:E; [|done].
    apply String.eqb_eq in E as ->. done.
Qed.

Lemma callback_lawful_chain
    (float_of_str : string → option R) param_names transforms (x : list R) :
  NoDup param_names →
  Forall (λ t, lawful t.2) transforms →
  length x = length param_names →
  transform_callback float_of_str param_names transforms x
  = (_ ← foldM (λ obsfs t, ft_untransform_observation_features t obsfs)
            [mkObservationFeatures (zip param_names (PNum <$> x)) None]
            (rev (map snd transforms));
     Ok x).
Proof.
  intros Hnd Hlaw Hlen. unfold transform_callback, enumerate.
  assert (Forall lawful (map snd transforms)) as Hlaw' by by apply Forall_fmap.
  rewrite (callback_parameters x param_names 0 []) by (done || lia).
  rewrite drop_0, <- Hlen, firstn_all. cbn [mbind result_bind bind app].
  destruct (foldM _ _ (rev (map snd transforms))) as [fs|e] eqn:Hun;
    cbn [mbind result_bind bind]; [|done].
  rewrite (chain_round_trip _ _ _ Hlaw' Hun).
  cbn [mbind result_bind bind lookup list_lookup parameters].
  by apply callback_read_back.
Qed.

(** X11.  With pairwise distinct parameter names, a point [x] with one
    entry per name and a chain whose transforms all undo their inverse,
    [transform_callback] returns [x] itself whenever the inverses of the
    chain return on the features of [x], and raises what they raise
    otherwise.  A point with fewer entries than names raises
    [IndexError]. *)
Theorem transform_callback_identity
    (float_of_str : string → option R) param_names transforms (x : list R) :
  NoDup param_names →
  Forall (λ t, lawful t.2) transforms →
  (length x = length param_names →
   transform_callback float_of_str param_names transforms x
   = (_ ← foldM (λ obsfs t, ft_untransform_observation_features t obsfs)
             [mkObservationFeatures (zip param_names (PNum <$> x)) None]
             (rev (map snd transforms));
      Ok x))
  ∧ ((length x < length param_names)%nat →
     transform_callback float_of_str param_names transforms x
     = Raise IndexError).
Proof.
  intros Hnd Hlaw. split.
  - by apply callback_lawful_chain.
  - intros Hlen. unfold transform_callback, enumerate.
    by rewrite (callback_parameters_short x param_names 0 []) by lia.
Qed.

Lemma forM_involution {A} (f : A → result A) :
  (∀ a b, f a = Ok b → f b = Ok a) →
  ∀ l l', forM f l = Ok l' → forM f l' = Ok l.
Proof.
  intros Hf l l'. rewrite !forM_Ok_Forall2. intros H. apply Forall2_flip.
  eapply Forall2_impl; [done|]. cbn beta. by eauto.
Qed.

Lemma negate_lawful p : lawful (Negate p).
Proof.
  unfold lawful. cbn. apply forM_involution. intros o o'.
  unfold negate_step, dict_getitem.
  destruct (dict_get p (parameters o)) as [[| |r]|] eqn:Hp; try done.
  cbn. intros [= <-]. cbn [parameters set_parameter].
  rewrite dict_get_set_eq. cbn.
  rewrite <- (set_parameter_same o p (PNum r) Hp) at 2.
  f_equal. unfold set_parameter. cbn [parameters trial_index].
  rewrite dict_set_set. by rewrite Ropp_involutive.
Qed.

Lemma swap_lawful p q : p ≠ q → lawful (Swap p q).
Proof.
  intros Hpq. unfold lawful. cbn. apply forM_involution. intros o o'.
  unfold swap_step, dict_getitem.
  destruct (dict_get p (parameters o)) as [a|] eqn:Hp; [|done].
  destruct (dict_get q (parameters o)) as [b|] eqn:Hq; [|done].
  cbn. intros [= <-]. cbn [parameters set_parameter].
  rewrite (dict_get_set_ne _ q p) by done. rewrite dict_get_set_eq.
  rewrite dict_get_set_eq. cbn.
  unfold set_parameter. cbn [parameters trial_index].
  destruct o as [ps ti]. cbn [parameters trial_index] in *. f_equal.
  rewrite (dict_set_comm (dict_set p b ps) p q a a) by
    (done || (rewrite dict_get_set_eq; by eexists)).
  rewrite dict_set_set. rewrite dict_set_set.
  rewrite (dict_set_same ps p a Hp). by rewrite (dict_set_same ps q b Hq).
Qed.

Lemma transform_callback_identity_witness :
  transform_callback (λ _, None) ["x"; "y"]
    [("Swap", Swap "x" "y"); ("Negate", Negate "x")] [3; 4] = Ok [3; 4].
Proof.
  rewrite (proj1 (transform_callback_identity (λ _, None) ["x"; "y"]
                    [("Swap", Swap "x" "y"); ("Negate", Negate "x")] [3; 4]
                    ltac:(by_decide)
                    ltac:(repeat constructor;
                          [by apply swap_lawful|apply negate_lawful]))
             eq_refl).
  reflexivity.
Defined.

Lemma unitx_lawful self :
  dict_wf (bounds self) → well_ordered (bounds self) →
  lawful (UnitX_transform self).
Proof.
  intros Hwf Hlu fs fs'. cbn.
  unfold transform_observation_features, untransform_observation_features.
  rewrite !forM_Ok_Forall2. intros H. apply Forall2_flip.
  eapply Forall2_impl; [done|]. cbn beta. intros o o' Ho.
  by apply roundtrip_feature_rev.
Qed.

Lemma dict_get_zip_elem {V} (ks : list string) (vs : list V) k :
  k ∈ ks → length vs = length ks →
  ∃ v, dict_get k (zip ks vs) = Some v ∧ v ∈ vs.
Proof.
  revert vs. induction ks as [|k1 ks IH]; intros [|v vs] Hin Hlen; try done.
  { by apply elem_of_nil in Hin. }
  injection Hlen as Hlen. cbn [zip zip_with dict_get].
  destruct (String.eqb k k1) eqn:E.
  - exists v. split; [done|by left].
  - apply String.eqb_neq in E. apply elem_of_cons in Hin as [->|Hin]; [done|].
    destruct (IH vs Hin Hlen) as (v' & Hv' & Hv'in).
    exists v'. split; [done|by right].
Qed.

(** [transform_callback] over one [UnitX], on real numbers. *)
Lemma callback_unitx_exact
    (float_of_str : string → option R) search_space param_names
    (x : list R) :
  let self := init search_space in
  NoDup param_names →
  length x = length param_names →
  well_ordered (bounds self) →
  (∀ k b, (k, b) ∈ bounds self → k ∈ param_names) →
  transform_callback float_of_str param_names
    [("UnitX", UnitX_transform self)] x = Ok x.
Proof.
  intros self Hnd Hlen Hlu Hcover.
  assert (dict_wf (bounds self)) as Hwf by apply init_wf. clearbody self.
  rewrite callback_lawful_chain; [|done| |done].
  2: { constructor; [|constructor]. by apply unitx_lawful. }
  cbn [map snd rev app foldM ft_untransform_observation_features UnitX_transform].
  unfold untransform_observation_features. cbn [forM].
  destruct (proj2 (untransform_feature_complete (bounds self)
              (mkObservationFeatures (zip param_names (PNum <$> x)) None)))
    as [o' Ho'].
  { intros k b Hin. cbn [parameters].
    destruct (dict_get_zip_elem param_names (PNum <$> x) k)
      as (v & Hv & (r & -> & _)%list_elem_of_fmap);
      [by eapply Hcover|by rewrite length_fmap|].
    by exists r. }
  by rewrite Ho'.
Qed.

(** X12.  In exact arithmetic, with a single [UnitX] in the chain, built
    by [UnitX.__init__] with well-ordered bounds, [transform_callback] is
    the identity on every point [x] with one entry per parameter name,
    provided the names are pairwise distinct and include every parameter
    the transform normalizes.  On the floats of the code it is the
    identity up to rounding only: in binary64, with the bounds (0.1, 0.7),
    the point [0.3] comes back as [0.30000000000000004]. *)
Theorem transform_callback_unitx :
  (∀ (float_of_str : string → option R) search_space param_names
     (x : list R),
     NoDup param_names →
     length x = length param_names →
     well_ordered (bounds (init search_space)) →
     (∀ k b, (k, b) ∈ bounds (init search_space) → k ∈ param_names) →
     transform_callback float_of_str param_names
       [("UnitX", UnitX_transform (init search_space))] x = Ok x)
  ∧ Binary64.roundtrip_transform ["x"]
      (Binary64.UnitX.init Binary64.ss_sevenths) [0x1.3333333333333p-2%float]
    = Ok [0x1.3333333333334p-2%float].
Proof.
  split; [exact callback_unitx_exact|]. by vm_compute.
Qed.

Lemma transform_callback_unitx_witness :
  transform_callback (λ _, None) ["x"; "n"]
    [("UnitX", UnitX_transform (init ss_demo))] [0.5; 3] = Ok [0.5; 3].
Proof.
  apply (proj1 transform_callback_unitx (λ _, None) ss_demo ["x"; "n"]
           [0.5; 3]).
  - by_decide.
  - done.
  - intros k l u Hin. revert Hin. cbv [ss_demo init bounds fold_left
      ss_parameters class parameter_type dict_set].
    intros [[= _ -> ->]|[]%elem_of_nil]%elem_of_cons. lra.
  - intros k b Hin. revert Hin. cbv [ss_demo init bounds fold_left
      ss_parameters class parameter_type dict_set].
    intros [[= -> _]|[]%elem_of_nil]%elem_of_cons. by_decide.
Defined.

(** *** Parameter constraints as a matrix *)

Lemma alter_as_insert {A} (f : A → A) (l : list A) i x :
  l !! i = Some x → alter f i l = <[i := f x]> l.
Proof.
  revert i. induction l as [|y l IH]; intros [|i] Hi; try done.
  - by injection Hi as ->.
  - cbn. f_equal. by apply IH.
Qed.

Lemma row_fold_in_matrix (names : list string) (items : dict R)
    (A : list (list R)) i row :
  A !! i = Some row →
  foldM (λ A '(name, val),
           j ← index name names;
           Ok (alter (λ row, <[j := val]> row) i A)) A items
  = (row' ← foldM (λ row '(name, val),
                     j ← index name names; Ok (<[j := val]> row)) row items;
     Ok (<[i := row']> A)).
Proof.
  revert A row. induction items as [|[n w] items IH]; intros A row Hi.
  { cbn. by rewrite list_insert_id. }
  cbn [foldM]. destruct (index n names) as [j|e]; cbn [mbind result_bind bind];
    [|done].
  rewrite (alter_as_insert _ _ _ _ Hi).
  rewrite (IH _ (<[j := w]> row)).
  - destruct (foldM _ (<[j := w]> row) items); cbn [mbind result_bind bind];
      [|done].
    by rewrite list_insert_insert_eq.
  - apply list_lookup_insert_eq. by eapply lookup_lt_Some.
Qed.

Lemma dict_get_zip_index {V} (ks : list string) (vs : list V) n j v :
  index n ks = Ok j → vs !! j = Some v → dict_get n (zip ks vs) = Some v.
Proof.
  revert j vs. induction ks as [|k ks IH]; intros j vs; cbn [index]; [done|].
  destruct (String.eqb n k) eqn:E.
  - intros [= <-]. destruct vs as [|v' vs]; [done|]. intros [= ->].
    cbn [zip zip_with dict_get]. by rewrite E.
  - intros (j' & Hj' & [= <-])%bind_Ok. destruct vs as [|v' vs]; [done|].
    cbn [zip zip_with dict_get lookup list_lookup]. rewrite E. by apply IH.
Qed.

Lemma dot_insert row xs j w a x :
  row !! j = Some a → xs !! j = Some x →
  dot (<[j := w]> row) xs = dot row xs + (w - a) * x.
Proof.
  assert (∀ r row x xs, dot (r :: row) (x :: xs) = r * x + dot row xs)
    as Hcons by done.
  revert j xs. induction row as [|r row IH]; intros j xs; [done|].
  destruct xs as [|x' xs]; [done|]. destruct j as [|j].
  - intros [= ->] [= ->]. change (<[0%nat := w]> (a :: row)) with (w :: row).
    rewrite !Hcons. lra.
  - intros Hr Hx. change (<[S j := w]> (r :: row)) with (r :: <[j := w]> row).
    rewrite !Hcons. rewrite (IH j xs Hr Hx). lra.
Qed.

Lemma row_fold_dot (names : list string) (xs : list R) (items : dict R)
    (row0 : list R) (acc : R) :
  dict_wf items →
  length xs = length names → length row0 = length names →
  (∀ n w, (n, w) ∈ items → ∃ j, index n names = Ok j ∧ row0 !! j = Some 0) →
  ∃ row',
    foldM (λ row '(name, val),
             j ← index name names; Ok (<[j := val]> row)) row0 items
    = Ok row'
    ∧ length row' = length names
    ∧ foldM (λ acc '(p_name, w),
               v ← dict_getitem p_name (zip names (PNum <$> xs));
               r ← as_number v;
               Ok (acc + w * r)) acc items
      = Ok (acc + dot row' xs - dot row0 xs).
Proof.
  revert row0 acc. induction items as [|[n w] items IH];
    intros row0 acc Hwf Hxs Hrow Hzero.
  { exists row0. split_and!; [done..|]. cbn. f_equal. lra. }
  apply dict_wf_cons in Hwf as [Hn Hwf].
  destruct (Hzero n w) as (j & Hj & Hj0); [by left|].
  destruct (lookup_lt_is_Some_2 xs j) as [x Hx].
  { rewrite Hxs. by eapply index_lt. }
  cbn [foldM]. rewrite Hj. cbn [mbind result_bind bind].
  rewrite (dict_getitem_Some _ _ (PNum x)).
  2: { eapply dict_get_zip_index; [done|].
       by rewrite list_lookup_fmap, Hx. }
  cbn [mbind result_bind bind as_number].
  destruct (IH (<[j := w]> row0) (acc + w * x)) as (row' & Hrow' & Hlen & Hsum);
    [done|done|by rewrite length_insert|..].
  { intros n' w' Hin. destruct (Hzero n' w') as (j' & Hj' & Hj'0); [by right|].
    exists j'. split; [done|]. rewrite list_lookup_insert_ne; [done|].
    intros ->. assert (n = n') as -> by by eapply index_inj_Ok.
    apply Hn. by eapply elem_dict_keys. }
  exists row'. split_and!; [done..|]. rewrite Hsum. f_equal.
  rewrite (dot_insert _ _ _ _ 0 x) by done. lra.
Qed.

Lemma row_fold_total (names : list string) (items : dict R) (row0 : list R) :
  (∀ n w, (n, w) ∈ items → n ∈ names) →
  ∃ row', foldM (λ row '(name, val),
                   j ← index name names; Ok (<[j := val]> row)) row0 items
          = Ok row'.
Proof.
  revert row0. induction items as [|[n w] items IH]; intros row0 Hin;
    [by exists row0|].
  destruct (index_elem n names) as [j Hj]; [by eapply Hin; left|].
  cbn [foldM]. rewrite Hj. cbn [mbind result_bind bind].
  apply IH. intros n' w' Hin'. eapply Hin. by right.
Qed.

Lemma parameter_constraint_step_eq names (A b : list (list R)) i c :
  parameter_constraint_step names (A, b) (i, c)
  = (A' ← foldM (λ A '(name, val),
                   j ← index name names;
                   Ok (alter (λ row, <[j := val]> row) i A))
                A (constraint_dict c);
     Ok (A', alter (λ row, <[0%nat := pc_bound c]> row) i b)).
Proof. done. Qed.

Lemma parameter_constraint_fold names cs k (A b : list (list R)) :
  (∀ c n w, c ∈ cs → (n, w) ∈ constraint_dict c → n ∈ names) →
  (k + length cs ≤ length A)%nat →
  ∃ A' b',
    foldM (parameter_constraint_step names) (A, b)
          (zip (seq k (length cs)) cs)
    = Ok (A', b')
    ∧ length A' = length A ∧ length b' = length b
    ∧ (∀ i, (i < k)%nat → A' !! i = A !! i ∧ b' !! i = b !! i)
    ∧ ∀ idx c, cs !! idx = Some c →
        ∃ row0 row',
          A !! (k + idx)%nat = Some row0
          ∧ foldM (λ row '(name, val),
                     j ← index name names; Ok (<[j := val]> row))
                  row0 (constraint_dict c) = Ok row'
          ∧ A' !! (k + idx)%nat = Some row'
          ∧ b' !! (k + idx)%nat
            = (λ row, <[0%nat := pc_bound c]> row) <$> b !! (k + idx)%nat.
Proof.
  revert k A b. induction cs as [|c cs IH]; intros k A b Hin Hk.
  { exists A, b. split_and!; [done..|]. by intros ??. }
  destruct (lookup_lt_is_Some_2 A k) as [row0 Hrow0]; [simpl in Hk; lia|].
  destruct (row_fold_total names (constraint_dict c) row0) as [row' Hrow'].
  { intros n w Hnw. eapply (Hin c); [by left|done]. }
  cbn [length seq zip zip_with foldM]. rewrite parameter_constraint_step_eq.
  rewrite (row_fold_in_matrix _ _ _ _ _ Hrow0), Hrow'.
  cbn [mbind result_bind bind].
  edestruct (IH (S k) (<[k := row']> A)
               (alter (λ row, <[0%nat := pc_bound c]> row) k b))
    as (A' & b' & Hf & HlA & Hlb & Hlow & Hrow).
  { intros c' n w Hc'. eapply Hin. by right. }
  { rewrite length_insert. simpl in Hk. lia. }
  exists A', b'. rewrite length_insert in HlA. rewrite length_alter in Hlb.
  split_and!; [done..| |].
  - intros i Hi. destruct (Hlow i) as [-> ->]; [lia|].
    rewrite list_lookup_insert_ne by lia.
    by rewrite list_lookup_alter_ne by lia.
  - intros [|idx] c' Hc'; simpl in Hc'.
    + injection Hc' as <-. exists row0, row'.
      replace (k + 0)%nat with k by lia.
      destruct (Hlow k) as [-> ->]; [lia|]. split_and!; [done..| |].
      * apply list_lookup_insert_eq. by eapply lookup_lt_Some.
      * by rewrite list_lookup_alter_eq.
    + destruct (Hrow idx c' Hc') as (r0 & r' & Hr0 & Hr' & HA & Hb).
      replace (k + S idx)%nat with (S k + idx)%nat by lia.
      rewrite list_lookup_insert_ne in Hr0 by lia.
      rewrite list_lookup_alter_ne in Hb by lia.
      by exists r0, r'.
Qed.

(** X13.  For a non-empty list of constraints whose parameters are among
    [param_names], [extract_parameter_constraints] returns a matrix [A]
    and a column vector [b] with one row per constraint, each row with one
    column per parameter name, such that [b[i]] is the bound of the i-th
    constraint and [A[i] . x] is its weighted sum at the point that gives
    the parameters the values [x]; so [A[i] . x <= b[i]] says that the
    point satisfies the constraint. *)
Theorem extract_parameter_constraints_spec parameter_constraints param_names :
  parameter_constraints ≠ [] →
  (∀ c, c ∈ parameter_constraints →
        dict_wf (constraint_dict c)
        ∧ ∀ n w, (n, w) ∈ constraint_dict c → n ∈ param_names) →
  ∃ A b,
    extract_parameter_constraints parameter_constraints param_names
    = Ok (Some (A, b))
    ∧ length A = length parameter_constraints
    ∧ length b = length parameter_constraints
    ∧ ∀ i c, parameter_constraints !! i = Some c →
        ∃ row,
          A !! i = Some row
          ∧ length row = length param_names
          ∧ b !! i = Some [pc_bound c]
          ∧ ∀ x, length x = length param_names →
              weighted_sum c (zip param_names (PNum <$> x)) = Ok (dot row x)
              ∧ (dot row x <= pc_bound c
                 ↔ satisfied c (zip param_names (PNum <$> x))).
Proof.
  intros Hne Hall. unfold extract_parameter_constraints.
  destruct parameter_constraints as [|c0 cs0] eqn:Hcs; [done|].
  rewrite <- Hcs in *. clear Hne.
  edestruct (parameter_constraint_fold param_names parameter_constraints 0
               (replicate (length parameter_constraints)
                          (replicate (length param_names) 0))
               (replicate (length parameter_constraints) (replicate 1 0)))
    as (A & b & Hf & HlA & Hlb & _ & Hrow).
  { intros c n w Hc. by apply (Hall c Hc). }
  { rewrite length_replicate. lia. }
  exists A, b. unfold enumerate. rewrite Hf. cbn [mbind result_bind bind].
  rewrite length_replicate in HlA, Hlb. split_and!; [done..|].
  intros i c Hc. destruct (Hrow i c Hc) as (row0 & row & Hr0 & Hr & HA & Hb).
  cbn [Nat.add] in Hr0, HA, Hb.
  rewrite lookup_replicate_2 in Hr0, Hb by by eapply lookup_lt_Some.
  injection Hr0 as <-. exists row.
  destruct (Hall c) as [Hwf Hnames]; [by eapply list_elem_of_lookup_2|].
  assert (∀ x, length x = length param_names →
            length row = length param_names
            ∧ weighted_sum c (zip param_names (PNum <$> x)) = Ok (dot row x))
    as Hsum.
  { intros x Hx.
    destruct (row_fold_dot param_names x (constraint_dict c)
                (replicate (length param_names) 0) 0)
      as (row' & Hrow' & Hlen & Hws); [done|done|apply length_replicate| |].
    { intros n w Hnw. destruct (index_elem n param_names) as [j Hj];
        [by eapply Hnames|].
      exists j. split; [done|]. apply lookup_replicate_2. by eapply index_lt. }
    assert (row' = row) as -> by congruence. split; [done|].
    unfold weighted_sum. rewrite Hws. f_equal. rewrite dot_zeros. lra. }
  split_and!; [done| |done|].
  - by destruct (Hsum (replicate (length param_names) 0)
                   (length_replicate _ _)).
  - intros x Hx. destruct (Hsum x Hx) as [_ Hws]. split; [done|].
    unfold satisfied. rewrite Hws. split.
    + intros Hle. by exists (dot row x).
    + by intros (s & [= <-] & Hle).
Qed.

Lemma extract_parameter_constraints_spec_witness :
  ∃ A b,
    extract_parameter_constraints (parameter_constraints ss_demo) ["x"; "n"]
    = Ok (Some (A, b))
    ∧ length A = 1%nat.
Proof.
  destruct (extract_parameter_constraints_spec (parameter_constraints ss_demo)
              ["x"; "n"]) as (A & b & H & HA & _).
  - done.
  - intros c Hc. cbn in Hc. elem_cases Hc. split.
    + unfold dict_wf. cbn. by_decide.
    + intros n w Hnw. cbn in Hnw. elem_cases_eq Hnw Heq;
        injection Heq as -> _; by_decide.
  - by exists A, b.
Defined.

(** *** Names that are not in the name list *)

Lemma index_not_elem x l : x ∉ l → index x l = Raise ValueError.
Proof.
  induction l as [|y l IH]; [done|]. intros [Hne Hl]%not_elem_of_cons.
  cbn [index]. apply String.eqb_neq in Hne. rewrite Hne.
  by rewrite IH.
Qed.

Lemma index_result x l : index x l = Raise ValueError ∨ ∃ i, index x l = Ok i.
Proof.
  destruct (decide (x ∈ l)) as [Hin|Hnot].
  - right. by apply index_elem.
  - left. by apply index_not_elem.
Qed.

(** A loop whose steps raise nothing but [e] raises [e] as soon as one of
    its items makes the step raise. *)
Lemma foldM_raises {A B} (f : B → A → result B) (e : exn) b l :
  (∀ b a, f b a = Raise e ∨ ∃ b', f b a = Ok b') →
  (∃ a, a ∈ l ∧ ∀ b, f b a = Raise e) →
  foldM f b l = Raise e.
Proof.
  intros Hstep. revert b. induction l as [|a l IH]; intros b (a' & Hin & Ha').
  { by apply elem_of_nil in Hin. }
  cbn [foldM]. destruct (Hstep b a) as [->|[b' Hb']]; [done|].
  rewrite Hb'. cbn [mbind result_bind bind].
  apply elem_of_cons in Hin as [->|Hin]; [by rewrite Ha' in Hb'|].
  apply IH. eauto.
Qed.

Lemma foldM_result {A B} (f : B → A → result B) (e : exn) b l :
  (∀ b a, f b a = Raise e ∨ ∃ b', f b a = Ok b') →
  foldM f b l = Raise e ∨ ∃ b', foldM f b l = Ok b'.
Proof.
  intros Hstep. revert b. induction l as [|a l IH]; intros b; [right; by eexists|].
  cbn [foldM]. destruct (Hstep b a) as [->|[b' ->]]; [by left|].
  cbn [mbind result_bind bind]. apply IH.
Qed.

Lemma assign_step_result {A} (nm : A → string) (g : list R → A → nat → list R)
    (names : list string) ws a :
  (i ← index (nm a) names; Ok (g ws a i)) = Raise ValueError
  ∨ ∃ ws', (i ← index (nm a) names; Ok (g ws a i)) = Ok ws'.
Proof.
  destruct (index_result (nm a) names) as [->|[i ->]]; [by left|].
  right. by eexists.
Qed.

(** X14.  [extract_objective_weights] raises [ValueError] when a metric of
    the objective is not in the outcome list, and it raises nothing
    else. *)
Theorem extract_objective_weights_unknown_metric objective outcomes :
  (extract_objective_weights objective outcomes = Raise ValueError
   ∨ ∃ ws, extract_objective_weights objective outcomes = Ok ws)
  ∧ ((∃ name, name ∈ objective_metric_names objective ∧ name ∉ outcomes) →
     extract_objective_weights objective outcomes = Raise ValueError).
Proof.
  unfold extract_objective_weights.
  destruct objective as [m mn|mws mn|mws mn]; cbn [minimize objective_metric_names].
  - split.
    + apply (assign_step_result metric_name (λ ws _ i, <[i := _]> ws)).
    + intros (name & ->%list_elem_of_singleton & Hnot).
      by rewrite index_not_elem.
  - split.
    + apply foldM_result. intros ws [m w].
      apply (assign_step_result (λ mw : Metric * R, metric_name mw.1)
               (λ ws mw i, <[i := _]> ws) outcomes ws (m, w)).
    + intros (name & ((m & w) & -> & Hin)%list_elem_of_fmap & Hnot).
      apply foldM_raises.
      * intros ws [m' w'].
        apply (assign_step_result (λ mw : Metric * R, metric_name mw.1)
                 (λ ws mw i, <[i := _]> ws) outcomes ws (m', w')).
      * exists (m, w). split; [done|]. intros ws. cbn in Hnot |- *.
        by rewrite index_not_elem.
  - split.
    + apply foldM_result. intros ws [m w].
      apply (assign_step_result (λ mw : Metric * option R, metric_name mw.1)
               (λ ws mw i, <[i := _]> ws) outcomes ws (m, w)).
    + intros (name & ((m & w) & -> & Hin)%list_elem_of_fmap & Hnot).
      apply foldM_raises.
      * intros ws [m' w'].
        apply (assign_step_result (λ mw : Metric * option R, metric_name mw.1)
                 (λ ws mw i, <[i := _]> ws) outcomes ws (m', w')).
      * exists (m, w). split; [done|]. intros ws. cbn in Hnot |- *.
        by rewrite index_not_elem.
Qed.

Lemma extract_objective_weights_unknown_metric_witness :
  extract_objective_weights objective_demo ["a"; "c"] = Raise ValueError.
Proof.
  apply (proj2 (extract_objective_weights_unknown_metric objective_demo
                  ["a"; "c"])).
  exists "b". split; cbn; by_decide.
Defined.

Lemma elem_enumerate {A} (l : list A) a :
  a ∈ l → ∃ i, (i, a) ∈ enumerate l.
Proof.
  intros [i Hi]%list_elem_of_lookup_1. exists i. unfold enumerate.
  apply (list_elem_of_lookup_2 _ i). rewrite lookup_zip_with.
  rewrite lookup_seq_lt by by eapply lookup_lt_Some. by rewrite Hi.
Qed.

Lemma outcome_constraint_step_result outcomes Ab ic :
  outcome_constraint_step outcomes Ab ic = Raise ValueError
  ∨ ∃ Ab', outcome_constraint_step outcomes Ab ic = Ok Ab'.
Proof.
  destruct Ab as [A b], ic as [i c]. unfold outcome_constraint_step.
  destruct (index_result (metric_name (oc_metric c)) outcomes) as [->|[j ->]];
    [by left|right; by eexists].
Qed.

(** X15.  [extract_outcome_constraints] returns [None] for the empty list
    and for no other; it raises [ValueError] when a constraint is on a
    metric that is not in the outcome list, and it raises nothing else. *)
Theorem extract_outcome_constraints_errors outcome_constraints outcomes :
  (extract_outcome_constraints outcome_constraints outcomes = Ok None
   ↔ outcome_constraints = [])
  ∧ (extract_outcome_constraints outcome_constraints outcomes
     = Raise ValueError
     ∨ ∃ r, extract_outcome_constraints outcome_constraints outcomes = Ok r)
  ∧ ((∃ c, c ∈ outcome_constraints ∧ metric_name (oc_metric c) ∉ outcomes) →
     extract_outcome_constraints outcome_constraints outcomes
     = Raise ValueError).
Proof.
  unfold extract_outcome_constraints.
  destruct outcome_constraints as [|c0 cs] eqn:Hcs.
  { split_and!; [done|right; by eexists|].
    by intros (c & ?%elem_of_nil & _). }
  rewrite <- Hcs. split_and!.
  - split; [|by rewrite Hcs]. destruct (foldM _ _ _); by intros [=].
  - destruct (foldM_result (outcome_constraint_step outcomes) ValueError
                (replicate (length outcome_constraints)
                   (replicate (length outcomes) 0),
                 replicate (length outcome_constraints) (replicate 1 0))
                (enumerate outcome_constraints)) as [->|[Ab ->]];
      [apply outcome_constraint_step_result|by left|right; by eexists].
  - intros (c & Hc & Hnot). rewrite (foldM_raises _ ValueError); [done|..].
    + apply outcome_constraint_step_result.
    + destruct (elem_enumerate _ _ Hc) as [i Hi]. exists (i, c).
      split; [done|]. intros [A b]. unfold outcome_constraint_step.
      by rewrite index_not_elem.
Qed.

Lemma extract_outcome_constraints_errors_witness :
  extract_outcome_constraints outcome_constraints_demo ["a"; "b"]
  = Raise ValueError.
Proof.
  apply (proj2 (proj2 (extract_outcome_constraints_errors
                         outcome_constraints_demo ["a"; "b"]))).
  exists (mkOutcomeConstraint (mkMetric "c") GEQ 1 false).
  split; [by right; left|cbn; by_decide].
Defined.

Lemma parameter_constraint_step_result names Ab ic :
  parameter_constraint_step names Ab ic = Raise ValueError
  ∨ ∃ Ab', parameter_constraint_step names Ab ic = Ok Ab'.
Proof.
  destruct Ab as [A b], ic as [i c]. rewrite parameter_constraint_step_eq.
  destruct (foldM_result
              (λ A '(name, val),
                 j ← index name names;
                 Ok (alter (λ row, <[j := val]> row) i A))
              ValueError A (constraint_dict c)) as [->|[A' ->]];
    [|by left|right; by eexists].
  intros A0 [n w]. destruct (index_result n names) as [->|[j ->]];
    [by left|right; by eexists].
Qed.

(** X16.  [extract_parameter_constraints] returns [None] for the empty list
    and for no other; it raises [ValueError] when a constraint names a
    parameter that is not in [param_names], and it raises nothing else. *)
Theorem extract_parameter_constraints_errors parameter_constraints param_names :
  (extract_parameter_constraints parameter_constraints param_names = Ok None
   ↔ parameter_constraints = [])
  ∧ (extract_parameter_constraints parameter_constraints param_names
     = Raise ValueError
     ∨ ∃ r, extract_parameter_constraints parameter_constraints param_names
            = Ok r)
  ∧ ((∃ c n w, c ∈ parameter_constraints ∧ (n, w) ∈ constraint_dict c
               ∧ n ∉ param_names) →
     extract_parameter_constraints parameter_constraints param_names
     = Raise ValueError).
Proof.
  unfold extract_parameter_constraints.
  destruct parameter_constraints as [|c0 cs] eqn:Hcs.
  { split_and!; [done|right; by eexists|].
    by intros (c & ? & ? & ?%elem_of_nil & _). }
  rewrite <- Hcs. split_and!.
  - split; [|by rewrite Hcs]. destruct (foldM _ _ _); by intros [=].
  - destruct (foldM_result (parameter_constraint_step param_names) ValueError
                (replicate (length parameter_constraints)
                   (replicate (length param_names) 0),
                 replicate (length parameter_constraints) (replicate 1 0))
                (enumerate parameter_constraints)) as [->|[Ab ->]];
      [apply parameter_constraint_step_result|by left|right; by eexists].
  - intros (c & n & w & Hc & Hnw & Hnot).
    rewrite (foldM_raises _ ValueError); [done|..].
    + apply parameter_constraint_step_result.
    + destruct (elem_enumerate _ _ Hc) as [i Hi]. exists (i, c).
      split; [done|]. intros [A b]. rewrite parameter_constraint_step_eq.
      rewrite (foldM_raises _ ValueError); [done|..].
      * intros A0 [n' w']. destruct (index_result n' param_names) as [->|[j ->]];
          [by left|right; by eexists].
      * exists (n, w). split; [done|]. intros A0. by rewrite index_not_elem.
Qed.

Lemma extract_parameter_constraints_errors_witness :
  extract_parameter_constraints (parameter_constraints ss_demo) ["x"]
  = Raise ValueError.
Proof.
  apply (proj2 (proj2 (extract_parameter_constraints_errors
                         (parameter_constraints ss_demo) ["x"]))).
  exists (mkParameterConstraint [("x", 1); ("n", 1)] 12), "n", 1.
  split_and!; [by left|by right; left|by_decide].
Defined.

(** *** The sign of the objective weights *)

Lemma scaled_fold_opp {A} (nm : A → string) (w : A → R) (s : R)
    (outcomes : list string) (items : list A) (ws0 : list R) :
  foldM (λ ws a, i ← index (nm a) outcomes; Ok (<[i := w a * - s]> ws))
        (Ropp <$> ws0) items
  = match foldM (λ ws a, i ← index (nm a) outcomes; Ok (<[i := w a * s]> ws))
                ws0 items with
    | Ok ws => Ok (Ropp <$> ws)
    | Raise e => Raise e
    end.
Proof.
  revert ws0. induction items as [|a items IH]; intros ws0; [done|].
  cbn [foldM]. destruct (index (nm a) outcomes) as [i|e];
    cbn [mbind result_bind bind]; [|done].
  rewrite <- IH. f_equal. rewrite list_fmap_insert. f_equal. lra.
Qed.

(** X17.  For a single-metric or scalarized objective, switching the
    minimize flag negates the weight vector entry by entry, and raises
    what the original raises; the zeros of the outcomes outside the
    objective stay zeros. *)
Theorem extract_objective_weights_flip objective outcomes :
  is_MultiObjective objective = false →
  extract_objective_weights (flip_minimize objective) outcomes
  = match extract_objective_weights objective outcomes with
    | Ok ws => Ok (Ropp <$> ws)
    | Raise e => Raise e
    end.
Proof.
  assert (∀ mn : bool, (if negb mn then -1 else 1)
                       = - (if mn then -1 else 1)) as Hs
    by (intros [|]; simpl; lra).
  assert (∀ n, replicate n 0 = Ropp <$> replicate n 0) as Hz.
  { intros n. rewrite fmap_replicate. f_equal. lra. }
  destruct objective as [m mn|mws mn|mws mn]; [| |done]; intros _;
    unfold extract_objective_weights; cbn [flip_minimize minimize].
  - destruct (index (metric_name m) outcomes) as [i|e];
      cbn [mbind result_bind bind]; [|done].
    f_equal. rewrite list_fmap_insert, <- Hz, Hs. done.
  - rewrite Hs, Hz.
    rewrite (foldM_ext _ (λ ws (a : Metric * R),
               i ← index (metric_name a.1) outcomes;
               Ok (<[i := a.2 * - (if mn then -1 else 1)]> ws)))
      by by intros ? [].
    rewrite scaled_fold_opp. rewrite <- Hz.
    rewrite (foldM_ext (λ ws (a : Metric * R),
               i ← index (metric_name a.1) outcomes;
               Ok (<[i := a.2 * (if mn then -1 else 1)]> ws))
             (λ ws '(obj_metric, obj_weight),
               i ← index (metric_name obj_metric) outcomes;
               Ok (<[i := obj_weight * (if mn then -1 else 1)]> ws)))
      by by intros ? [].
    done.
Qed.

Lemma extract_objective_weights_flip_witness :
  extract_objective_weights
    (ScalarizedObjective [(mkMetric "a", 2); (mkMetric "c", 3)] true)
    outcomes_demo
  = match extract_objective_weights
            (ScalarizedObjective [(mkMetric "a", 2); (mkMetric "c", 3)] false)
            outcomes_demo with
    | Ok ws => Ok (Ropp <$> ws)
    | Raise e => Raise e
    end.
Proof.
  apply (extract_objective_weights_flip
           (ScalarizedObjective [(mkMetric "a", 2); (mkMetric "c", 3)] false)).
  reflexivity.
Defined.

(** *** How many thresholds come back *)

Lemma thresholds_as_omap ots outcomes :
  extract_objective_thresholds ots outcomes
  = Ok (omap (threshold_of ots) outcomes).
Proof.
  unfold extract_objective_thresholds.
  rewrite forM_getitem_filter. f_equal.
  apply list_omap_ext, Forall_Forall2_diag, Forall_forall. intros x _.
  rewrite threshold_dict_get. by destruct (threshold_of ots x).
Qed.

Lemma threshold_of_Some ots name v :
  threshold_of ots name = Some v →
  ∃ ot, ot ∈ ots ∧ ot_bound ot = v ∧ metric_name (ot_metric ot) = name.
Proof.
  induction ots as [|ot ots IH]; [done|]. cbn [threshold_of].
  destruct (threshold_of ots name) as [v'|].
  - intros [= ->]. destruct IH as (ot' & ? & ? & ?); [done|].
    exists ot'. split_and!; [by right|done..].
  - destruct (String.eqb name (metric_name (ot_metric ot))) eqn:E; [|done].
    apply String.eqb_eq in E. intros [= <-]. exists ot. split_and!; [by left|done..].
Qed.

Lemma length_omap_filter {A B} (f : A → option B) (l : list A) :
  length (omap f l) = length (filter (λ x, is_Some (f x)) l).
Proof.
  induction l as [|x l IH]; [done|]. rewrite filter_cons. cbn [omap list_omap].
  destruct (f x) as [y|] eqn:E.
  - rewrite decide_True by by eexists. cbn. by rewrite <- IH.
  - rewrite decide_False by by intros [? [=]]. done.
Qed.

(** X18.  [extract_objective_thresholds] returns at most one value per
    outcome, each of them the bound of a threshold on a metric of the
    outcome list; when the outcome names are pairwise distinct it returns
    no more values than there are thresholds, as its docstring says. *)
Theorem extract_objective_thresholds_length objective_thresholds outcomes :
  ∃ values,
    extract_objective_thresholds objective_thresholds outcomes = Ok values
    ∧ (length values ≤ length outcomes)%nat
    ∧ (NoDup outcomes → (length values ≤ length objective_thresholds)%nat)
    ∧ ∀ v, v ∈ values →
        ∃ ot, ot ∈ objective_thresholds ∧ ot_bound ot = v
              ∧ metric_name (ot_metric ot) ∈ outcomes.
Proof.
  eexists. split; [apply thresholds_as_omap|]. split_and!.
  - rewrite length_omap_filter. apply length_filter.
  - intros Hnd. rewrite length_omap_filter.
    rewrite <- (length_fmap (λ ot, metric_name (ot_metric ot))
                  objective_thresholds).
    apply submseteq_length, NoDup_submseteq; [by apply NoDup_filter|].
    intros x [[v Hv] _]%list_elem_of_filter.
    destruct (threshold_of_Some _ _ _ Hv) as (ot & Hot & _ & <-).
    by apply (list_elem_of_fmap_2 (λ ot, metric_name (ot_metric ot))).
  - intros v (x & Hx & Hv)%list_elem_of_omap.
    destruct (threshold_of_Some _ _ _ Hv) as (ot & Hot & Hb & Hn).
    exists ot. by rewrite Hn.
Qed.

Lemma extract_objective_thresholds_length_witness :
  ∃ values,
    extract_objective_thresholds
      [mkObjectiveThreshold (mkMetric "a") 1 LEQ false] outcomes_demo
    = Ok values
    ∧ (length values ≤ 1)%nat.
Proof.
  destruct (extract_objective_thresholds_length
              [mkObjectiveThreshold (mkMetric "a") 1 LEQ false] outcomes_demo)
    as (values & H & _ & Hlen & _).
  exists values. split; [done|]. apply Hlen. by_decide.
Defined.

(** *** Pending observations: the edges *)

Lemma forM_result {A B} (f : A → result B) (e : exn) l :
  (∀ a, f a = Raise e ∨ ∃ b, f a = Ok b) →
  forM f l = Raise e ∨ ∃ l', forM f l = Ok l'.
Proof.
  intros Hf. induction l as [|a l IH]; [right; by eexists|].
  cbn [forM]. destruct (Hf a) as [->|[b ->]]; [by left|].
  cbn [mbind result_bind bind]. destruct IH as [->|[l' ->]]; [by left|].
  right. by eexists.
Qed.

Lemma getitem_result {V} (d : dict V) p :
  dict_getitem p d = Raise KeyError ∨ ∃ v, dict_getitem p d = Ok v.
Proof.
  unfold dict_getitem. destruct (dict_get p d); [right; by eexists|by left].
Qed.

Lemma pending_rows_result param_names po_list :
  forM (λ po, forM (λ p, dict_getitem p (parameters po)) param_names) po_list
  = Raise KeyError
  ∨ ∃ rows,
      forM (λ po, forM (λ p, dict_getitem p (parameters po)) param_names)
           po_list = Ok rows.
Proof.
  apply forM_result. intros po. apply forM_result. intros p.
  apply getitem_result.
Qed.

Lemma pending_step_result outcome_names param_names arr item :
  pending_step outcome_names param_names arr item = Raise KeyError
  ∨ ∃ arr', pending_step outcome_names param_names arr item = Ok arr'.
Proof.
  destruct item as [m po_list]. unfold pending_step.
  destruct (mem m outcome_names) eqn:Hmem; cbn [negb]; [|right; by eexists].
  destruct (pending_rows_result param_names po_list) as [->|[rows ->]];
    [by left|]. cbn [mbind result_bind bind].
  destruct (index_elem m outcome_names) as [i ->]; [by apply mem_elem|].
  right. by eexists.
Qed.

(** X19.  [pending_observations_as_array] raises nothing but [KeyError],
    and it raises it when a pending feature of a metric of
    [outcome_names] lacks one of the parameters of [param_names]; a
    feature of a metric outside [outcome_names] is never read. *)
Theorem pending_observations_missing_parameter
    pending_observations outcome_names param_names :
  (pending_observations_as_array pending_observations outcome_names
     param_names = Raise KeyError
   ∨ ∃ r, pending_observations_as_array pending_observations outcome_names
            param_names = Ok r)
  ∧ ((∃ m po_list po p,
        (m, po_list) ∈ pending_observations ∧ m ∈ outcome_names
        ∧ po ∈ po_list ∧ p ∈ param_names
        ∧ dict_get p (parameters po) = None) →
     pending_observations_as_array pending_observations outcome_names
       param_names = Raise KeyError).
Proof.
  unfold pending_observations_as_array.
  destruct pending_observations as [|item items] eqn:Hp.
  { split; [right; by eexists|].
    by intros (? & ? & ? & ? & ?%elem_of_nil & _). }
  rewrite <- Hp. split.
  - destruct (foldM_result (pending_step outcome_names param_names) KeyError
                (replicate (length outcome_names) []) pending_observations)
      as [->|[arr ->]];
      [apply pending_step_result|by left|right; by eexists].
  - intros (m & po_list & po & p & Hin & Hm & Hpo & Hpn & Hmiss).
    rewrite (foldM_raises _ KeyError); [done|apply pending_step_result|].
    exists (m, po_list). split; [done|]. intros arr. unfold pending_step.
    rewrite (proj2 (mem_elem _ _) Hm). cbn [negb].
    rewrite (forM_first_error _ _ KeyError); [done|..].
    + intros po' _. apply forM_result. intros p'. apply getitem_result.
    + exists po. split; [done|].
      apply forM_first_error; [intros p' _; apply getitem_result|].
      exists p. split; [done|]. unfold dict_getitem. by rewrite Hmiss.
Qed.

Lemma pending_observations_missing_parameter_witness :
  pending_observations_as_array pending_demo ["x"; "z"] ["p"; "q"]
  = Raise KeyError.
Proof.
  apply (proj2 (pending_observations_missing_parameter pending_demo
                  ["x"; "z"] ["p"; "q"])).
  exists "z", [mkObservationFeatures [("p", PNum 0)] None],
    (mkObservationFeatures [("p", PNum 0)] None), "q".
  split_and!; [by right; left|by_decide|by left|by_decide|done].
Defined.

(** X20.  A non-empty mapping none of whose metrics is in [outcome_names]
    does not give [None] as the empty mapping does: the result is one
    empty array per outcome, whatever the pending features are. *)
Theorem pending_observations_all_unknown
    pending_observations outcome_names param_names :
  pending_observations ≠ [] →
  (∀ m po_list, (m, po_list) ∈ pending_observations → m ∉ outcome_names) →
  pending_observations_as_array pending_observations outcome_names param_names
  = Ok (Some (replicate (length outcome_names) [])).
Proof.
  intros Hne Hall. unfold pending_observations_as_array.
  destruct pending_observations as [|item items] eqn:Hp; [done|].
  rewrite <- Hp in *. clear Hp Hne.
  assert (∀ arr, foldM (pending_step outcome_names param_names) arr
                       pending_observations = Ok arr) as ->; [|done].
  induction pending_observations as [|[m po_list] l IH]; intros arr; [done|].
  cbn [foldM]. rewrite pending_step_skip.
  - cbn [mbind result_bind bind]. apply IH. intros m' pl' Hin.
    apply (Hall m' pl'). by right.
  - destruct (mem m outcome_names) eqn:E; [|done].
    apply mem_elem in E. destruct (Hall m po_list); [by left|done].
Qed.

Lemma pending_observations_all_unknown_witness :
  pending_observations_as_array pending_demo ["u"; "v"] ["p"]
  = Ok (Some [[]; []]).
Proof.
  apply (pending_observations_all_unknown pending_demo ["u"; "v"] ["p"]).
  - done.
  - intros m po_list Hin. unfold pending_demo in Hin.
    elem_cases_eq Hin Heq; injection Heq as -> _; by_decide.
Defined.

(** *** Bounds and task features *)

Lemma bounds_step_supported search_space bs tfs fds i name p :
  dict_get name (ss_parameters search_space) = Some p → supported p →
  bounds_step search_space (bs, tfs, fds) (i, name)
  = Returns (bs ++ [range_bounds p],
             tfs ++ task_indices i [p],
             fds ++ fidelity_targets i [p]).
Proof.
  intros Hp [(l & u & Hc) Hf]. unfold bounds_step, range_bounds.
  rewrite Hp, Hc. cbn [task_indices fidelity_targets].
  destruct (is_fidelity p) eqn:Hfid.
  - destruct (Hf eq_refl) as [r ->].
    destruct (parameter_type p); by rewrite ?app_nil_r.
  - destruct (parameter_type p), (target_value p); by rewrite ?app_nil_r.
Qed.

Lemma bounds_step_Returns search_space st i name st' :
  bounds_step search_space st (i, name) = Returns st' →
  ∃ p, dict_get name (ss_parameters search_space) = Some p ∧ supported p.
Proof.
  destruct st as [[bs tfs] fds]. unfold bounds_step.
  destruct (dict_get name (ss_parameters search_space)) as [p|]; [|done].
  intros H. exists p. split; [done|]. unfold supported.
  destruct (class p) as [l u [|]| |]; try done. split; [by eexists _, _|].
  intros Hfid. rewrite Hfid in H.
  destruct (target_value p) as [| |r]; try done. by exists r.
Qed.

Lemma bounds_loop_supported search_space names ps k bs tfs fds :
  Forall2 (λ name p, dict_get name (ss_parameters search_space) = Some p
                     ∧ supported p) names ps →
  bounds_loop search_space (bs, tfs, fds) (zip (seq k (length names)) names)
  = Returns (bs ++ (range_bounds <$> ps),
             tfs ++ task_indices k ps,
             fds ++ fidelity_targets k ps).
Proof.
  intros H. revert k bs tfs fds.
  induction H as [|name p names ps [Hp Hs] _ IH]; intros k bs tfs fds.
  { cbn. by rewrite !app_nil_r. }
  cbn [length seq zip zip_with bounds_loop].
  rewrite (bounds_step_supported _ _ _ _ _ _ p) by done.
  rewrite IH. cbn [fmap list_fmap task_indices fidelity_targets].
  rewrite <- !app_assoc. do 2 f_equal.
  - f_equal. destruct (parameter_type p); by rewrite ?app_nil_r.
  - destruct (is_fidelity p), (target_value p); by rewrite ?app_nil_r.
Qed.

Lemma bounds_loop_Returns search_space names k st st' :
  bounds_loop search_space st (zip (seq k (length names)) names) = Returns st' →
  ∃ ps, Forall2 (λ name p, dict_get name (ss_parameters search_space) = Some p
                           ∧ supported p) names ps.
Proof.
  revert k st. induction names as [|name names IH]; intros k st.
  { intros _. by exists []. }
  cbn [length seq zip zip_with bounds_loop].
  destruct (bounds_step search_space st (k, name)) as [st1|e] eqn:E; [|done].
  intros [ps Hps]%IH. destruct (bounds_step_Returns _ _ _ _ _ E) as (p & Hp & Hs).
  exists (p :: ps). by constructor.
Qed.

(** X21.  [get_bounds_and_task] returns exactly when every name of
    [param_names] is a parameter of the search space that is a range
    parameter, not on a log scale, with a number as target value if it is
    a fidelity parameter.  It then returns the bounds of the parameters in
    the order of the names, the positions of the integer parameters in
    increasing order, and the target values of the fidelity parameters by
    position. *)
Theorem get_bounds_and_task_spec search_space param_names :
  ((∃ r, get_bounds_and_task search_space param_names = Returns r)
   ↔ ∃ ps, Forall2
             (λ name p, dict_get name (ss_parameters search_space) = Some p
                        ∧ supported p) param_names ps)
  ∧ ∀ ps,
      Forall2 (λ name p, dict_get name (ss_parameters search_space) = Some p
                         ∧ supported p) param_names ps →
      get_bounds_and_task search_space param_names
      = Returns (range_bounds <$> ps, task_indices 0 ps, fidelity_targets 0 ps).
Proof.
  unfold get_bounds_and_task, enumerate. split; [split|].
  - intros [r Hr]. by eapply bounds_loop_Returns.
  - intros [ps Hps]. rewrite (bounds_loop_supported _ _ ps) by done.
    by eexists.
  - intros ps Hps. by rewrite (bounds_loop_supported _ _ ps).
Qed.

Lemma get_bounds_and_task_spec_witness :
  get_bounds_and_task ss_fidelity ["n"; "x"]
  = Returns ([(0, 5); (2, 10)], [0%nat], [(0%nat, 5)]).
Proof.
  apply (proj2 (get_bounds_and_task_spec ss_fidelity ["n"; "x"])
           [mkParameter "n" INT (RangeParameter 0 5 false) true (PNum 5);
            mkParameter "x" FLOAT (RangeParameter 2 10 false) false PNone]).
  repeat constructor; cbn; try done; by eauto.
Defined.

(** X22.  [get_bounds_and_task] refuses a parameter that is not a range
    parameter or is on a log scale: if the names before it are accepted,
    the call raises [ValueError]; and a name that is not a parameter of the
    search space raises [KeyError]. *)
Theorem get_bounds_and_task_rejects search_space accepted name rest ps :
  Forall2 (λ name p, dict_get name (ss_parameters search_space) = Some p
                     ∧ supported p) accepted ps →
  (dict_get name (ss_parameters search_space) = None →
   get_bounds_and_task search_space (accepted ++ name :: rest)
   = Raises (Builtin KeyError))
  ∧ (∀ p, dict_get name (ss_parameters search_space) = Some p →
          (∀ l u, class p ≠ RangeParameter l u false) →
          get_bounds_and_task search_space (accepted ++ name :: rest)
          = Raises (Builtin ValueError)).
Proof.
  intros Hacc. unfold get_bounds_and_task, enumerate.
  assert (∀ k bs tfs fds e,
    (∀ st, bounds_step search_space st (k + length accepted, name)%nat
           = Raises e) →
    bounds_loop search_space (bs, tfs, fds)
      (zip (seq k (length (accepted ++ name :: rest))) (accepted ++ name :: rest))
    = Raises e) as Hloop.
  { intros k bs tfs fds e He. revert k bs tfs fds He.
    induction Hacc as [|a p accepted ps [Hp Hs] _ IH]; intros k bs tfs fds He.
    - cbn [app length seq zip zip_with bounds_loop].
      specialize (He (bs, tfs, fds)). cbn [length] in He.
      replace (k + 0)%nat with k in He by lia. by rewrite He.
    - cbn [app length seq zip zip_with bounds_loop].
      rewrite (bounds_step_supported _ _ _ _ _ _ p) by done.
      apply IH. intros st. specialize (He st). cbn [length] in He.
      by replace (S k + length accepted)%nat
        with (k + S (length accepted))%nat by lia. }
  split.
  - intros Hname. apply Hloop. intros [[bs tfs] fds]. unfold bounds_step.
    by rewrite Hname.
  - intros p Hp Hclass. apply Hloop. intros [[bs tfs] fds]. unfold bounds_step.
    rewrite Hp. destruct (class p) as [l u [|]| |]; try done.
    by destruct (Hclass l u).
Qed.

Lemma get_bounds_and_task_rejects_witness :
  get_bounds_and_task ss_demo ["x"; "y"] = Raises (Builtin KeyError).
Proof.
  apply (proj1 (get_bounds_and_task_rejects ss_demo ["x"] "y" []
    [mkParameter "x" FLOAT (RangeParameter 2 10 false) false PNone]
    ltac:(repeat constructor; cbn; try done; by eauto))).
  reflexivity.
Defined.

(** *** The configuration [pareto_frontier] needs *)

(** X23.  Called without an optimization configuration on a model bridge
    that has none attached, or one that is not multi-objective,
    [pareto_frontier] raises, whatever the evaluator is: [ValueError] when
    the transforms of the supplied features and data return, and what
    they raise otherwise. *)
Theorem pareto_frontier_without_configuration
    {Model : Type}
    (frontier_evaluator :
       Model → option Tensor2 → option Tensor2 → option Tensor3 →
       Tensor1 → Tensor1 → option (Tensor2 * Tensor2) →
       result (Tensor2 * Tensor3))
    (from_opt_conf : OptimizationConfig → option OptimizationConfig)
    (modelbridge : ModelBridge Model)
    objective_thresholds observation_features observation_data :
  _optimization_config modelbridge = None
  ∨ (∃ c, _optimization_config modelbridge = Some c
          ∧ is_multi_objective c = false) →
  (∃ e, pareto_frontier frontier_evaluator from_opt_conf modelbridge
          objective_thresholds observation_features observation_data None
        = Raise e)
  ∧ ((∀ fs, truthy observation_features = Some fs →
        ∃ x, mb_transform_observation_features modelbridge fs = Ok x) →
     (∀ od, truthy observation_data = Some od →
        ∃ y, mb_transform_observation_data modelbridge od = Ok y) →
     pareto_frontier frontier_evaluator from_opt_conf modelbridge
       objective_thresholds observation_features observation_data None
     = Raise ValueError).
Proof.
  intros Hcfg. unfold pareto_frontier.
  assert (checked_cast_optional (_optimization_config modelbridge) = Ok None
          ∨ checked_cast_optional (_optimization_config modelbridge)
            = Raise ValueError) as Hcc.
  { destruct Hcfg as [->|(c & -> & Hc)]; cbn; [by left|]. rewrite Hc. by right. }
  split.
  - destruct (truthy observation_features) as [fs|];
      [destruct (mb_transform_observation_features modelbridge fs)|];
      cbn [mbind result_bind bind]; try by eexists.
    all: destruct (truthy observation_data) as [od|];
      [destruct (mb_transform_observation_data modelbridge od)|];
      cbn [mbind result_bind bind]; try by eexists.
    all: destruct Hcc as [-> | ->]; cbn [mbind result_bind bind]; by eexists.
  - intros Hfs Hod.
    destruct (truthy observation_features) as [fs|].
    + destruct (Hfs fs eq_refl) as [x ->]. cbn [mbind result_bind bind].
      destruct (truthy observation_data) as [od|].
      * destruct (Hod od eq_refl) as [y ->]. cbn [mbind result_bind bind].
        by destruct Hcc as [-> | ->].
      * cbn [mbind result_bind bind]. by destruct Hcc as [-> | ->].
    + cbn [mbind result_bind bind].
      destruct (truthy observation_data) as [od|].
      * destruct (Hod od eq_refl) as [y ->]. cbn [mbind result_bind bind].
        by destruct Hcc as [-> | ->].
      * cbn [mbind result_bind bind]. by destruct Hcc as [-> | ->].
Qed.

Lemma pareto_frontier_without_configuration_witness :
  pareto_frontier evaluator_demo (λ c, Some c)
    (mkModelBridge outcomes_demo tt None [] []
       (λ _, Ok []) (λ _, Ok ([], [])) (λ _, Ok ([], []))
       (λ config _, Ok config))
    None None None None
  = Raise ValueError.
Proof.
  apply (pareto_frontier_without_configuration evaluator_demo (λ c, Some c)
           (mkModelBridge outcomes_demo tt None [] []
              (λ _, Ok []) (λ _, Ok ([], [])) (λ _, Ok ([], []))
              (λ config _, Ok config)) None None None);
    [by left|done|done].
Defined.

(** *** Fixed features *)

Lemma int_dict_set_absent {V} (i : nat) (v : V) d :
  i ∉ d.*1 → int_dict_set i v d = d ++ [(i, v)].
Proof.
  induction d as [|[k w] d IH]; [done|]. cbn [int_dict_set fmap list_fmap fst].
  intros [Hne Hd]%not_elem_of_cons.
  destruct (Nat.eqb_spec i k) as [->|_]; [done|].
  cbn. f_equal. by apply IH.
Qed.

Lemma int_dict_set_cons {V} (i : nat) (v : V) d :
  ∃ e d', int_dict_set i v d = e :: d'.
Proof.
  destruct d as [|[k w] d]; cbn; [by eauto|]. destruct (i =? k)%nat; by eauto.
Qed.

Lemma fixed_step_number float_of_str param_names d p_name r i :
  index p_name param_names = Ok i →
  (val_ ← float_of float_of_str (PNum r);
   i ← index p_name param_names;
   Ok (int_dict_set i val_ d)) = Ok (int_dict_set i r d).
Proof. intros Hi. cbn. by rewrite Hi. Qed.

Lemma fixed_fold float_of_str param_names ps :
  ∀ acc es,
    Forall2 (λ kv ir, index kv.1 param_names = Ok ir.1 ∧ kv.2 = PNum ir.2)
            ps es →
    NoDup (acc.*1 ++ es.*1) →
    foldM (λ d '(p_name, val),
             val_ ← float_of float_of_str val;
             i ← index p_name param_names;
             Ok (int_dict_set i val_ d))
          acc ps
    = Ok (acc ++ es).
Proof.
  induction ps as [|[k v] ps IH]; intros acc es Hes Hnd.
  - apply Forall2_nil_inv_l in Hes as ->. cbn. by rewrite app_nil_r.
  - apply Forall2_cons_inv_l in Hes as ([i r] & es' & [Hi Hv] & Hes' & ->).
    cbn in Hi, Hv. subst v. cbn [foldM].
    rewrite (fixed_step_number _ _ _ _ _ i) by done.
    cbn [mbind result_bind bind].
    cbn [fmap list_fmap fst] in Hnd.
    rewrite int_dict_set_absent.
    + rewrite (IH (acc ++ [(i, r)]) es' Hes').
      * by rewrite <- app_assoc.
      * rewrite fmap_app. cbn [fmap list_fmap fst]. by rewrite <- app_assoc.
    + apply NoDup_app in Hnd as (_ & Hd & _). intros Hin.
      apply (Hd i Hin). apply list_elem_of_here.
Qed.

Lemma fixed_entries param_names (ps : dict TParamValue) :
  (∀ k v, (k, v) ∈ ps → k ∈ param_names ∧ ∃ r, v = PNum r) →
  ∃ es, Forall2 (λ kv ir, index kv.1 param_names = Ok ir.1 ∧ kv.2 = PNum ir.2)
                ps es.
Proof.
  induction ps as [|[k v] ps IH]; intros H; [by exists []|].
  destruct IH as [es Hes].
  { intros k' v' Hin. apply H. by apply list_elem_of_further. }
  destruct (H k v (list_elem_of_here _ _)) as [Hk [r ->]].
  destruct (index_elem _ _ Hk) as [i Hi].
  exists ((i, r) :: es). by constructor.
Qed.

Lemma fixed_entries_NoDup param_names (ps : dict TParamValue) es :
  Forall2 (λ kv ir, index kv.1 param_names = Ok ir.1 ∧ kv.2 = PNum ir.2)
          ps es →
  dict_wf ps → NoDup es.*1.
Proof.
  unfold dict_wf, dict_keys.
  induction 1 as [|[k v] [i r] ps es [Hi _] Hes IH]; intros Hwf; cbn;
    [constructor|].
  cbn in Hi, Hwf. apply NoDup_cons in Hwf as [Hk Hwf].
  apply NoDup_cons. split; [|by apply IH].
  intros Hin. apply Hk.
  apply list_elem_of_fmap in Hin as ([i' r'] & Heq & Hin). cbn in Heq. subst i'.
  apply list_elem_of_lookup in Hin as [n Hn].
  destruct (Forall2_lookup_r _ _ _ _ _ Hes Hn) as ([k' v'] & Hk' & [Hi' _]).
  cbn in Hi'. rewrite (index_inj_Ok _ _ _ _ Hi Hi').
  apply list_elem_of_fmap. exists (k', v'). split; [done|].
  by eapply list_elem_of_lookup_2.
Qed.

(** X24.  For fixed features with pairwise distinct parameter names, all
    of them in [param_names] and all with a number as value,
    [get_fixed_features] returns [None] when there is no parameter and
    otherwise a dictionary with one entry per parameter, in the order of
    the parameters and under pairwise distinct keys: the key is the first
    position of the parameter's name in [param_names] and the value is the
    parameter's value. *)
Theorem get_fixed_features_spec
    (float_of_str : string → option R) fixed_features param_names :
  dict_wf (parameters fixed_features) →
  (∀ k v, (k, v) ∈ parameters fixed_features →
          k ∈ param_names ∧ ∃ r, v = PNum r) →
  (parameters fixed_features = [] →
   get_fixed_features float_of_str fixed_features param_names = Ok None)
  ∧ (parameters fixed_features ≠ [] →
     ∃ d, get_fixed_features float_of_str fixed_features param_names
          = Ok (Some d)
       ∧ NoDup d.*1
       ∧ Forall2 (λ kv ir,
                    param_names !! ir.1 = Some kv.1
                    ∧ (∀ j, (j < ir.1)%nat → param_names !! j ≠ Some kv.1)
                    ∧ kv.2 = PNum ir.2)
                 (parameters fixed_features) d).
Proof.
  intros Hwf Hin. unfold get_fixed_features. split.
  - by intros ->.
  - intros Hne. destruct (fixed_entries _ _ Hin) as [es Hes].
    pose proof (fixed_entries_NoDup _ _ _ Hes Hwf) as Hnd.
    rewrite (fixed_fold _ _ _ [] es Hes) by done.
    cbn [app mbind result_bind bind]. exists es.
    destruct es as [|e es'].
    { apply Forall2_nil_inv_r in Hes. done. }
    split; [done|]. split; [done|].
    eapply Forall2_impl; [exact Hes|].
    intros [k v] [i r] [Hi Hv]. cbn in *.
    destruct (index_Ok _ _ _ Hi) as [H1 H2]. by eauto.
Qed.

Lemma get_fixed_features_spec_witness :
  ∃ d, get_fixed_features (λ _, None)
         (mkObservationFeatures [("y", PNum 3); ("x", PNum 5)] None)
         ["x"; "y"; "z"]
       = Ok (Some d)
     ∧ d.*1 = [1%nat; 0%nat].
Proof.
  destruct (get_fixed_features_spec (λ _, None)
              (mkObservationFeatures [("y", PNum 3); ("x", PNum 5)] None)
              ["x"; "y"; "z"]) as [_ H].
  - unfold dict_wf. cbn. by_decide.
  - intros k v Hin. cbn in Hin. elem_cases_eq Hin Heq; injection Heq as -> ->;
      (split; [by_decide|by eauto]).
  - destruct H as (d & Hd & _ & _); [done|]. exists d. split; [done|].
    cbn in Hd. by injection Hd as <-.
Defined.

Lemma fixed_fold_result float_of_str param_names ps :
  ∀ acc,
    (∃ e, foldM (λ d '(p_name, val),
                   val_ ← float_of float_of_str val;
                   i ← index p_name param_names;
                   Ok (int_dict_set i val_ d))
                acc ps = Raise e)
    ∨ ∃ d, foldM (λ d '(p_name, val),
                    val_ ← float_of float_of_str val;
                    i ← index p_name param_names;
                    Ok (int_dict_set i val_ d))
                 acc ps = Ok d
           ∧ (ps ≠ [] → d ≠ []).
Proof.
  induction ps as [|[k v] ps IH]; intros acc; [right; by eexists|].
  cbn [foldM].
  destruct v as [|s|r]; cbn [float_of mbind result_bind bind].
  - left. exists TypeError. by eauto.
  - destruct (float_of_str s) as [r|]; cbn [mbind result_bind bind].
    + destruct (index_result k param_names) as [-> | [i ->]];
        cbn [mbind result_bind bind].
      * left. exists ValueError. by eauto.
      * destruct (IH (int_dict_set i r acc)) as [H | (d & Hd & Hne)];
          [by left|]. right. exists d. split; [done|]. intros _.
        destruct ps as [|p ps']; [|by apply Hne].
        cbn in Hd. injection Hd as <-.
        by destruct (int_dict_set_cons i r acc) as (e & d' & ->).
    + left. exists ValueError. by eauto.
  - destruct (index_result k param_names) as [-> | [i ->]];
      cbn [mbind result_bind bind].
    + left. exists ValueError. by eauto.
    + destruct (IH (int_dict_set i r acc)) as [H | (d & Hd & Hne)];
        [by left|]. right. exists d. split; [done|]. intros _.
      destruct ps as [|p ps']; [|by apply Hne].
      cbn in Hd. injection Hd as <-.
      by destruct (int_dict_set_cons i r acc) as (e & d' & ->).
Qed.

Lemma fixed_fold_unknown float_of_str param_names ps :
  ∀ acc,
    (∀ k v, (k, v) ∈ ps → ∃ r, v = PNum r) →
    (∃ k v, (k, v) ∈ ps ∧ k ∉ param_names) →
    foldM (λ d '(p_name, val),
             val_ ← float_of float_of_str val;
             i ← index p_name param_names;
             Ok (int_dict_set i val_ d))
          acc ps = Raise ValueError.
Proof.
  induction ps as [|[k v] ps IH]; intros acc Hnum (k0 & v0 & Hin & Hk0).
  { by apply elem_of_nil in Hin. }
  destruct (Hnum k v (list_elem_of_here _ _)) as [r ->].
  cbn [foldM float_of mbind result_bind bind].
  destruct (index_result k param_names) as [-> | [i Hi]]; [done|].
  rewrite Hi. cbn [mbind result_bind bind]. apply IH.
  - intros k' v' H. apply (Hnum k' v'). by apply list_elem_of_further.
  - apply elem_of_cons in Hin as [Heq | Hin]; [|by eauto].
    injection Heq as -> ->. exfalso. apply Hk0.
    destruct (index_Ok _ _ _ Hi) as [H _]. by eapply list_elem_of_lookup_2.
Qed.

Lemma fixed_fold_none float_of_str param_names before k rest :
  ∀ acc,
    (∀ k' v', (k', v') ∈ before → k' ∈ param_names ∧ ∃ r, v' = PNum r) →
    foldM (λ d '(p_name, val),
             val_ ← float_of float_of_str val;
             i ← index p_name param_names;
             Ok (int_dict_set i val_ d))
          acc (before ++ (k, PNone) :: rest) = Raise TypeError.
Proof.
  induction before as [|[k1 v1] before IH]; intros acc Hb; [done|].
  destruct (Hb k1 v1 (list_elem_of_here _ _)) as [Hk1 [r ->]].
  destruct (index_elem _ _ Hk1) as [i Hi].
  cbn [app foldM float_of mbind result_bind bind]. rewrite Hi.
  cbn [mbind result_bind bind]. apply IH.
  intros k' v' Hin. apply Hb. by apply list_elem_of_further.
Qed.

(** X25.  [get_fixed_features] returns [None] for features without
    parameters and for no other.  When every value is a number, as the
    source requires ("All float here"), it raises [ValueError] as soon as
    one parameter name is not in [param_names]; and a value [None] raises
    [TypeError] when the parameters before it are numbers under names of
    [param_names]. *)
Theorem get_fixed_features_errors
    (float_of_str : string → option R) fixed_features param_names :
  (get_fixed_features float_of_str fixed_features param_names = Ok None
   ↔ parameters fixed_features = [])
  ∧ ((∀ k v, (k, v) ∈ parameters fixed_features → ∃ r, v = PNum r) →
     (∃ k v, (k, v) ∈ parameters fixed_features ∧ k ∉ param_names) →
     get_fixed_features float_of_str fixed_features param_names
     = Raise ValueError)
  ∧ (∀ before k rest,
       parameters fixed_features = before ++ (k, PNone) :: rest →
       (∀ k' v', (k', v') ∈ before → k' ∈ param_names ∧ ∃ r, v' = PNum r) →
       get_fixed_features float_of_str fixed_features param_names
       = Raise TypeError).
Proof.
  unfold get_fixed_features. split_and!.
  - destruct (fixed_fold_result float_of_str param_names
                (parameters fixed_features) [])
      as [(e & Hr) | (d & Hd & Hne)].
    + rewrite Hr. cbn. split; [done|]. intros Hnil.
      rewrite Hnil in Hr. done.
    + rewrite Hd. cbn [mbind result_bind bind]. split.
      * intros Hres. destruct d as [|e d']; [|done].
        destruct (parameters fixed_features); [done|]. by destruct Hne.
      * intros Hnil. rewrite Hnil in Hd. cbn in Hd. by injection Hd as <-.
  - intros Hnum Hun. by rewrite (fixed_fold_unknown _ _ _ [] Hnum Hun).
  - intros before k rest -> Hb.
    by rewrite (fixed_fold_none _ _ _ _ _ [] Hb).
Qed.

Lemma get_fixed_features_errors_witness :
  get_fixed_features (λ _, None)
    (mkObservationFeatures [("x", PNum 5); ("w", PNum 1)] None) ["x"; "y"]
  = Raise ValueError
  ∧ get_fixed_features (λ _, None)
      (mkObservationFeatures [("x", PNum 5); ("y", PNone)] None) ["x"; "y"]
    = Raise TypeError.
Proof.
  split.
  - apply (get_fixed_features_errors (λ _, None)
             (mkObservationFeatures [("x", PNum 5); ("w", PNum 1)] None)
             ["x"; "y"]).
    + intros k v Hin. cbn in Hin.
      elem_cases_eq Hin Heq; injection Heq as -> ->; by eauto.
    + exists "w", (PNum 1). split; [|by_decide].
      cbn. apply list_elem_of_further, list_elem_of_here.
  - apply (proj2 (proj2 (get_fixed_features_errors (λ _, None)
             (mkObservationFeatures [("x", PNum 5); ("y", PNone)] None)
             ["x"; "y"])) [("x", PNum 5)] "y" []); [done|].
    intros k v Hin. cbn in Hin.
    elem_cases_eq Hin Heq; injection Heq as -> ->.
    split; [by_decide|by eauto].
Defined.

End UtilsLaws.
